(** * Training-session orchestration of the EBM native wrapper

    A shallow embedding of
    [python/interpret-core/interpret/glassbox/ebm/internal.py]:
    the classes [Native] (the loader and the part the orchestration uses),
    [NativeEBMBooster], [NativeEBMInteraction] and [NativeHelper].

    Conventions of the embedding.
    - Python [int] values are [Z].
    - Python [float] values (validation metrics, gains, tensor entries,
      the early-stopping tolerance) are rationals extended with [+inf]
      (type [double]); there is no NaN and no [-inf].  The code only
      compares them, takes minima of them and, in one place, adds two
      of them: comparison and minimum are exact, and the sum is the
      exact sum rounded to the nearest binary64, ties to even, as the
      addition of Python floats is.
    - A numpy array is a record of its [shape] and of its elements in
      C (row-major) order; one-dimensional int64 arrays whose rank the
      code never inspects are plain lists.
    - Exceptions are values of type [exn]; a method is a function in a
      state-and-exception monad whose state survives a raise, as the
      fields of a Python object do.
    - The native engine is a parameter: a record [Native] of transition
      functions over an abstract engine state.  Every call through
      [self._native._unsafe] is recorded, with its arguments and its
      results, in a call log kept next to the engine state.
    - Calls to [log.info]/[log.debug] have no effect on any value
      modelled here and are left out, as are the methods no property
      below is about ([set_logging], [get_model_update_cuts], the
      binning and sampling helpers of [Native]).
    - The loader ([get_native_singleton], [_initialize],
      [_get_ebm_lib_path]) runs on a record of what it reads from the
      interpreter; [ct.cdll.LoadLibrary] together with the declarations
      of the native argument types is a parameter that gives a library
      or fails.  The sessions are modelled with the library loaded:
      their [Native.get_native_singleton()] returns the cached
      object. *)

From Stdlib Require Import ZArith QArith String List Bool Lia.
From Stdlib Require Import Permutation Sorted.
Import ListNotations.

Open Scope string_scope.
Open Scope list_scope.
Open Scope Z_scope.

(** ** Python values *)

Inductive exn : Type :=
| ValueError (msg : string)
| RuntimeError (msg : string)
| AttributeError (msg : string)
| TypeError (msg : string)
| IndexError
| NativeException (return_code : Z) (native_function : string).

Inductive result (A : Type) : Type :=
| Ok (a : A)
| Raise (e : exn).
Arguments Ok {A} a.
Arguments Raise {A} e.

(** Idealised IEEE doubles: a rational or [np.inf]. *)
Inductive double : Type :=
| Fin (q : Q)
| PInf.

Definition Qltb (x y : Q) : bool :=
  (Qnum x * QDen y <? Qnum y * QDen x)%Z.

(** [a < b] on doubles. *)
Definition dlt (a b : double) : bool :=
  match a, b with
  | Fin x, Fin y => Qltb x y
  | Fin _, PInf => true
  | PInf, _ => false
  end.

(** The nearest integer to [n / d], for [0 <= n] and [0 < d], a tie
    going to the even one. *)
Definition round_half_even (n d : Z) : Z :=
  let q := n / d in
  let r := n mod d in
  if 2 * r <? d then q
  else if d <? 2 * r then q + 1
  else if Z.even q then q else q + 1.

(** [floor(log2(n / d))], for [0 < n] and [0 < d]. *)
Definition floor_log2 (n d : Z) : Z :=
  let k := Z.log2 n - Z.log2 d in
  if (if 0 <=? k then d * 2 ^ k <=? n else d <=? n * 2 ^ (- k)) then k else k - 1.

(** Rounding to IEEE-754 binary64, round-to-nearest, ties to even: 53
    significant bits, subnormals below [2^-1022] (multiples of
    [2^-1074]), and overflow from [2^1024 - 2^970] on.  A value that
    overflows downwards becomes [-2^1024]: the embedding has no [-inf],
    and [-2^1024] is below every finite double, as [-inf] is. *)
Definition round_binary64 (x : Q) : double :=
  let n := Z.abs (Qnum x) in
  let d := QDen x in
  if n =? 0 then Fin 0
  else
    let e := floor_log2 n d in
    let ex := Z.max e (-1022) - 52 in
    let m := if 0 <=? ex then round_half_even n (d * 2 ^ ex)
             else round_half_even (n * 2 ^ (- ex)) d in
    if (0 <=? ex) && (2 ^ 1024 <=? m * 2 ^ ex) then
      if 0 <? Qnum x then PInf else Fin (inject_Z (- 2 ^ 1024))
    else
      let s := if 0 <? Qnum x then m else - m in
      if 0 <=? ex then Fin (inject_Z (s * 2 ^ ex))
      else Fin (s # Z.to_pos (2 ^ (- ex))).

(** [a + b] on doubles: the exact sum, rounded. *)
Definition dadd (a b : double) : double :=
  match a, b with
  | Fin x, Fin y => round_binary64 (x + y)
  | _, _ => PInf
  end.

(** [a <= b] as a proposition, used in statements only. *)
Definition dle (a b : double) : Prop :=
  match a, b with
  | Fin x, Fin y => (x <= y)%Q
  | _, PInf => True
  | PInf, Fin _ => False
  end.

(** Equality of doubles as numbers ([==] of Python on floats). *)
Definition deq (a b : double) : Prop :=
  match a, b with
  | Fin x, Fin y => (x == y)%Q
  | PInf, PInf => True
  | _, _ => False
  end.

(** Python's builtin [min(a, b)]: the first argument unless the second
    is strictly smaller. *)
Definition py_min (a b : double) : double :=
  if dlt b a then b else a.

(** [l[i]] on a Python list or a one-dimensional numpy array: negative
    indices count from the end, anything else out of range raises. *)
Definition py_getitem {A : Type} (l : list A) (i : Z) : result A :=
  let n := Z.of_nat (List.length l) in
  let j := if i <? 0 then i + n else i in
  if (0 <=? j) && (j <? n) then
    match nth_error l (Z.to_nat j) with
    | Some x => Ok x
    | None => Raise IndexError
    end
  else Raise IndexError.

(** [range(n)] *)
Definition range (n : Z) : list Z :=
  map Z.of_nat (seq 0 (Z.to_nat n)).

(** ** numpy arrays *)

Record ndarray (A : Type) : Type := mk_ndarray {
  shape : list Z;
  data : list A
}.
Arguments mk_ndarray {A} shape data.
Arguments shape {A} n.
Arguments data {A} n.

Definition ndim {A : Type} (a : ndarray A) : Z :=
  Z.of_nat (List.length (shape a)).

(** [a.shape[k]], used by the code only after [a.ndim] was checked. *)
Definition shape_at {A : Type} (a : ndarray A) (k : nat) : Z :=
  nth k (shape a) 0.

(** [len(a)] of an array. *)
Definition np_len {A : Type} (a : ndarray A) : result Z :=
  match shape a with
  | [] => Raise (TypeError "len() of unsized object")
  | n :: _ => Ok n
  end.

Definition count_elements (shp : list Z) : nat :=
  fold_right (fun d acc => (Z.to_nat d * acc)%nat) 1%nat shp.

(** [np.zeros(n, dtype=ct.c_double, order="C")] for an integer [n]. *)
Definition np_zeros (n : Z) : result (ndarray double) :=
  if n <? 0 then Raise (ValueError "negative dimensions are not allowed")
  else Ok (mk_ndarray [n] (repeat (Fin 0) (Z.to_nat n))).

(** [np.empty(shape, ...)]: only whether the allocation is legal matters,
    the contents are written by the native call that follows. *)
Definition np_empty_ok (shp : list Z) : bool :=
  forallb (fun d => 0 <=? d) shp.

Definition shape_eqb (s1 s2 : list Z) : bool :=
  if list_eq_dec Z.eq_dec s1 s2 then true else false.

(** Element [k] of the C-contiguous copy of [np.transpose(x, (1, 0, 2))]
    for [x] of shape [(a, b, c)]: position [(j, i, l)] of the result
    holds position [(i, j, l)] of [x].  With [c = 1] this is
    [np.transpose(x, (1, 0))] on shape [(a, b)]. *)
Definition transpose_source (a b c k : nat) : nat :=
  let l := (k mod c)%nat in
  let q := (k / c)%nat in
  let j := (q / a)%nat in
  let i := (q mod a)%nat in
  ((i * b + j) * c + l)%nat.

Definition transpose_data {A : Type} (a b c : nat) (d : list A) : list A :=
  flat_map
    (fun k => match nth_error d (transpose_source a b c k) with
              | Some x => [x]
              | None => []
              end)
    (seq 0 (a * b * c)).

(** [np.ascontiguousarray(np.transpose(x, (1, 0)))] *)
Definition transpose_10 {A : Type} (x : ndarray A) : result (ndarray A) :=
  match shape x with
  | [a; b] =>
      Ok (mk_ndarray [b; a]
            (transpose_data (Z.to_nat a) (Z.to_nat b) 1 (data x)))
  | _ => Raise (ValueError "axes don't match array")
  end.

(** [np.ascontiguousarray(np.transpose(x, (1, 0, 2)))] *)
Definition transpose_102 {A : Type} (x : ndarray A) : result (ndarray A) :=
  match shape x with
  | [a; b; c] =>
      Ok (mk_ndarray [b; a; c]
            (transpose_data (Z.to_nat a) (Z.to_nat b) (Z.to_nat c) (data x)))
  | _ => Raise (ValueError "axes don't match array")
  end.

(** ** State-and-exception monad *)

Definition M (S A : Type) : Type := S -> result A * S.

Definition ret {S A : Type} (a : A) : M S A := fun s => (Ok a, s).

Definition raise {S A : Type} (e : exn) : M S A := fun s => (Raise e, s).

Definition bind {S A B : Type} (m : M S A) (f : A -> M S B) : M S B :=
  fun s =>
    match m s with
    | (Ok a, s') => f a s'
    | (Raise e, s') => (Raise e, s')
    end.

Definition get_state {S : Type} : M S S := fun s => (Ok s, s).

Definition put_state {S : Type} (s : S) : M S unit := fun _ => (Ok tt, s).

Definition lift_result {S A : Type} (r : result A) : M S A :=
  fun s => (r, s).

Declare Scope monad_scope.
Delimit Scope monad_scope with monad.
Notation "x <- c1 ;; c2" := (bind c1 (fun x => c2))
  (at level 61, c1 at next level, right associativity) : monad_scope.
Notation "' pat <- c1 ;; c2" := (bind c1 (fun x => match x with pat => c2 end))
  (at level 61, pat pattern, c1 at next level, right associativity) : monad_scope.
Notation "c1 ;; c2" := (bind c1 (fun _ => c2))
  (at level 61, right associativity) : monad_scope.
Open Scope monad_scope.

(** [if cond: raise e] *)
Definition raise_if {S : Type} (cond : bool) (e : exn) : M S unit :=
  if cond then raise e else ret tt.

(** [for x in l: body(x)] with no [break]. *)
Fixpoint for_each {S A : Type} (l : list A) (body : A -> M S unit) : M S unit :=
  match l with
  | [] => ret tt
  | x :: rest => body x ;; for_each rest body
  end.

(** [[f(x) for x in l]] built by repeated [append]. *)
Fixpoint map_m {S A B : Type} (f : A -> M S B) (l : list A) : M S (list B) :=
  match l with
  | [] => ret []
  | x :: rest => y <- f x ;; ys <- map_m f rest ;; ret (y :: ys)
  end.

(** ** The native engine behind [self._native._unsafe] *)

(** [c_void_p.value]: [None] for a null pointer. *)
Definition handle : Type := option Z.

(** The arguments the two [Create...Booster] entry points share, in the
    order of the call. *)
Record booster_data : Type := mk_booster_data {
  bd_count_features : Z;
  bd_features_categorical : list bool;
  bd_features_bin_count : list Z;
  bd_count_feature_groups : Z;
  bd_feature_groups_feature_count : list Z;
  bd_feature_groups_feature_indexes : list Z;
  bd_count_train : Z;
  bd_X_train : ndarray Z;
  bd_y_train : ndarray double;
  bd_w_train : ndarray double;
  bd_scores_train : ndarray double;
  bd_count_val : Z;
  bd_X_val : ndarray Z;
  bd_y_val : ndarray double;
  bd_w_val : ndarray double;
  bd_scores_val : ndarray double;
  bd_n_inner_bags : Z;
  bd_optional_temp_params : option (list double)
}.

(** The arguments the two [Create...InteractionDetector] entry points
    share. *)
Record interaction_data : Type := mk_interaction_data {
  id_count_features : Z;
  id_features_categorical : list bool;
  id_features_bin_count : list Z;
  id_count_samples : Z;
  id_X : ndarray Z;
  id_y : ndarray double;
  id_w : ndarray double;
  id_scores : ndarray double;
  id_optional_temp_params : option (list double)
}.

(** One entry per call that crossed the boundary: the arguments, then
    what the engine gave back. *)
Inductive native_call : Type :=
| CallCreateClassificationBooster
    (random_state n_classes : Z) (d : booster_data) (return_code : Z)
| CallCreateRegressionBooster
    (random_state : Z) (d : booster_data) (return_code : Z)
| CallFreeBooster (h : handle)
| CallGenerateModelUpdate
    (h : handle) (feature_group_index generate_update_options : Z)
    (learning_rate : double) (min_samples_leaf : Z)
    (max_leaves_arr : list Z) (return_code : Z) (gain : double)
| CallApplyModelUpdate (h : handle) (return_code : Z) (metric_output : double)
| CallGetBestModelFeatureGroup
    (h : handle) (feature_group_index : Z) (shp : list Z) (return_code : Z)
| CallGetCurrentModelFeatureGroup
    (h : handle) (feature_group_index : Z) (shp : list Z) (return_code : Z)
| CallGetModelUpdateExpanded (h : handle) (shp : list Z) (return_code : Z)
| CallSetModelUpdateExpanded
    (h : handle) (feature_group_index : Z) (model_update : ndarray double)
    (return_code : Z)
| CallCreateClassificationInteractionDetector
    (n_classes : Z) (d : interaction_data) (return_code : Z)
| CallCreateRegressionInteractionDetector
    (d : interaction_data) (return_code : Z)
| CallFreeInteractionDetector (h : handle)
| CallCalculateInteractionScore
    (h : handle) (count_dimensions : Z) (feature_indexes : list Z)
    (min_samples_leaf : Z) (return_code : Z) (score : double).

(** The engine: one transition function per entry point.  Output
    parameters ([ct.byref(...)] and arrays the engine fills) are
    returned next to the return code. *)
Record Native : Type := mk_Native {
  native_state : Type;
  CreateClassificationBooster :
    Z -> Z -> booster_data -> native_state -> (Z * handle) * native_state;
  CreateRegressionBooster :
    Z -> booster_data -> native_state -> (Z * handle) * native_state;
  FreeBooster : handle -> native_state -> native_state;
  GenerateModelUpdate :
    handle -> Z -> Z -> double -> Z -> list Z ->
    native_state -> (Z * double) * native_state;
  ApplyModelUpdate : handle -> native_state -> (Z * double) * native_state;
  GetBestModelFeatureGroup :
    handle -> Z -> list Z -> native_state -> (Z * list double) * native_state;
  GetCurrentModelFeatureGroup :
    handle -> Z -> list Z -> native_state -> (Z * list double) * native_state;
  GetModelUpdateExpanded :
    handle -> list Z -> native_state -> (Z * list double) * native_state;
  SetModelUpdateExpanded :
    handle -> Z -> ndarray double -> native_state -> Z * native_state;
  CreateClassificationInteractionDetector :
    Z -> interaction_data -> native_state -> (Z * handle) * native_state;
  CreateRegressionInteractionDetector :
    interaction_data -> native_state -> (Z * handle) * native_state;
  FreeInteractionDetector : handle -> native_state -> native_state;
  CalculateInteractionScore :
    handle -> Z -> list Z -> Z -> native_state -> (Z * double) * native_state
}.

(** The engine state together with the log of the calls made so far,
    oldest first. *)
Record world (N : Native) : Type := mk_world {
  engine : native_state N;
  calls : list native_call
}.
Arguments mk_world {N} engine calls.
Arguments engine {N} w.
Arguments calls {N} w.

(** ** class Native *)

(** [Native._get_native_exception]: the exception built from a non-zero
    return code (the message text is determined by the code and the
    function name, which are kept). *)
Definition _get_native_exception (error_code : Z) (native_function : string) : exn :=
  NativeException error_code native_function.

(** [Native.get_count_scores_c] *)
Definition get_count_scores_c (n_classes : Z) : Z :=
  if n_classes <=? 2 then 1 else n_classes.

(** [Native._convert_feature_groups_to_c] *)
Definition _convert_feature_groups_to_c (feature_groups : list (list Z))
  : list Z * list Z :=
  (map (fun features_in_group => Z.of_nat (List.length features_in_group))
       feature_groups,
   concat feature_groups).

(** ** class NativeEBMBooster *)

Record NativeEBMBooster : Type := mk_NativeEBMBooster {
  _booster_handle : handle;
  _feature_group_index : Z;
  _model_type : string;
  _n_classes : Z;
  _features_bin_count : list Z;
  _feature_groups : list (list Z)
}.

Definition set_feature_group_index (i : Z) (b : NativeEBMBooster) : NativeEBMBooster :=
  mk_NativeEBMBooster (_booster_handle b) i (_model_type b) (_n_classes b)
    (_features_bin_count b) (_feature_groups b).

(** A model tensor as the methods hand it out: [None] or an array. *)
Definition tensor : Type := option (ndarray double).

Definition len {A : Type} (l : list A) : Z := Z.of_nat (List.length l).

Section WithNative.

Variable N : Native.

(** The state a method of a session runs in: the fields of [self] and
    the world behind the native boundary. *)
Definition bstate : Type := NativeEBMBooster * world N.

(** A call through [self._native._unsafe]: run the engine, log the call. *)
Definition unsafe {A : Type}
  (f : native_state N -> A * native_state N) (entry : A -> native_call)
  : M (world N) A :=
  fun w =>
    let (a, e) := f (engine w) in
    (Ok a, mk_world e (calls w ++ [entry a])).

Definition unsafe_void
  (f : native_state N -> native_state N) (entry : native_call)
  : M (world N) unit :=
  fun w => (Ok tt, mk_world (f (engine w)) (calls w ++ [entry])).

Definition in_world {S A : Type} (m : M (world N) A) : M (S * world N) A :=
  fun s => let (r, w') := m (snd s) in (r, (fst s, w')).

Definition get_self {S W : Type} : M (S * W) S := fun s => (Ok (fst s), s).

(** [self._feature_group_index = i] *)
Definition assign_feature_group_index (i : Z) : M bstate unit :=
  fun s => (Ok tt, (set_feature_group_index i (fst s), snd s)).

(** The handling of a prior score tensor, written out three times in the
    source (for [scores_train], [scores_val] and the interaction
    detector's [scores]); [name]/[y_name] are the names used in the
    messages, [n_samples] is [len(y)]. *)
Definition prepare_scores {S : Type} (name y_name : string)
  (scores : tensor) (n_samples n_scores : Z) : M S (ndarray double) :=
  match scores with
  | None => lift_result (np_zeros (n_samples * n_scores))
  | Some s =>
      shape0 <- lift_result (py_getitem (shape s) 0) ;;
      raise_if (negb (shape0 =? n_samples))
        (ValueError (name ++ " does not have the same number of samples as " ++ y_name)%string) ;;
      (if n_scores =? 1 then
         raise_if (negb (ndim s =? 1))
           (ValueError (name ++ " should have exactly 1 dimensions for regression or binary classification")%string)
       else
         raise_if (negb (ndim s =? 2))
           (ValueError (name ++ " should have exactly 2 dimensions for multiclass")%string) ;;
         raise_if (negb (shape_at s 1 =? n_scores))
           (ValueError (name ++ " does not have the same number of logit scores as n_scores")%string)) ;;
      ret s
  end.

(** [NativeEBMBooster.__init__]: the object it leaves in [self] when it
    returns normally. *)
Definition NativeEBMBooster__init__
  (model_type : string) (n_classes : Z)
  (features_categorical : list bool) (features_bin_count : list Z)
  (feature_groups : list (list Z))
  (X_train : ndarray Z) (y_train w_train : ndarray double) (scores_train : tensor)
  (X_val : ndarray Z) (y_val w_val : ndarray double) (scores_val : tensor)
  (n_inner_bags random_state : Z) (optional_temp_params : option (list double))
  : M (world N) NativeEBMBooster :=
  (* self._booster_handle = None; self._feature_group_index = -1 *)
  raise_if (negb (ndim X_train =? 2))
    (ValueError "X_train should have exactly 2 dimensions") ;;
  raise_if (negb (ndim y_train =? 1))
    (ValueError "y_train should have exactly 1 dimension") ;;
  raise_if (negb (shape_at X_train 0 =? len features_categorical))
    (ValueError "X_train does not have the same number of items as the features_categorical array") ;;
  raise_if (negb (shape_at X_train 0 =? len features_bin_count))
    (ValueError "X_train does not have the same number of items as the features_bin_count array") ;;
  raise_if (negb (shape_at X_train 1 =? shape_at y_train 0))
    (ValueError "X_train does not have the same number of samples as y_train") ;;
  raise_if (negb (ndim X_val =? 2))
    (ValueError "X_val should have exactly 2 dimensions") ;;
  raise_if (negb (ndim y_val =? 1))
    (ValueError "y_val should have exactly 1 dimension") ;;
  raise_if (negb (shape_at X_val 0 =? shape_at X_train 0))
    (ValueError "X_val does not have the same number of features as the X_train array") ;;
  raise_if (negb (shape_at X_val 1 =? shape_at y_val 0))
    (ValueError "X_val does not have the same number of samples as y_val") ;;
  raise_if (negb (shape_eqb (shape w_train) (shape y_train))
            || negb (shape_eqb (shape w_val) (shape y_val)))
    (ValueError "Sample weight shape must be equal to training label shape.") ;;
  let '(feature_groups_feature_count, feature_groups_feature_indexes) :=
    _convert_feature_groups_to_c feature_groups in
  let n_scores := get_count_scores_c n_classes in
  scores_train <- prepare_scores "scores_train" "y_train"
                    scores_train (shape_at y_train 0) n_scores ;;
  scores_val <- prepare_scores "scores_val" "y_val"
                  scores_val (shape_at y_val 0) n_scores ;;
  let d :=
    mk_booster_data
      (len features_bin_count) features_categorical features_bin_count
      (len feature_groups_feature_count)
      feature_groups_feature_count feature_groups_feature_indexes
      (shape_at y_train 0) X_train y_train w_train scores_train
      (shape_at y_val 0) X_val y_val w_val scores_val
      n_inner_bags optional_temp_params in
  booster_handle <-
    (if String.eqb model_type "classification" then
       '(return_code, h) <-
          unsafe (CreateClassificationBooster N random_state n_classes d)
            (fun r => CallCreateClassificationBooster random_state n_classes d (fst r)) ;;
       raise_if (negb (return_code =? 0))
         (_get_native_exception return_code "CreateClassificationBooster") ;;
       ret h
     else if String.eqb model_type "regression" then
       '(return_code, h) <-
          unsafe (CreateRegressionBooster N random_state d)
            (fun r => CallCreateRegressionBooster random_state d (fst r)) ;;
       raise_if (negb (return_code =? 0))
         (_get_native_exception return_code "CreateRegressionBooster") ;;
       ret h
     else raise (AttributeError "Unrecognized model_type")) ;;
  ret (mk_NativeEBMBooster booster_handle (-1) model_type n_classes
         features_bin_count feature_groups).

(** [NativeEBMBooster.close] *)
Definition close : M bstate unit :=
  self <- get_self ;;
  in_world (unsafe_void (FreeBooster N (_booster_handle self))
              (CallFreeBooster (_booster_handle self))).

(** [NativeEBMBooster.generate_model_update] *)
Definition generate_model_update
  (feature_group_index generate_update_options : Z) (learning_rate : double)
  (min_samples_leaf max_leaves : Z) : M bstate double :=
  assign_feature_group_index (-1) ;;
  self <- get_self ;;
  group <- lift_result (py_getitem (_feature_groups self) feature_group_index) ;;
  let n_features := List.length group in
  let max_leaves_arr := repeat max_leaves n_features in
  '(return_code, gain) <-
     in_world
       (unsafe (GenerateModelUpdate N (_booster_handle self) feature_group_index
                  generate_update_options learning_rate min_samples_leaf
                  max_leaves_arr)
          (fun r => CallGenerateModelUpdate (_booster_handle self)
                      feature_group_index generate_update_options learning_rate
                      min_samples_leaf max_leaves_arr (fst r) (snd r))) ;;
  raise_if (negb (return_code =? 0))
    (_get_native_exception return_code "GenerateModelUpdate") ;;
  assign_feature_group_index feature_group_index ;;
  ret gain.

(** [NativeEBMBooster.apply_model_update] *)
Definition apply_model_update : M bstate double :=
  assign_feature_group_index (-1) ;;
  self <- get_self ;;
  '(return_code, metric_output) <-
     in_world
       (unsafe (ApplyModelUpdate N (_booster_handle self))
          (fun r => CallApplyModelUpdate (_booster_handle self) (fst r) (snd r))) ;;
  raise_if (negb (return_code =? 0))
    (_get_native_exception return_code "ApplyModelUpdate") ;;
  ret metric_output.

(** [NativeEBMBooster._get_feature_group_shape] *)
Definition _get_feature_group_shape {S : Type}
  (self : NativeEBMBooster) (feature_group_index : Z) : M S (list Z) :=
  feature_indexes <-
    lift_result (py_getitem (_feature_groups self) feature_group_index) ;;
  dimensions <-
    map_m (fun feature_idx =>
             lift_result (py_getitem (_features_bin_count self) feature_idx))
          feature_indexes ;;
  let dimensions := rev dimensions in
  let n_scores := get_count_scores_c (_n_classes self) in
  ret (if 1 <? n_scores then dimensions ++ [n_scores] else dimensions).

(** [self._model_type == "classification" and self._n_classes <= 1] *)
Definition single_class (self : NativeEBMBooster) : bool :=
  String.eqb (_model_type self) "classification" && (_n_classes self <=? 1).

(** The transposition applied to the tensor of a two-feature group:
    [(1, 0, 2)] when [2 < n_classes], else [(1, 0)]. *)
Definition transpose_pair {S : Type} (n_classes : Z) (t : tensor)
  : M S (ndarray double) :=
  match t with
  | None => raise (ValueError "axes don't match array")
  | Some x =>
      lift_result (if 2 <? n_classes then transpose_102 x else transpose_10 x)
  end.

(** The common body of [_get_best_model_feature_group] and
    [_get_current_model_feature_group], which differ in the native entry
    point only. *)
Definition _get_model_feature_group
  (entry_point : handle -> Z -> list Z ->
                 native_state N -> (Z * list double) * native_state N)
  (entry : handle -> Z -> list Z -> Z -> native_call)
  (name : string) (feature_group_index : Z) : M bstate tensor :=
  self <- get_self ;;
  if single_class self then ret None
  else
    shp <- _get_feature_group_shape self feature_group_index ;;
    raise_if (negb (np_empty_ok shp))
      (ValueError "negative dimensions are not allowed") ;;
    '(return_code, buffer) <-
       in_world
         (unsafe (entry_point (_booster_handle self) feature_group_index shp)
            (fun r => entry (_booster_handle self) feature_group_index shp (fst r))) ;;
    raise_if (negb (return_code =? 0)) (_get_native_exception return_code name) ;;
    let model_feature_group := mk_ndarray shp buffer in
    group <- lift_result (py_getitem (_feature_groups self) feature_group_index) ;;
    if len group =? 2 then
      t <- transpose_pair (_n_classes self) (Some model_feature_group) ;;
      ret (Some t)
    else ret (Some model_feature_group).

Definition _get_best_model_feature_group : Z -> M bstate tensor :=
  _get_model_feature_group (GetBestModelFeatureGroup N)
    CallGetBestModelFeatureGroup "GetBestModelFeatureGroup".

Definition _get_current_model_feature_group : Z -> M bstate tensor :=
  _get_model_feature_group (GetCurrentModelFeatureGroup N)
    CallGetCurrentModelFeatureGroup "GetCurrentModelFeatureGroup".

(** [NativeEBMBooster.get_best_model] *)
Definition get_best_model : M bstate (list tensor) :=
  self <- get_self ;;
  map_m _get_best_model_feature_group (range (len (_feature_groups self))).

(** [NativeEBMBooster.get_current_model] *)
Definition get_current_model : M bstate (list tensor) :=
  self <- get_self ;;
  map_m _get_current_model_feature_group (range (len (_feature_groups self))).

(** [NativeEBMBooster.get_model_update_expanded] *)
Definition get_model_update_expanded : M bstate tensor :=
  self <- get_self ;;
  raise_if (_feature_group_index self <? 0)
    (RuntimeError "invalid internal self._feature_group_index") ;;
  if single_class self then ret None
  else
    shp <- _get_feature_group_shape self (_feature_group_index self) ;;
    raise_if (negb (np_empty_ok shp))
      (ValueError "negative dimensions are not allowed") ;;
    '(return_code, buffer) <-
       in_world
         (unsafe (GetModelUpdateExpanded N (_booster_handle self) shp)
            (fun r => CallGetModelUpdateExpanded (_booster_handle self) shp (fst r))) ;;
    raise_if (negb (return_code =? 0))
      (_get_native_exception return_code "GetModelUpdateExpanded") ;;
    let model_update := mk_ndarray shp buffer in
    group <- lift_result (py_getitem (_feature_groups self) (_feature_group_index self)) ;;
    if len group =? 2 then
      t <- transpose_pair (_n_classes self) (Some model_update) ;;
      ret (Some t)
    else ret (Some model_update).

(** [NativeEBMBooster.set_model_update_expanded] *)
Definition set_model_update_expanded
  (feature_group_index : Z) (model_update : tensor) : M bstate unit :=
  assign_feature_group_index (-1) ;;
  self <- get_self ;;
  if single_class self then
    match model_update with
    | None => assign_feature_group_index feature_group_index
    | Some _ =>
        raise (ValueError "a tensor with 1 class or less would be empty since the predictions would always be the same")
    end
  else
    group <- lift_result (py_getitem (_feature_groups self) feature_group_index) ;;
    model_update <-
      (if len group =? 2 then
         t <- transpose_pair (_n_classes self) model_update ;; ret (Some t)
       else ret model_update) ;;
    shp <- _get_feature_group_shape self feature_group_index ;;
    model_update <-
      match model_update with
      | None => raise (AttributeError "'NoneType' object has no attribute 'shape'")
      | Some x => ret x
      end ;;
    raise_if (negb (shape_eqb shp (shape model_update)))
      (ValueError "incorrect tensor shape in call to set_model_update_expanded") ;;
    return_code <-
      in_world
        (unsafe (SetModelUpdateExpanded N (_booster_handle self)
                   feature_group_index model_update)
           (CallSetModelUpdateExpanded (_booster_handle self)
              feature_group_index model_update)) ;;
    raise_if (negb (return_code =? 0))
      (_get_native_exception return_code "SetModelUpdateExpanded") ;;
    assign_feature_group_index feature_group_index.

(** ** class NativeEBMInteraction *)

Record NativeEBMInteraction : Type := mk_NativeEBMInteraction {
  _interaction_handle : handle
}.

Definition istate : Type := NativeEBMInteraction * world N.

(** [NativeEBMInteraction.__init__] *)
Definition NativeEBMInteraction__init__
  (model_type : string) (n_classes : Z)
  (features_categorical : list bool) (features_bin_count : list Z)
  (X : ndarray Z) (y w : ndarray double) (scores : tensor)
  (optional_temp_params : option (list double))
  : M (world N) NativeEBMInteraction :=
  (* self._interaction_handle = None *)
  raise_if (negb (ndim X =? 2))
    (ValueError "X should have exactly 2 dimensions") ;;
  raise_if (negb (ndim y =? 1))
    (ValueError "y should have exactly 1 dimension") ;;
  raise_if (negb (shape_at X 0 =? len features_categorical))
    (ValueError "X does not have the same number of items as the features_categorical array") ;;
  raise_if (negb (shape_at X 0 =? len features_bin_count))
    (ValueError "X does not have the same number of items as the features_bin_count array") ;;
  raise_if (negb (shape_at X 1 =? shape_at y 0))
    (ValueError "X does not have the same number of samples as y") ;;
  let n_scores := get_count_scores_c n_classes in
  scores <- prepare_scores "scores" "y" scores (shape_at y 0) n_scores ;;
  let d :=
    mk_interaction_data (len features_bin_count) features_categorical
      features_bin_count (shape_at y 0) X y w scores optional_temp_params in
  interaction_handle <-
    (if String.eqb model_type "classification" then
       '(return_code, h) <-
          unsafe (CreateClassificationInteractionDetector N n_classes d)
            (fun r => CallCreateClassificationInteractionDetector n_classes d (fst r)) ;;
       raise_if (negb (return_code =? 0))
         (_get_native_exception return_code "CreateClassificationInteractionDetector") ;;
       ret h
     else if String.eqb model_type "regression" then
       '(return_code, h) <-
          unsafe (CreateRegressionInteractionDetector N d)
            (fun r => CallCreateRegressionInteractionDetector d (fst r)) ;;
       raise_if (negb (return_code =? 0))
         (_get_native_exception return_code "CreateRegressionInteractionDetector") ;;
       ret h
     else raise (AttributeError "Unrecognized model_type")) ;;
  ret (mk_NativeEBMInteraction interaction_handle).

(** [NativeEBMInteraction.close] *)
Definition close_interaction : M istate unit :=
  self <- get_self ;;
  in_world (unsafe_void (FreeInteractionDetector N (_interaction_handle self))
              (CallFreeInteractionDetector (_interaction_handle self))).

(** [NativeEBMInteraction.get_interaction_score] *)
Definition get_interaction_score
  (feature_index_tuple : list Z) (min_samples_leaf : Z) : M istate double :=
  self <- get_self ;;
  '(return_code, score) <-
     in_world
       (unsafe (CalculateInteractionScore N (_interaction_handle self)
                  (len feature_index_tuple) feature_index_tuple min_samples_leaf)
          (fun r => CallCalculateInteractionScore (_interaction_handle self)
                      (len feature_index_tuple) feature_index_tuple
                      min_samples_leaf (fst r) (snd r))) ;;
  raise_if (negb (return_code =? 0))
    (_get_native_exception return_code "CalculateInteractionScore") ;;
  ret score.

(** ** class NativeHelper *)

(** [with closing(ctor) as obj: body]: nothing is closed when the
    constructor raises; otherwise [close_obj] runs on every way out of
    the body. *)
Definition with_closing {Obj A : Type}
  (ctor : M (world N) Obj) (close_obj : M (Obj * world N) unit)
  (body : M (Obj * world N) A) : M (world N) A :=
  fun w =>
    match ctor w with
    | (Raise e, w1) => (Raise e, w1)
    | (Ok obj, w1) =>
        let (r, s2) := body (obj, w1) in
        let (_, s3) := close_obj s2 in
        (r, snd s3)
    end.

(** What the end-of-round bookkeeping left behind in one round.  This
    is a history variable of the model: the code keeps the current
    values only. *)
Record round_record : Type := mk_round_record {
  rr_episode_index : Z;
  rr_min_metric : double;
  rr_bp_metric : double;
  rr_no_change_run_length : Z
}.

(** The local variables of [cyclic_gradient_boost] the loop updates,
    and the history of the rounds whose body ran to its end. *)
Record boost_vars : Type := mk_boost_vars {
  min_metric : double;
  episode_index : Z;
  no_change_run_length : Z;
  bp_metric : double;
  rounds : list round_record
}.

Section Boosting.

Variables (generate_update_options : Z) (learning_rate : double)
          (min_samples_leaf max_leaves : Z)
          (early_stopping_rounds : Z) (early_stopping_tolerance : double).

(** [for feature_group_index in range(len(feature_groups)): ...] *)
Fixpoint boost_sweep (feature_group_indexes : list Z) (min_metric : double)
  : M bstate double :=
  match feature_group_indexes with
  | [] => ret min_metric
  | feature_group_index :: rest =>
      gain <- generate_model_update feature_group_index generate_update_options
                learning_rate min_samples_leaf max_leaves ;;
      curr_metric <- apply_model_update ;;
      boost_sweep rest (py_min curr_metric min_metric)
  end.

(** The bookkeeping after the sweep of one round: the new
    [bp_metric] and [no_change_run_length]. *)
Definition early_stopping_update (min_metric : double) (v : boost_vars)
  : double * Z :=
  let bp_metric :=
    if no_change_run_length v =? 0 then min_metric else bp_metric v in
  let no_change_run_length :=
    if dlt (dadd min_metric early_stopping_tolerance) bp_metric then 0
    else no_change_run_length v + 1 in
  (bp_metric, no_change_run_length).

(** The condition of the [break]. *)
Definition early_stop (no_change_run_length : Z) : bool :=
  (early_stopping_rounds >=? 0) && (no_change_run_length >=? early_stopping_rounds).

(** [for episode_index in range(max_rounds): ...] *)
Fixpoint boost_rounds (n_feature_groups : Z) (episodes : list Z) (v : boost_vars)
  : M bstate boost_vars :=
  match episodes with
  | [] => ret v
  | episode :: rest =>
      min_metric <- boost_sweep (range n_feature_groups) (min_metric v) ;;
      let '(bp_metric, no_change_run_length) := early_stopping_update min_metric v in
      let v' :=
        mk_boost_vars min_metric episode no_change_run_length bp_metric
          (rounds v ++ [mk_round_record episode min_metric bp_metric
                          no_change_run_length]) in
      if early_stop no_change_run_length then ret v'
      else boost_rounds n_feature_groups rest v'
  end.

End Boosting.

(** [NativeHelper.cyclic_gradient_boost], returning the history of the
    rounds next to the tuple the code returns. *)
Definition cyclic_gradient_boost_history
  (model_type : string) (n_classes : Z)
  (features_categorical : list bool) (features_bin_count : list Z)
  (feature_groups : list (list Z))
  (X_train : ndarray Z) (y_train w_train : ndarray double) (scores_train : tensor)
  (X_val : ndarray Z) (y_val w_val : ndarray double) (scores_val : tensor)
  (n_inner_bags generate_update_options : Z) (learning_rate : double)
  (min_samples_leaf max_leaves early_stopping_rounds : Z)
  (early_stopping_tolerance : double) (max_rounds random_state : Z)
  (optional_temp_params : option (list double))
  : M (world N) ((list tensor * double * Z) * list round_record) :=
  (* min_metric = np.inf; episode_index = 0;
     inside the with: no_change_run_length = 0; bp_metric = np.inf *)
  with_closing
    (NativeEBMBooster__init__ model_type n_classes features_categorical
       features_bin_count feature_groups X_train y_train w_train scores_train
       X_val y_val w_val scores_val n_inner_bags random_state
       optional_temp_params)
    close
    (v <- boost_rounds generate_update_options learning_rate min_samples_leaf
            max_leaves early_stopping_rounds early_stopping_tolerance
            (len feature_groups) (range max_rounds)
            (mk_boost_vars PInf 0 0 PInf []) ;;
     model_update <-
       (if shape_at X_val 1 =? 0 then get_current_model else get_best_model) ;;
     ret ((model_update, min_metric v, episode_index v), rounds v)).

(** [NativeHelper.cyclic_gradient_boost] *)
Definition cyclic_gradient_boost
  (model_type : string) (n_classes : Z)
  (features_categorical : list bool) (features_bin_count : list Z)
  (feature_groups : list (list Z))
  (X_train : ndarray Z) (y_train w_train : ndarray double) (scores_train : tensor)
  (X_val : ndarray Z) (y_val w_val : ndarray double) (scores_val : tensor)
  (n_inner_bags generate_update_options : Z) (learning_rate : double)
  (min_samples_leaf max_leaves early_stopping_rounds : Z)
  (early_stopping_tolerance : double) (max_rounds random_state : Z)
  (optional_temp_params : option (list double))
  : M (world N) (list tensor * double * Z) :=
  r <- cyclic_gradient_boost_history model_type n_classes features_categorical
         features_bin_count feature_groups X_train y_train w_train scores_train
         X_val y_val w_val scores_val n_inner_bags generate_update_options
         learning_rate min_samples_leaf max_leaves early_stopping_rounds
         early_stopping_tolerance max_rounds random_state optional_temp_params ;;
  ret (fst r).

(** [for feature_group in iter_feature_groups: ... append((feature_group, score))] *)
Fixpoint score_candidates (iter_feature_groups : list (list Z)) (min_samples_leaf : Z)
  : M istate (list (list Z * double)) :=
  match iter_feature_groups with
  | [] => ret []
  | feature_group :: rest =>
      score <- get_interaction_score feature_group min_samples_leaf ;;
      scored <- score_candidates rest min_samples_leaf ;;
      ret ((feature_group, score) :: scored)
  end.

End WithNative.

(** Python's builtin [sorted(l, key=..., reverse=True)].  The builtin
    is a stable sort, also under [reverse=True]: elements whose keys
    compare equal keep the order they had in [l].  It is modelled by
    insertion from the right, which places an element in front of the
    first one whose key is not greater. *)
Fixpoint insert_reverse {A : Type} (key : A -> double) (x : A) (l : list A) : list A :=
  match l with
  | [] => [x]
  | y :: rest =>
      if dlt (key x) (key y) then y :: insert_reverse key x rest
      else x :: y :: rest
  end.

Fixpoint sorted_reverse {A : Type} (key : A -> double) (l : list A) : list A :=
  match l with
  | [] => []
  | x :: rest => insert_reverse key x (sorted_reverse key rest)
  end.

(** [NativeHelper.get_interactions] *)
Definition get_interactions (N : Native)
  (n_interactions : Z) (iter_feature_groups : list (list Z))
  (model_type : string) (n_classes : Z)
  (features_categorical : list bool) (features_bin_count : list Z)
  (X : ndarray Z) (y w : ndarray double) (scores : tensor)
  (min_samples_leaf : Z) (optional_temp_params : option (list double))
  : M (world N) (list (list Z) * list double) :=
  interaction_scores <-
    with_closing N
      (NativeEBMInteraction__init__ N model_type n_classes features_categorical
         features_bin_count X y w scores optional_temp_params)
      (close_interaction N)
      (score_candidates N iter_feature_groups min_samples_leaf) ;;
  let ranked_scores := sorted_reverse snd interaction_scores in
  let final_ranked_scores := ranked_scores in
  let final_indices := map fst final_ranked_scores in
  let final_scores := map snd final_ranked_scores in
  ret (final_indices, final_scores).

(** ** Locating and loading the shared library *)

(** What the loader reads from the interpreter it runs in:
    [sys.platform], [struct.calcsize("P")], the directory of the module
    ([os.path.dirname(os.path.abspath(__file__))]) and [os.path.join],
    which is that of the host's path flavour. *)
Record host : Type := mk_host {
  platform : string;
  calcsize_P : Z;
  script_path : string;
  os_path_join : string -> list string -> string
}.

(** The outcome of the loader's steps: a value, or the exception of a
    platform without a library ([Exception("Platform {0} at {1} bit not
    supported for EBM")], kept as the two values formatted into the
    message), or the failure to load the library at a path or to find
    an entry point in it. *)
Inductive load_error : Type :=
| PlatformNotSupported (platform : string) (bitsize : Z)
| LibraryNotLoaded (path : string).

Inductive loaded (A : Type) : Type :=
| Loaded (a : A)
| LoadFailed (e : load_error).
Arguments Loaded {A} a.
Arguments LoadFailed {A} e.

(** [Native._get_ebm_lib_path] *)
Definition _get_ebm_lib_path (h : host) (debug : bool) : loaded string :=
  let bitsize := calcsize_P h * 8 in
  let is_64_bit := bitsize =? 64 in
  let package_path := os_path_join h (script_path h) [".."; ".."] in
  let debug_str := if debug then "_debug" else "" in
  if String.eqb (platform h) "linux"
     || (String.eqb (platform h) "linux2" && is_64_bit) then
    Loaded (os_path_join h package_path
              ["lib"; ("lib_ebm_native_linux_x64" ++ debug_str ++ ".so")%string])
  else if String.eqb (platform h) "win32" && is_64_bit then
    Loaded (os_path_join h package_path
              ["lib"; ("lib_ebm_native_win_x64" ++ debug_str ++ ".dll")%string])
  else if String.eqb (platform h) "darwin" && is_64_bit then
    Loaded (os_path_join h package_path
              ["lib"; ("lib_ebm_native_mac_x64" ++ debug_str ++ ".dylib")%string])
  else LoadFailed (PlatformNotSupported (platform h) bitsize).

(** A [Native] object once [_initialize] has run: its [is_debug]
    attribute and the library behind [_unsafe] ([_typed_log_func] is
    [None] then). *)
Record native_object (Lib : Type) : Type := mk_native_object {
  is_debug : bool;
  _unsafe : Lib
}.
Arguments mk_native_object {Lib} is_debug _unsafe.
Arguments is_debug {Lib} n.
Arguments _unsafe {Lib} n.

(** The class attribute [Native._native], and the paths handed to
    [ct.cdll.LoadLibrary] so far, oldest first. *)
Record loader (Lib : Type) : Type := mk_loader {
  _native : option (native_object Lib);
  load_attempts : list string
}.
Arguments mk_loader {Lib} _native load_attempts.
Arguments _native {Lib} l.
Arguments load_attempts {Lib} l.

Section Loading.

Variable Lib : Type.
Variable h : host.

(** [ct.cdll.LoadLibrary(path)] followed by the declarations of the
    entry points: the library, or nothing when the file cannot be
    loaded or lacks an entry point. *)
Variable LoadLibrary : string -> option Lib.

(** [Native._initialize] on a fresh object. *)
Definition _initialize (is_debug : bool) (st : loader Lib)
  : loaded (native_object Lib) * loader Lib :=
  match _get_ebm_lib_path h is_debug with
  | LoadFailed e => (LoadFailed e, st)
  | Loaded path =>
      let st' := mk_loader (_native st) (load_attempts st ++ [path]) in
      match LoadLibrary path with
      | None => (LoadFailed (LibraryNotLoaded path), st')
      | Some lib => (Loaded (mk_native_object is_debug lib), st')
      end
  end.

(** [Native.get_native_singleton] *)
Definition get_native_singleton (is_debug : bool) (st : loader Lib)
  : loaded (native_object Lib) * loader Lib :=
  match _native st with
  | None =>
      match _initialize is_debug st with
      | (Loaded native, st') =>
          (Loaded native, mk_loader (Some native) (load_attempts st'))
      | (LoadFailed e, st') => (LoadFailed e, st')
      end
  | Some native => (Loaded native, st)
  end.

End Loading.

(** ** A scripted engine

    A small engine to run the orchestration on: creation always
    succeeds, [GenerateModelUpdate] answers with the next return code of
    a script (0 once the script is used up), [ApplyModelUpdate] with the
    next metric of a script ([inf] once it is used up), the model
    tensors are all zero, the staged update is kept as it was set, and
    the interaction score of a tuple is the sum of its indices. *)

Record script : Type := mk_script {
  generate_codes : list Z;
  apply_metrics : list double;
  staged_update : list double
}.

Definition scripted : Native :=
  mk_Native script
    (fun _ _ _ e => ((0, Some 1), e))
    (fun _ _ e => ((0, Some 1), e))
    (fun _ e => e)
    (fun _ _ _ _ _ _ e =>
       ((hd 0 (generate_codes e), Fin 0),
        mk_script (tl (generate_codes e)) (apply_metrics e) (staged_update e)))
    (fun _ e =>
       ((0, hd PInf (apply_metrics e)),
        mk_script (generate_codes e) (tl (apply_metrics e)) (staged_update e)))
    (fun _ _ shp e => ((0, repeat (Fin 0) (count_elements shp)), e))
    (fun _ _ shp e => ((0, repeat (Fin 0) (count_elements shp)), e))
    (fun _ _ e => ((0, staged_update e), e))
    (fun _ _ t e => (0, mk_script (generate_codes e) (apply_metrics e) (data t)))
    (fun _ _ e => ((0, Some 2), e))
    (fun _ e => ((0, Some 2), e))
    (fun _ e => e)
    (fun _ _ feature_indexes _ e =>
       ((0, Fin (inject_Z (fold_right Z.add 0 feature_indexes))), e)).

Definition scripted_world (codes : list Z) (metrics : list double) : world scripted :=
  @mk_world scripted (mk_script codes metrics []) [].

(** The scripted engine, except that it refuses, with return code 2, to
    score a candidate that names a feature beyond the third. *)
Definition scripted_refusing : Native :=
  mk_Native (native_state scripted)
    (CreateClassificationBooster scripted)
    (CreateRegressionBooster scripted)
    (FreeBooster scripted)
    (GenerateModelUpdate scripted)
    (ApplyModelUpdate scripted)
    (GetBestModelFeatureGroup scripted)
    (GetCurrentModelFeatureGroup scripted)
    (GetModelUpdateExpanded scripted)
    (SetModelUpdateExpanded scripted)
    (CreateClassificationInteractionDetector scripted)
    (CreateRegressionInteractionDetector scripted)
    (FreeInteractionDetector scripted)
    (fun h n feature_indexes min_samples_leaf e =>
       if existsb (fun i => 3 <=? i) feature_indexes then ((2, Fin 0), e)
       else CalculateInteractionScore scripted h n feature_indexes min_samples_leaf e).

(** A data set of [n] samples over [f] features, with all bins, targets
    zero and all weights one. *)
Definition zeros_X (f n : Z) : ndarray Z :=
  mk_ndarray [f; n] (repeat 0 (Z.to_nat (f * n))).

Definition zeros_y (n : Z) : ndarray double :=
  mk_ndarray [n] (repeat (Fin 0) (Z.to_nat n)).

Definition ones_w (n : Z) : ndarray double :=
  mk_ndarray [n] (repeat (Fin 1) (Z.to_nat n)).

Definition int_metrics (l : list Z) : list double :=
  map (fun z => Fin (inject_Z z)) l.

(** A run of [cyclic_gradient_boost] on the scripted engine: a binary
    categorical feature and a 4-bin numeric one, three training and two
    validation samples, no prior scores, tolerance zero. *)
Definition scripted_boost (model_type : string) (n_classes : Z)
  (feature_groups : list (list Z)) (metrics : list Z)
  (early_stopping_rounds max_rounds : Z)
  : result ((list tensor * double * Z) * list round_record) * world scripted :=
  cyclic_gradient_boost_history scripted model_type n_classes
    [true; false] [2; 4] feature_groups
    (zeros_X 2 3) (zeros_y 3) (ones_w 3) None
    (zeros_X 2 2) (zeros_y 2) (ones_w 2) None
    0 0 (Fin (1 # 100)) 2 3 early_stopping_rounds (Fin 0) max_rounds 42 None
    (scripted_world [] (int_metrics metrics)).

(** Hosts to run the loader on: a POSIX [os.path.join] for relative
    components, and a Linux and a Windows host whose interpreters have
    4-byte pointers. *)
Definition slash_join (a : string) (parts : list string) : string :=
  fold_left (fun acc p => (acc ++ "/" ++ p)%string) parts a.

Definition linux_32 : host :=
  mk_host "linux" 4 "/site-packages/interpret/glassbox/ebm" slash_join.

Definition win_32 : host :=
  mk_host "win32" 4 "/site-packages/interpret/glassbox/ebm" slash_join.

(** ** Notions used in the statements *)

(** The metrics that the successful [ApplyModelUpdate] calls of a log
    reported, oldest first. *)
Fixpoint metrics_applied (log : list native_call) : list double :=
  match log with
  | [] => []
  | CallApplyModelUpdate _ return_code metric_output :: rest =>
      if return_code =? 0 then metric_output :: metrics_applied rest
      else metrics_applied rest
  | _ :: rest => metrics_applied rest
  end.

(** A real numpy array: no negative dimension, and as many elements as
    its shape says. *)
Definition well_formed {A : Type} (x : ndarray A) : Prop :=
  Forall (fun d => 0 <= d) (shape x)
  /\ List.length (data x) = count_elements (shape x).

(** The shape of the tensor of a feature group as the caller sees it:
    the shape the engine uses, with its first two axes exchanged for a
    group of two features. *)
Definition caller_facing_shape (self : NativeEBMBooster) (feature_group_index : Z)
  : result (list Z) :=
  match py_getitem (_feature_groups self) feature_group_index,
        fst (_get_feature_group_shape self feature_group_index tt) with
  | Ok group, Ok shp =>
      if len group =? 2 then
        match shp with
        | a :: b :: rest => Ok (b :: a :: rest)
        | _ => Ok shp
        end
      else Ok shp
  | Raise e, _ => Raise e
  | _, Raise e => Raise e
  end.

(** The values a caller may hand to [set_model_update_expanded] for a
    feature group: nothing for a session with at most one class, else an
    array of the caller-facing shape. *)
Definition caller_facing (self : NativeEBMBooster) (feature_group_index : Z)
  (t : tensor) : Prop :=
  if single_class self then t = None
  else
    exists x, t = Some x
              /\ well_formed x
              /\ caller_facing_shape self feature_group_index = Ok (shape x).

(** The engine keeps the expanded update it was given: after a
    [SetModelUpdateExpanded] that reported success, a
    [GetModelUpdateExpanded] into a buffer of the same shape reports
    success and fills it with the same elements. *)
Definition stores_update_faithfully (N : Native) : Prop :=
  forall h feature_group_index t e,
    fst (SetModelUpdateExpanded N h feature_group_index t e) = 0 ->
    fst (GetModelUpdateExpanded N h (shape t)
           (snd (SetModelUpdateExpanded N h feature_group_index t e)))
    = (0, data t).

(** The history of a run with history, empty for a run that raised. *)
Definition history_of {A W : Type} (r : result (A * list round_record) * W)
  : list round_record :=
  match fst r with
  | Ok (_, hist) => hist
  | Raise _ => []
  end.

(** The third component of the tuple a run returned. *)
Definition returned_episode_index {M0 D H W : Type}
  (r : result ((M0 * D * Z) * H) * W) : option Z :=
  match fst r with
  | Ok ((_, _, episode_index), _) => Some episode_index
  | Raise _ => None
  end.

(** The value of [min_metric] at the end of each round, from its value
    [cur] before the first, when [per_round] holds the metrics reported
    in each round, in the order they were reported. *)
Fixpoint round_minima (cur : double) (per_round : list (list double)) : list double :=
  match per_round with
  | [] => []
  | metrics :: rest =>
      let m := fold_left (fun acc metric => py_min metric acc) metrics cur in
      m :: round_minima m rest
  end.

(** The running minimum of a sequence of metrics, from [cur]. *)
Fixpoint running_min (cur : double) (metrics : list double) : list double :=
  match metrics with
  | [] => []
  | m :: rest => py_min m cur :: running_min (py_min m cur) rest
  end.

(** The rounds, numbered from [i], at which a sequence of per-round
    minima improves on the round before by more than [tol]. *)
Fixpoint improving_rounds (tol prev : double) (i : nat) (minima : list double)
  : list nat :=
  match minima with
  | [] => []
  | m :: rest =>
      (if dlt (dadd m tol) prev then [i] else [])
      ++ improving_rounds tol m (Datatypes.S i) rest
  end.

(** The last round after which the running minimum of a sequence of
    per-round metrics no longer improves by more than [tol]. *)
Definition last_improving_round (tol : double) (metrics : list double) : option nat :=
  last (map Some (improving_rounds tol PInf 0 (running_min PInf metrics))) None.

(** The candidates scored by the successful [CalculateInteractionScore]
    calls of a log, each with the score reported for it, oldest first. *)
Fixpoint scored_calls (log : list native_call) : list (list Z * double) :=
  match log with
  | [] => []
  | CallCalculateInteractionScore _ _ feature_indexes _ return_code score :: rest =>
      if return_code =? 0 then (feature_indexes, score) :: scored_calls rest
      else scored_calls rest
  | _ :: rest => scored_calls rest
  end.

(** The fields of a session that are set once, by [__init__]. *)
Definition same_session (b b' : NativeEBMBooster) : Prop :=
  _booster_handle b' = _booster_handle b
  /\ _model_type b' = _model_type b
  /\ _n_classes b' = _n_classes b
  /\ _features_bin_count b' = _features_bin_count b
  /\ _feature_groups b' = _feature_groups b.

(** [x] is a least element of [l]. *)
Definition least (x : double) (l : list double) : Prop :=
  In x l /\ forall m, In m l -> dle x m.

(** How a history continues a run of the loop: from the bookkeeping
    state [(run_length, bp)] and the episodes still to run, by the
    end-of-round update of the code, stopping after the first round whose
    update meets the condition of the [break]. *)
Inductive continues (early_stopping_rounds : Z) (early_stopping_tolerance : double)
  : Z -> double -> list Z -> list round_record -> Prop :=
| continues_end run_length bp :
    continues early_stopping_rounds early_stopping_tolerance run_length bp [] []
| continues_break run_length bp episode episodes m :
    let bp' := if run_length =? 0 then m else bp in
    let run_length' :=
      if dlt (dadd m early_stopping_tolerance) bp' then 0 else run_length + 1 in
    early_stop early_stopping_rounds run_length' = true ->
    continues early_stopping_rounds early_stopping_tolerance run_length bp (episode :: episodes)
      [mk_round_record episode m bp' run_length']
| continues_round run_length bp episode episodes m rest :
    let bp' := if run_length =? 0 then m else bp in
    let run_length' :=
      if dlt (dadd m early_stopping_tolerance) bp' then 0 else run_length + 1 in
    early_stop early_stopping_rounds run_length' = false ->
    continues early_stopping_rounds early_stopping_tolerance run_length' bp' episodes rest ->
    continues early_stopping_rounds early_stopping_tolerance run_length bp (episode :: episodes)
      (mk_round_record episode m bp' run_length' :: rest).

(** A step that leaves the fields of the session alone and adds no
    [ApplyModelUpdate] to the log. *)
Definition quiet {N : Native} (s s' : bstate N) : Prop :=
  fst s' = fst s
  /\ exists new, calls (snd s') = calls (snd s) ++ new /\ metrics_applied new = [].

(** The data a [Create...Booster] call is given once the score tensors
    are settled. *)
Definition create_data (features_categorical : list bool)
  (features_bin_count : list Z) (feature_groups : list (list Z))
  (X_train : ndarray Z) (y_train w_train : ndarray double)
  (X_val : ndarray Z) (y_val w_val : ndarray double)
  (n_inner_bags : Z) (optional_temp_params : option (list double))
  (st sv : ndarray double) : booster_data :=
  mk_booster_data
    (len features_bin_count) features_categorical features_bin_count
    (len (fst (_convert_feature_groups_to_c feature_groups)))
    (fst (_convert_feature_groups_to_c feature_groups))
    (snd (_convert_feature_groups_to_c feature_groups))
    (shape_at y_train 0) X_train y_train w_train st
    (shape_at y_val 0) X_val y_val w_val sv
    n_inner_bags optional_temp_params.

(** The key of [x] and [s] compare equal. *)
Definition same_key {A : Type} (key : A -> double) (s : double) (x : A) : bool :=
  negb (dlt (key x) s) && negb (dlt s (key x)).

(** Descending order of a list of scores. *)
Definition descending (l : list double) : Prop :=
  forall i j x y,
    (i < j)%nat -> nth_error l i = Some x -> nth_error l j = Some y -> dle y x.

(** The candidates of a scored list whose score equals [s] as a number,
    in the order of the list. *)
Definition with_score (s : double) (l : list (list Z * double)) : list (list Z * double) :=
  filter (same_key snd s) l.

(** ** Notions used in the further properties *)

(** What a logged call was, without its data. *)
Inductive call_kind : Type :=
| KCreateBooster
| KFreeBooster
| KGenerate (feature_group_index : Z)
| KApply
| KGetBest (feature_group_index : Z)
| KGetCurrent (feature_group_index : Z)
| KGetUpdate
| KSetUpdate (feature_group_index : Z)
| KCreateInteraction
| KFreeInteraction
| KScore (feature_indexes : list Z).

Definition kind_of (c : native_call) : call_kind :=
  match c with
  | CallCreateClassificationBooster _ _ _ _ => KCreateBooster
  | CallCreateRegressionBooster _ _ _ => KCreateBooster
  | CallFreeBooster _ => KFreeBooster
  | CallGenerateModelUpdate _ g _ _ _ _ _ _ => KGenerate g
  | CallApplyModelUpdate _ _ _ => KApply
  | CallGetBestModelFeatureGroup _ g _ _ => KGetBest g
  | CallGetCurrentModelFeatureGroup _ g _ _ => KGetCurrent g
  | CallGetModelUpdateExpanded _ _ _ => KGetUpdate
  | CallSetModelUpdateExpanded _ g _ _ => KSetUpdate g
  | CallCreateClassificationInteractionDetector _ _ _ => KCreateInteraction
  | CallCreateRegressionInteractionDetector _ _ => KCreateInteraction
  | CallFreeInteractionDetector _ => KFreeInteraction
  | CallCalculateInteractionScore _ _ t _ _ _ => KScore t
  end.

(** The return code a logged call reported (the two [Free...] entry
    points return nothing: 0). *)
Definition return_code_of (c : native_call) : Z :=
  match c with
  | CallCreateClassificationBooster _ _ _ rc => rc
  | CallCreateRegressionBooster _ _ rc => rc
  | CallFreeBooster _ => 0
  | CallGenerateModelUpdate _ _ _ _ _ _ rc _ => rc
  | CallApplyModelUpdate _ rc _ => rc
  | CallGetBestModelFeatureGroup _ _ _ rc => rc
  | CallGetCurrentModelFeatureGroup _ _ _ rc => rc
  | CallGetModelUpdateExpanded _ _ rc => rc
  | CallSetModelUpdateExpanded _ _ _ rc => rc
  | CallCreateClassificationInteractionDetector _ _ rc => rc
  | CallCreateRegressionInteractionDetector _ rc => rc
  | CallFreeInteractionDetector _ => 0
  | CallCalculateInteractionScore _ _ _ _ rc _ => rc
  end.

(** The calls that work on an open training session: everything but
    creating and freeing, and the calls of the interaction detector. *)
Definition session_call (c : native_call) : Prop :=
  match kind_of c with
  | KGenerate _ | KApply | KGetBest _ | KGetCurrent _ | KGetUpdate
  | KSetUpdate _ => True
  | _ => False
  end.

Definition score_call (c : native_call) : Prop :=
  match kind_of c with
  | KScore _ => True
  | _ => False
  end.

(** From [s] to [s'] the log grew by calls that all satisfy [P]. *)
Definition adds {N : Native} {S : Type} (P : native_call -> Prop)
  (s s' : S * world N) : Prop :=
  exists new, calls (snd s') = calls (snd s) ++ new /\ Forall P new.

(** From [s] to [s'] the log grew by calls of the kinds [kinds], in this
    order, each of which reported return code 0. *)
Definition emits {N : Native} {S : Type} (kinds : list call_kind)
  (s s' : S * world N) : Prop :=
  exists new,
    calls (snd s') = calls (snd s) ++ new
    /\ map kind_of new = kinds
    /\ Forall (fun c => return_code_of c = 0) new.

(** An exception of the Python side of the wrapper, as opposed to one
    built from a native return code. *)
Definition python_side (e : exn) : Prop :=
  match e with
  | NativeException _ _ => False
  | _ => True
  end.

(** The bin counts [bins] of the features of a group, in the order of
    the group. *)
Definition bins_of (features_bin_count group bins : list Z) : Prop :=
  Forall2 (fun feature_idx n_bins =>
             py_getitem features_bin_count feature_idx = Ok n_bins)
          group bins.

(** The shape of the tensor of a feature group on the engine's side:
    the bin counts reversed, then the classes when there are more than
    two. *)
Definition engine_shape (n_classes : Z) (bins : list Z) : list Z :=
  rev bins ++ (if 2 <? n_classes then [n_classes] else []).

(** The shape on the caller's side: as on the engine's side, but for a
    group of two features the bin counts are in the order of the
    group. *)
Definition tensor_shape (n_classes : Z) (bins : list Z) : list Z :=
  (if len bins =? 2 then bins else rev bins)
  ++ (if 2 <? n_classes then [n_classes] else []).

(** The shape prior scores are given in: one score per sample, or one
    row of [n_scores] scores per sample when there are several. *)
Definition score_shape (n_samples n_scores : Z) : list Z :=
  if n_scores =? 1 then [n_samples] else [n_samples; n_scores].

(** The data of a logged [Create...Booster] call. *)
Definition created_with (c : native_call) : option booster_data :=
  match c with
  | CallCreateClassificationBooster _ _ d _ => Some d
  | CallCreateRegressionBooster _ d _ => Some d
  | _ => None
  end.

(** The handle the engine handed out on a logged create call, made in
    the engine state [e] ([None] for any other call). *)
Definition handle_created (N : Native) (c : native_call) (e : native_state N)
  : handle :=
  match c with
  | CallCreateClassificationBooster random_state n_classes d _ =>
      snd (fst (CreateClassificationBooster N random_state n_classes d e))
  | CallCreateRegressionBooster random_state d _ =>
      snd (fst (CreateRegressionBooster N random_state d e))
  | CallCreateClassificationInteractionDetector n_classes d _ =>
      snd (fst (CreateClassificationInteractionDetector N n_classes d e))
  | CallCreateRegressionInteractionDetector d _ =>
      snd (fst (CreateRegressionInteractionDetector N d e))
  | _ => None
  end.

(** The handle a logged call was made on; the create calls are made on
    none. *)
Definition handle_of (c : native_call) : option handle :=
  match c with
  | CallCreateClassificationBooster _ _ _ _ => None
  | CallCreateRegressionBooster _ _ _ => None
  | CallFreeBooster h => Some h
  | CallGenerateModelUpdate h _ _ _ _ _ _ _ => Some h
  | CallApplyModelUpdate h _ _ => Some h
  | CallGetBestModelFeatureGroup h _ _ _ => Some h
  | CallGetCurrentModelFeatureGroup h _ _ _ => Some h
  | CallGetModelUpdateExpanded h _ _ => Some h
  | CallSetModelUpdateExpanded h _ _ _ => Some h
  | CallCreateClassificationInteractionDetector _ _ _ => None
  | CallCreateRegressionInteractionDetector _ _ => None
  | CallFreeInteractionDetector h => Some h
  | CallCalculateInteractionScore h _ _ _ _ _ => Some h
  end.

(** From [s] to [s'] the session kept its handle, and the log grew by
    calls on the open session that were all made on that handle. *)
Definition works_on_session {N : Native} (s s' : bstate N) : Prop :=
  _booster_handle (fst s') = _booster_handle (fst s)
  /\ exists new,
       calls (snd s') = calls (snd s) ++ new
       /\ Forall (fun c => session_call c
                           /\ handle_of c = Some (_booster_handle (fst s))) new.

(** The calls of one sweep over the feature groups [indexes]. *)
Definition sweep_kinds (indexes : list Z) : list call_kind :=
  flat_map (fun g => [KGenerate g; KApply]) indexes.

(** * Properties *)

(** ** The monad *)

Lemma bind_inv {S A B : Type} (m : M S A) (f : A -> M S B) s r s' :
  bind m f s = (r, s') ->
  (exists e, m s = (Raise e, s') /\ r = Raise e)
  \/ (exists a s1, m s = (Ok a, s1) /\ f a s1 = (r, s')).
Proof.
  unfold bind. destruct (m s) as [[a | e] s1]; intros H.
  - right. eauto.
  - left. inversion H. eauto.
Qed.

Lemma bind_ok_inv {S A B : Type} (m : M S A) (f : A -> M S B) s b s' :
  bind m f s = (Ok b, s') ->
  exists a s1, m s = (Ok a, s1) /\ f a s1 = (Ok b, s').
Proof.
  intros H. destruct (bind_inv _ _ _ _ _ H) as [[e [_ He]] | H1]; [discriminate | exact H1].
Qed.

Lemma bind_ok_intro {S A B : Type} (m : M S A) (f : A -> M S B) s a s1 r :
  m s = (Ok a, s1) -> f a s1 = r -> bind m f s = r.
Proof. intros Hm Hf. unfold bind. rewrite Hm. exact Hf. Qed.

Lemma raise_if_inv {S : Type} (c : bool) (e : exn) (s : S) r s' :
  raise_if c e s = (r, s') ->
  s' = s /\ ((c = true /\ r = Raise e) \/ (c = false /\ r = Ok tt)).
Proof.
  unfold raise_if, raise, ret. destruct c; intros H; inversion H; auto.
Qed.

Lemma lift_result_inv {S A : Type} (x : result A) (s : S) r s' :
  lift_result x s = (r, s') -> s' = s /\ r = x.
Proof. unfold lift_result. intros H; inversion H; auto. Qed.

(** ** Tensor shapes *)

Lemma map_m_getitem {S : Type} (bin_count : list Z) (group bins : list Z) (s : S) :
  Forall2 (fun feature_idx n_bins => py_getitem bin_count feature_idx = Ok n_bins)
          group bins ->
  map_m (fun feature_idx => lift_result (py_getitem bin_count feature_idx)) group s
  = (Ok bins, s).
Proof.
  induction 1 as [| f b group bins Hfb _ IH]; cbn [map_m].
  - reflexivity.
  - unfold bind at 1. unfold lift_result at 1. rewrite Hfb.
    unfold bind. rewrite IH. reflexivity.
Qed.

Lemma get_feature_group_shape_eq {S : Type} self g group bins (s : S) :
  py_getitem (_feature_groups self) g = Ok group ->
  Forall2 (fun feature_idx n_bins =>
             py_getitem (_features_bin_count self) feature_idx = Ok n_bins)
          group bins ->
  _get_feature_group_shape self g s
  = (Ok (if 1 <? get_count_scores_c (_n_classes self)
         then rev bins ++ [get_count_scores_c (_n_classes self)]
         else rev bins), s).
Proof.
  intros Hg Hb. unfold _get_feature_group_shape, bind, lift_result at 1.
  rewrite Hg, (map_m_getitem _ _ _ _ Hb). reflexivity.
Qed.

(** C4.  For a feature group with member features [group] whose bin
    counts are [bins] (in the order of the group), the shape computed by
    [_get_feature_group_shape] is [reverse(bins)], with exactly as many
    axes as the group has features, when [n_scores = 1], and
    [reverse(bins)] followed by one more axis of size [n_classes] when
    [n_classes > 2]; and [n_scores] is [n_classes] when [n_classes > 2],
    else 1. *)
Theorem feature_group_shape_reversed_bins :
  forall (S : Type) (self : NativeEBMBooster) (g : Z) (group bins : list Z) (s : S),
    py_getitem (_feature_groups self) g = Ok group ->
    Forall2 (fun feature_idx n_bins =>
               py_getitem (_features_bin_count self) feature_idx = Ok n_bins)
            group bins ->
    let n_classes := _n_classes self in
    let n_scores := get_count_scores_c n_classes in
    n_scores = (if 2 <? n_classes then n_classes else 1)
    /\ exists shp,
         _get_feature_group_shape self g s = (Ok shp, s)
         /\ (n_scores = 1 ->
             shp = rev bins /\ List.length shp = List.length group)
         /\ (2 < n_classes ->
             shp = rev bins ++ [n_classes]
             /\ List.length shp = Datatypes.S (List.length group)).
Proof.
  intros S self g group bins s Hg Hb n_classes n_scores.
  pose proof (Forall2_length Hb) as Hlen.
  assert (Hn : n_scores = (if 2 <? n_classes then n_classes else 1)).
  { unfold n_scores, get_count_scores_c.
    destruct (Z.leb_spec n_classes 2), (Z.ltb_spec 2 n_classes); lia. }
  split; [exact Hn |].
  eexists. split; [apply (get_feature_group_shape_eq _ _ _ _ _ Hg Hb) |].
  fold n_classes. fold n_scores. split.
  - intros H1. rewrite H1. cbn. split; [reflexivity |].
    rewrite length_rev. lia.
  - intros H2. rewrite Hn.
    destruct (Z.ltb_spec 2 n_classes); [| lia].
    destruct (Z.ltb_spec 1 n_classes); [| lia].
    split; [reflexivity |].
    rewrite length_app, length_rev. cbn. lia.
Qed.

(** Witness for C4: a pair group over a 2-bin and a 4-bin feature, once
    with three classes and once for regression. *)
Lemma feature_group_shape_reversed_bins_witness :
  fst (_get_feature_group_shape
         (mk_NativeEBMBooster None (-1) "classification" 3 [2; 4] [[0]; [1]; [0; 1]])
         2 tt) = Ok [4; 2; 3]
  /\ fst (_get_feature_group_shape
            (mk_NativeEBMBooster None (-1) "regression" 0 [2; 4] [[0]; [1]; [0; 1]])
            2 tt) = Ok [4; 2].
Proof.
  split.
  - destruct (feature_group_shape_reversed_bins unit
                (mk_NativeEBMBooster None (-1) "classification" 3 [2; 4] [[0]; [1]; [0; 1]])
                2 [0; 1] [2; 4] tt) as [_ [shp [Hs [_ H3]]]].
    + reflexivity.
    + repeat constructor.
    + rewrite Hs. cbn. destruct H3 as [H3 _]; [reflexivity | rewrite H3; reflexivity].
  - destruct (feature_group_shape_reversed_bins unit
                (mk_NativeEBMBooster None (-1) "regression" 0 [2; 4] [[0]; [1]; [0; 1]])
                2 [0; 1] [2; 4] tt) as [_ [shp [Hs [H1 _]]]].
    + reflexivity.
    + repeat constructor.
    + rewrite Hs. cbn. destruct H1 as [H1 _]; [reflexivity | rewrite H1; reflexivity].
Defined.

(** ** What the methods of a session leave unchanged *)

Lemma same_session_refl b : same_session b b.
Proof. repeat split. Qed.

Lemma same_session_trans b1 b2 b3 :
  same_session b1 b2 -> same_session b2 b3 -> same_session b1 b3.
Proof.
  unfold same_session. intros (? & ? & ? & ? & ?) (? & ? & ? & ? & ?).
  repeat split; congruence.
Qed.

Lemma same_session_single_class b b' :
  same_session b b' -> single_class b' = single_class b.
Proof.
  unfold same_session, single_class. intros (_ & -> & -> & _). reflexivity.
Qed.

Ltac solve_same_session :=
  unfold same_session; cbn; repeat split; reflexivity.

Lemma metrics_applied_app l1 l2 :
  metrics_applied (l1 ++ l2) = metrics_applied l1 ++ metrics_applied l2.
Proof.
  induction l1 as [| c l1 IH]; cbn; [reflexivity |].
  destruct c; cbn; auto.
  destruct (return_code =? 0); cbn; rewrite IH; reflexivity.
Qed.

Section MethodFacts.

Variable N : Native.

Lemma generate_model_update_index g o lr msl ml (s : bstate N) :
  match generate_model_update N g o lr msl ml s with
  | (Ok _, s') => _feature_group_index (fst s') = g
  | (Raise _, s') => _feature_group_index (fst s') = -1
  end.
Proof.
  unfold generate_model_update, bind, assign_feature_group_index, get_self,
    lift_result, in_world, unsafe, raise_if, raise, ret.
  cbn. destruct (py_getitem _ g) as [group | e]; cbn; [| reflexivity].
  destruct (GenerateModelUpdate N _ _ _ _ _ _ _) as [[rc gain] e1]; cbn.
  destruct (rc =? 0); cbn; reflexivity.
Qed.

Lemma generate_model_update_forgets g o lr msl ml b i (w : world N) :
  generate_model_update N g o lr msl ml (set_feature_group_index i b, w)
  = generate_model_update N g o lr msl ml (b, w).
Proof. reflexivity. Qed.

Lemma generate_model_update_log g o lr msl ml (s : bstate N) r s' :
  generate_model_update N g o lr msl ml s = (r, s') ->
  same_session (fst s) (fst s')
  /\ exists new, calls (snd s') = calls (snd s) ++ new /\ metrics_applied new = [].
Proof.
  unfold generate_model_update, bind, assign_feature_group_index, get_self,
    lift_result, in_world, unsafe, raise_if, raise, ret.
  cbn. destruct (py_getitem _ g) as [group | e]; cbn.
  - destruct (GenerateModelUpdate N _ _ _ _ _ _ _) as [[rc gain] e1]; cbn.
    destruct (rc =? 0); cbn; intros H; inversion H; subst; cbn;
      (split; [solve_same_session | eexists; split; [reflexivity | reflexivity]]).
  - intros H; inversion H; subst; cbn.
    split; [solve_same_session | exists []; rewrite app_nil_r; auto].
Qed.

Lemma apply_model_update_log (s : bstate N) r s' :
  apply_model_update N s = (r, s') ->
  same_session (fst s) (fst s')
  /\ exists h rc m,
       calls (snd s') = calls (snd s) ++ [CallApplyModelUpdate h rc m]
       /\ ((rc = 0 /\ r = Ok m) \/ (rc <> 0 /\ exists e, r = Raise e)).
Proof.
  unfold apply_model_update, bind, assign_feature_group_index, get_self,
    in_world, unsafe, raise_if, raise, ret.
  cbn. destruct (ApplyModelUpdate N _ _) as [[rc m] e1]; cbn.
  destruct (Z.eqb_spec rc 0); cbn; intros H; inversion H; subst; cbn;
    (split; [solve_same_session |]); do 3 eexists; (split; [reflexivity |]).
  - left; auto.
  - right; eauto.
Qed.

Lemma map_m_constant {S A B : Type} (f : A -> M S B) (c : B) (s : S) l :
  (forall x, f x s = (Ok c, s)) ->
  map_m f l s = (Ok (repeat c (List.length l)), s).
Proof.
  intros Hf. induction l as [| x l IH]; cbn [map_m List.length repeat].
  - reflexivity.
  - unfold bind at 1. rewrite Hf. unfold bind. rewrite IH. reflexivity.
Qed.

Lemma length_range n : List.length (range n) = Z.to_nat n.
Proof. unfold range. rewrite length_map, length_seq. reflexivity. Qed.

Lemma get_model_feature_group_single_class entry_point entry name g (s : bstate N) :
  single_class (fst s) = true ->
  _get_model_feature_group N entry_point entry name g s = (Ok None, s).
Proof.
  intros H. unfold _get_model_feature_group, bind, get_self. rewrite H. reflexivity.
Qed.

Lemma get_best_model_single_class (s : bstate N) :
  single_class (fst s) = true ->
  get_best_model N s
  = (Ok (repeat None (List.length (_feature_groups (fst s)))), s).
Proof.
  intros H.
  change (get_best_model N s)
    with (map_m (_get_best_model_feature_group N)
            (range (len (_feature_groups (fst s)))) s).
  rewrite (map_m_constant (B := tensor) _ None).
  - rewrite length_range. unfold len. rewrite Nat2Z.id. reflexivity.
  - intros x. apply get_model_feature_group_single_class, H.
Qed.

Lemma get_current_model_single_class (s : bstate N) :
  single_class (fst s) = true ->
  get_current_model N s
  = (Ok (repeat None (List.length (_feature_groups (fst s)))), s).
Proof.
  intros H.
  change (get_current_model N s)
    with (map_m (_get_current_model_feature_group N)
            (range (len (_feature_groups (fst s)))) s).
  rewrite (map_m_constant (B := tensor) _ None).
  - rewrite length_range. unfold len. rewrite Nat2Z.id. reflexivity.
  - intros x. apply get_model_feature_group_single_class, H.
Qed.

End MethodFacts.

(** ** The sum of two floats *)

(** The sum on values Python's float addition is known on: exact on
    small integers; [1 + 3 * 2^-54] is [1 + 2^-52] and [1 + 2^-54] is 1
    (to the nearest); [1 + 2^-53] is 1 and [(1 + 2^-52) + 2^-53] is
    [1 + 2^-51] (ties to even); [0.1 + 0.2] is
    [0.30000000000000004]; the largest double plus [2^970] is [inf]
    and plus [2^969] is itself; two times the least subnormal is
    [2^-1073]. *)
Lemma dadd_rounds_to_nearest_even :
  let max_double := Fin (inject_Z (2 ^ 1024 - 2 ^ 971)) in
  deq (dadd (Fin 10) (Fin 0)) (Fin 10)
  /\ deq (dadd (Fin 5) (Fin (-7))) (Fin (-2))
  /\ deq (dadd (Fin 1) (Fin (3 # 18014398509481984)))
         (Fin (4503599627370497 # 4503599627370496))
  /\ deq (dadd (Fin 1) (Fin (1 # 18014398509481984))) (Fin 1)
  /\ deq (dadd (Fin 1) (Fin (1 # 9007199254740992))) (Fin 1)
  /\ deq (dadd (Fin (4503599627370497 # 4503599627370496))
               (Fin (1 # 9007199254740992)))
         (Fin (4503599627370498 # 4503599627370496))
  /\ deq (dadd (Fin (3602879701896397 # 36028797018963968))
               (Fin (3602879701896397 # 18014398509481984)))
         (Fin (1351079888211149 # 4503599627370496))
  /\ dadd max_double (Fin (inject_Z (2 ^ 970))) = PInf
  /\ deq (dadd max_double (Fin (inject_Z (2 ^ 969)))) max_double
  /\ deq (dadd (Fin (1 # Z.to_pos (2 ^ 1074))) (Fin (1 # Z.to_pos (2 ^ 1074))))
         (Fin (1 # Z.to_pos (2 ^ 1073))).
Proof.
  cbv zeta.
  repeat match goal with |- _ /\ _ => split end; vm_compute; reflexivity.
Qed.

(** ** The order on metrics *)

Lemma Qltb_lt x y : Qltb x y = true <-> (x < y)%Q.
Proof. unfold Qltb, Qlt. apply Z.ltb_lt. Qed.

Lemma Qltb_ge x y : Qltb x y = false <-> (y <= x)%Q.
Proof. unfold Qltb, Qle. rewrite Z.ltb_ge. reflexivity. Qed.

Lemma dle_refl a : dle a a.
Proof. destruct a; cbn; [apply Qle_refl | exact I]. Qed.

Lemma dle_trans a b c : dle a b -> dle b c -> dle a c.
Proof.
  destruct a, b, c; cbn; try tauto. apply Qle_trans.
Qed.

Lemma dlt_true_dle a b : dlt a b = true -> dle a b.
Proof.
  destruct a, b; cbn; try discriminate; auto.
  intros H. apply Qlt_le_weak, Qltb_lt, H.
Qed.

Lemma dlt_false_dle a b : dlt a b = false -> dle b a.
Proof.
  destruct a, b; cbn; try discriminate; auto.
  intros H. apply Qltb_ge, H.
Qed.

Lemma dlt_true_not_dle a b : dlt a b = true -> ~ dle b a.
Proof.
  destruct a, b; cbn; try discriminate; auto.
  intros H H'. apply Qltb_lt in H. exact (Qlt_not_le _ _ H H').
Qed.

Lemma least_single x : least x [x].
Proof.
  split; [left; reflexivity |].
  intros m [<- | []]. apply dle_refl.
Qed.

Lemma least_py_min curr x l :
  least x l -> least (py_min curr x) (l ++ [curr]).
Proof.
  intros [Hin Hle]. unfold py_min.
  destruct (dlt x curr) eqn:Hlt.
  - split; [apply in_or_app; left; exact Hin |].
    intros m Hm. apply in_app_or in Hm. destruct Hm as [Hm | [<- | []]].
    + apply Hle, Hm.
    + apply dlt_true_dle, Hlt.
  - split; [apply in_or_app; right; left; reflexivity |].
    intros m Hm. apply in_app_or in Hm. destruct Hm as [Hm | [<- | []]].
    + eapply dle_trans; [apply dlt_false_dle, Hlt | apply Hle, Hm].
    + apply dle_refl.
Qed.

(** ** The boosting loop *)

Lemma last_nonempty_default {A : Type} (x : A) l d d' :
  last (x :: l) d = last (x :: l) d'.
Proof.
  revert x. induction l as [| y l IH]; intros x; [reflexivity |].
  change (last (y :: l) d = last (y :: l) d'). apply IH.
Qed.

Section LoopFacts.

Variable N : Native.
Variables (generate_update_options : Z) (learning_rate : double)
          (min_samples_leaf max_leaves : Z)
          (early_stopping_rounds : Z) (early_stopping_tolerance : double).

Local Abbreviation sweep :=
  (boost_sweep N generate_update_options learning_rate min_samples_leaf max_leaves).
Local Abbreviation loop :=
  (boost_rounds N generate_update_options learning_rate min_samples_leaf
     max_leaves early_stopping_rounds early_stopping_tolerance).

(** One sweep over the feature groups: the session is the same, the log
    grows, and [min_metric] becomes a least element of its old value
    and the metrics reported during the sweep. *)
Lemma boost_sweep_log indexes :
  forall min_metric (s : bstate N) min_metric' s' seen,
    sweep indexes min_metric s = (Ok min_metric', s') ->
    least min_metric seen ->
    same_session (fst s) (fst s')
    /\ exists new,
         calls (snd s') = calls (snd s) ++ new
         /\ least min_metric' (seen ++ metrics_applied new).
Proof.
  induction indexes as [| g indexes IH]; intros mm s mm' s' seen Hrun Hleast.
  - cbn in Hrun. inversion Hrun; subst.
    split; [apply same_session_refl |].
    exists []. cbn. rewrite !app_nil_r. auto.
  - cbn [boost_sweep] in Hrun.
    apply bind_ok_inv in Hrun. destruct Hrun as (gain & s1 & Hgen & Hrun).
    apply bind_ok_inv in Hrun. destruct Hrun as (curr & s2 & Happ & Hrun).
    apply generate_model_update_log in Hgen.
    destruct Hgen as (Hs1 & new1 & Hlog1 & Hm1).
    apply apply_model_update_log in Happ.
    destruct Happ as (Hs2 & h & rc & m & Hlog2 & Hres).
    destruct Hres as [[Hrc Hok] | [_ [e He]]]; [| discriminate].
    inversion Hok; subst curr; clear Hok.
    destruct (IH (py_min m mm) s2 mm' s' (seen ++ [m]) Hrun
                (least_py_min m mm seen Hleast))
      as (Hs3 & new3 & Hlog3 & Hleast3).
    split.
    + eapply same_session_trans; [eapply same_session_trans |]; eassumption.
    + exists (new1 ++ [CallApplyModelUpdate h rc m] ++ new3). split.
      * rewrite Hlog3, Hlog2, Hlog1. rewrite <- !app_assoc. reflexivity.
      * rewrite !metrics_applied_app, Hm1. cbn.
        rewrite Hrc. cbn. rewrite <- app_assoc in Hleast3. exact Hleast3.
Qed.

(** The rounds of the loop: the session is the same, the log grows,
    [min_metric] stays a least element of what was seen, and the history
    grows by rounds that continue the bookkeeping; the variables the code
    keeps are those of the last round run. *)
Lemma boost_rounds_log n_groups episodes :
  forall v (s : bstate N) v' s' seen,
    loop n_groups episodes v s = (Ok v', s') ->
    least (min_metric v) seen ->
    same_session (fst s) (fst s')
    /\ (exists new,
          calls (snd s') = calls (snd s) ++ new
          /\ least (min_metric v') (seen ++ metrics_applied new))
    /\ exists added,
         rounds v' = rounds v ++ added
         /\ continues early_stopping_rounds early_stopping_tolerance
              (no_change_run_length v) (bp_metric v) episodes added
         /\ episode_index v' = last (map rr_episode_index added) (episode_index v).
Proof.
  induction episodes as [| ep episodes IH]; intros v s v' s' seen Hrun Hleast.
  - cbn in Hrun. inversion Hrun; subst.
    split; [apply same_session_refl |]. split.
    + exists []. cbn. rewrite !app_nil_r. auto.
    + exists []. rewrite app_nil_r. repeat split. constructor.
  - cbn [boost_rounds] in Hrun.
    apply bind_ok_inv in Hrun. destruct Hrun as (mm & s1 & Hsweep & Hrun).
    destruct (boost_sweep_log _ _ _ _ _ _ Hsweep Hleast)
      as (Hs1 & new1 & Hlog1 & Hleast1).
    unfold early_stopping_update in Hrun. cbv zeta in Hrun.
    destruct (early_stop early_stopping_rounds _) eqn:Hstop in Hrun.
    + inversion Hrun; subst; clear Hrun. cbn.
      split; [exact Hs1 |]. split; [eauto |].
      eexists. split; [reflexivity |]. split; [| reflexivity].
      apply continues_break. exact Hstop.
    + destruct (IH _ _ _ _ (seen ++ metrics_applied new1) Hrun Hleast1)
        as (Hs2 & (new2 & Hlog2 & Hleast2) & added & Hadd & Hcont & Hep).
      split; [eapply same_session_trans; eassumption |]. split.
      * exists (new1 ++ new2). split.
        -- rewrite Hlog2, Hlog1, app_assoc. reflexivity.
        -- rewrite metrics_applied_app, app_assoc. exact Hleast2.
      * eexists (_ :: added). split; [| split].
        -- rewrite Hadd. cbn. rewrite <- app_assoc. reflexivity.
        -- apply continues_round; [exact Hstop | exact Hcont].
        -- rewrite Hep. cbn [map rr_episode_index episode_index].
           destruct added as [| r added]; [reflexivity |].
           cbn [map]. rewrite (last_nonempty_default _ _ ep (episode_index v)).
           reflexivity.
Qed.

End LoopFacts.

(** ** Opening a session *)

(** [prepare_scores] reads no state and changes none. *)
Lemma prepare_scores_pure {S : Type} name y_name scores n_samples n_scores (s : S) :
  prepare_scores name y_name scores n_samples n_scores s
  = (fst (prepare_scores name y_name scores n_samples n_scores tt), s).
Proof.
  unfold prepare_scores, bind, lift_result, raise_if, raise, ret.
  destruct scores as [x |]; [| reflexivity].
  destruct (py_getitem (shape x) 0) as [shape0 | e]; [| reflexivity].
  repeat (match goal with
          | |- context [if ?c then _ else _] => destruct c
          end; cbn); reflexivity.
Qed.

(** For an absent score tensor, [prepare_scores] is [np.zeros] of
    [n_samples * n_scores] elements. *)
Lemma prepare_scores_absent name y_name n_samples n_scores :
  fst (prepare_scores name y_name None n_samples n_scores tt)
  = np_zeros (n_samples * n_scores).
Proof. reflexivity. Qed.

Ltac guard_step H :=
  let e := fresh "e" in
  let a := fresh "a" in
  let s1 := fresh "s" in
  let Hg := fresh "Hg" in
  apply bind_inv in H;
  destruct H as [(e & Hg & ?) | (a & s1 & Hg & H)];
  apply raise_if_inv in Hg;
  destruct Hg as [? [[? ?] | [? ?]]]; subst; try discriminate.

(** A [Create...] call followed by the check of its return code. *)
Lemma create_check_inv (N : Native)
  (f : native_state N -> (Z * handle) * native_state N)
  (entry : Z * handle -> native_call) (name : string) (w : world N) r w1 :
  (p <- unsafe N f entry ;;
   match p with
   | (return_code, h) =>
       raise_if (negb (return_code =? 0)) (_get_native_exception return_code name) ;;
       ret h
   end) w = (r, w1) ->
  exists rc h e1,
    w1 = mk_world e1 (calls w ++ [entry (rc, h)])
    /\ ((rc = 0 /\ r = Ok h) \/ (rc <> 0 /\ exists e, r = Raise e)).
Proof.
  unfold bind, unsafe, raise_if, raise, ret.
  destruct (f (engine w)) as [[rc h] e1].
  destruct (Z.eqb_spec rc 0) as [Hrc | Hrc]; cbn; intros H; inversion H;
    exists rc, h, e1; (split; [reflexivity |]).
  - left. split; [exact Hrc | reflexivity].
  - right. split; [exact Hrc | eauto].
Qed.

Section InitFacts.

Variable N : Native.
Variables (model_type : string) (n_classes : Z)
          (features_categorical : list bool) (features_bin_count : list Z)
          (feature_groups : list (list Z))
          (X_train : ndarray Z) (y_train w_train : ndarray double)
          (scores_train : tensor)
          (X_val : ndarray Z) (y_val w_val : ndarray double) (scores_val : tensor)
          (n_inner_bags random_state : Z)
          (optional_temp_params : option (list double)).

Local Abbreviation init :=
  (NativeEBMBooster__init__ N model_type n_classes features_categorical
     features_bin_count feature_groups X_train y_train w_train scores_train
     X_val y_val w_val scores_val n_inner_bags random_state optional_temp_params).

(** [__init__] either raises before any native call, or makes exactly
    one call, a [Create...Booster], on the prepared score tensors, and
    returns the session exactly when that call reports success. *)
Local Abbreviation data_of st sv :=
  (create_data features_categorical features_bin_count feature_groups
     X_train y_train w_train X_val y_val w_val n_inner_bags
     optional_temp_params st sv).

Lemma init_inv (w : world N) r w1 :
  init w = (r, w1) ->
  (w1 = w /\ exists e, r = Raise e)
  \/ exists st sv rc h e1 c,
       fst (prepare_scores "scores_train" "y_train" scores_train
              (shape_at y_train 0) (get_count_scores_c n_classes) tt) = Ok st
       /\ fst (prepare_scores "scores_val" "y_val" scores_val
                 (shape_at y_val 0) (get_count_scores_c n_classes) tt) = Ok sv
       /\ (c = CallCreateClassificationBooster random_state n_classes
                 (data_of st sv) rc
           \/ c = CallCreateRegressionBooster random_state (data_of st sv) rc)
       /\ w1 = mk_world e1 (calls w ++ [c])
       /\ ((rc = 0
            /\ r = Ok (mk_NativeEBMBooster h (-1) model_type n_classes
                         features_bin_count feature_groups))
           \/ (rc <> 0 /\ exists e, r = Raise e)).
Proof.
  intros H. unfold NativeEBMBooster__init__ in H.
  do 10 (guard_step H; [left; eauto |]).
  cbn [_convert_feature_groups_to_c] in H. cbv zeta in H.
  apply bind_inv in H. destruct H as [(e & Hp & ->) | (st & sa & Hp & H)];
    rewrite prepare_scores_pure in Hp; inversion Hp; subst; [left; eauto |].
  apply bind_inv in H. destruct H as [(e & Hq & ->) | (sv & sb & Hq & H)];
    rewrite prepare_scores_pure in Hq; inversion Hq; subst; [left; eauto |].
  match goal with Hst : _ = Ok st |- _ => rename Hst into Hst' end.
  match goal with Hsv : _ = Ok sv |- _ => rename Hsv into Hsv' end.
  apply bind_inv in H.
  assert (Hcases :
    forall c0 rc h e1 (r0 : result handle),
      (c0 = CallCreateClassificationBooster random_state n_classes
              (data_of st sv) rc
       \/ c0 = CallCreateRegressionBooster random_state (data_of st sv) rc) ->
      (rc = 0 /\ r0 = Ok h) \/ (rc <> 0 /\ exists e, r0 = Raise e) ->
      ((exists e, r0 = Raise e /\ r = Raise e /\ w1 = mk_world e1 (calls sb ++ [c0]))
       \/ (exists h', r0 = Ok h'
                      /\ r = Ok (mk_NativeEBMBooster h' (-1) model_type n_classes
                                   features_bin_count feature_groups)
                      /\ w1 = mk_world e1 (calls sb ++ [c0]))) ->
      exists st sv rc h e1 c,
        fst (prepare_scores "scores_train" "y_train" scores_train
               (shape_at y_train 0) (get_count_scores_c n_classes) tt) = Ok st
        /\ fst (prepare_scores "scores_val" "y_val" scores_val
                  (shape_at y_val 0) (get_count_scores_c n_classes) tt) = Ok sv
        /\ (c = CallCreateClassificationBooster random_state n_classes
                  (data_of st sv) rc
            \/ c = CallCreateRegressionBooster random_state (data_of st sv) rc)
        /\ w1 = mk_world e1 (calls sb ++ [c])
        /\ ((rc = 0
             /\ r = Ok (mk_NativeEBMBooster h (-1) model_type n_classes
                          features_bin_count feature_groups))
            \/ (rc <> 0 /\ exists e, r = Raise e))).
  { intros c0 rc h e1 r0 Hc0 Hrc Hout.
    exists st, sv, rc, h, e1, c0.
    repeat split; [exact Hst' | exact Hsv' | exact Hc0 | |].
    - destruct Hout as [(e & _ & _ & ->) | (h' & _ & _ & ->)]; reflexivity.
    - destruct Hrc as [[Hz ->] | [Hz [e ->]]];
        destruct Hout as [(e' & He & -> & _) | (h' & He & -> & _)];
        try discriminate.
      + left. inversion He; subst. auto.
      + right. eauto. }
  destruct (String.eqb model_type "classification").
  - right.
    destruct H as [(e & Hc & ->) | (h & sc & Hc & H)];
      apply create_check_inv in Hc; destruct Hc as (rc & h0 & e1 & -> & Hrc).
    + eapply (Hcases _ rc h0 e1 (Raise e)); [left; reflexivity | exact Hrc |].
      left. eauto.
    + inversion H; subst.
      eapply (Hcases _ rc h0 e1 (Ok h)); [left; reflexivity | exact Hrc |].
      right. eauto.
  - destruct (String.eqb model_type "regression").
    + right.
      destruct H as [(e & Hc & ->) | (h & sc & Hc & H)];
        apply create_check_inv in Hc; destruct Hc as (rc & h0 & e1 & -> & Hrc).
      * eapply (Hcases _ rc h0 e1 (Raise e)); [right; reflexivity | exact Hrc |].
        left. eauto.
      * inversion H; subst.
        eapply (Hcases _ rc h0 e1 (Ok h)); [right; reflexivity | exact Hrc |].
        right. eauto.
    + destruct H as [(e & Hc & ->) | (h & sc & Hc & H)]; inversion Hc; subst.
      left. eauto.
Qed.

End InitFacts.

(** ** Reading the model back *)

Lemma map_m_lift_pure {S A B : Type} (f : A -> result B) l (s : S) :
  map_m (fun x => lift_result (f x)) l s
  = (fst (map_m (fun x => lift_result (S := unit) (f x)) l tt), s).
Proof.
  induction l as [| x l IH]; cbn [map_m]; [reflexivity |].
  unfold bind at 1 3. unfold lift_result at 1 3.
  destruct (f x) as [y | e]; [| reflexivity].
  unfold bind. rewrite IH.
  destruct (map_m _ l tt) as [[ys | e] []]; reflexivity.
Qed.

Lemma get_feature_group_shape_pure {S : Type} self g (s : S) :
  _get_feature_group_shape self g s
  = (fst (_get_feature_group_shape self g tt), s).
Proof.
  unfold _get_feature_group_shape, bind. unfold lift_result at 1 3.
  destruct (py_getitem (_feature_groups self) g) as [group | e]; [| reflexivity].
  rewrite map_m_lift_pure.
  destruct (map_m _ group tt) as [[ys | e] []]; reflexivity.
Qed.

Section ReadFacts.

Variable N : Native.

Lemma quiet_refl (s : bstate N) : quiet s s.
Proof. split; [reflexivity |]. exists []. rewrite app_nil_r. auto. Qed.

Lemma quiet_trans (s1 s2 s3 : bstate N) :
  quiet s1 s2 -> quiet s2 s3 -> quiet s1 s3.
Proof.
  intros [Hf1 (n1 & Hl1 & Hm1)] [Hf2 (n2 & Hl2 & Hm2)].
  split; [congruence |].
  exists (n1 ++ n2). split.
  - rewrite Hl2, Hl1, app_assoc. reflexivity.
  - rewrite metrics_applied_app, Hm1, Hm2. reflexivity.
Qed.

Lemma map_m_quiet {A B : Type} (f : A -> M (bstate N) B) l :
  (forall x s r s', f x s = (r, s') -> quiet s s') ->
  forall s r s', map_m f l s = (r, s') -> quiet s s'.
Proof.
  intros Hf. induction l as [| x l IH]; intros s r s' H; cbn [map_m] in H.
  - inversion H; subst. apply quiet_refl.
  - apply bind_inv in H. destruct H as [(e & Hx & _) | (y & s1 & Hx & H)].
    + eapply Hf, Hx.
    + apply bind_inv in H. destruct H as [(e & Hl & _) | (ys & s2 & Hl & H)].
      * eapply quiet_trans; [eapply Hf, Hx | eapply IH, Hl].
      * inversion H; subst.
        eapply quiet_trans; [eapply Hf, Hx | eapply IH, Hl].
Qed.

Lemma get_model_feature_group_quiet entry_point entry name g (s : bstate N) r s' :
  (forall h i shp rc, metrics_applied [entry h i shp rc] = []) ->
  _get_model_feature_group N entry_point entry name g s = (r, s') ->
  quiet s s'.
Proof.
  intros Hentry. unfold _get_model_feature_group, bind at 1, get_self.
  destruct (single_class (fst s)).
  - intros H; inversion H; subst. apply quiet_refl.
  - unfold bind at 1. rewrite get_feature_group_shape_pure.
    destruct (fst (_get_feature_group_shape (fst s) g tt)) as [shp | e];
      [| intros H; inversion H; subst; apply quiet_refl].
    unfold bind at 1, raise_if, raise, ret.
    destruct (negb (np_empty_ok shp));
      [intros H; inversion H; subst; apply quiet_refl |].
    unfold bind at 1, in_world, unsafe. cbn [snd fst].
    destruct (entry_point _ g shp (engine (snd s))) as [[rc buffer] e1].
    assert (Hq : quiet s (fst s, mk_world e1
                   (calls (snd s) ++ [entry (_booster_handle (fst s)) g shp rc]))).
    { split; [reflexivity |]. eexists. split; [reflexivity | apply Hentry]. }
    unfold bind at 1. cbn [fst snd].
    destruct (negb (rc =? 0)); [intros H; inversion H; subst; exact Hq |].
    unfold bind at 1, lift_result.
    destruct (py_getitem (_feature_groups (fst s)) g) as [group | e];
      [| intros H; inversion H; subst; exact Hq].
    destruct (len group =? 2).
    + unfold bind, transpose_pair, lift_result, ret.
      destruct (if 2 <? _n_classes (fst s) then _ else _);
        intros H; inversion H; subst; exact Hq.
    + intros H; inversion H; subst; exact Hq.
Qed.

Lemma get_best_model_quiet (s : bstate N) r s' :
  get_best_model N s = (r, s') -> quiet s s'.
Proof.
  apply (map_m_quiet (_get_best_model_feature_group N)).
  intros x s0 r0 s0'. apply get_model_feature_group_quiet. reflexivity.
Qed.

Lemma get_current_model_quiet (s : bstate N) r s' :
  get_current_model N s = (r, s') -> quiet s s'.
Proof.
  apply (map_m_quiet (_get_current_model_feature_group N)).
  intros x s0 r0 s0'. apply get_model_feature_group_quiet. reflexivity.
Qed.

Lemma close_quiet (s : bstate N) r s' : close N s = (r, s') -> quiet s s'.
Proof.
  unfold close, bind, get_self, in_world, unsafe_void. cbn.
  intros H; inversion H; subst. split; [reflexivity |].
  eexists. split; reflexivity.
Qed.

End ReadFacts.

(** ** The early-stopping bookkeeping *)

Lemma early_stop_true R run_length :
  early_stop R run_length = true <-> 0 <= R /\ R <= run_length.
Proof.
  unfold early_stop. rewrite andb_true_iff, !Z.geb_le. reflexivity.
Qed.

Lemma early_stop_false R run_length :
  early_stop R run_length = false <-> R < 0 \/ run_length < R.
Proof.
  destruct (early_stop R run_length) eqn:H.
  - apply early_stop_true in H. split; [discriminate | lia].
  - split; [| reflexivity]. intros _.
    destruct (Z.lt_ge_cases R 0) as [? | H0]; [auto |].
    destruct (Z.lt_ge_cases run_length R) as [? | H1]; [auto |].
    assert (Ht : early_stop R run_length = true) by (apply early_stop_true; lia).
    congruence.
Qed.

Section ContinuesFacts.

Variables (R : Z) (tol : double).

Lemma continues_episodes run_length bp episodes hist :
  continues R tol run_length bp episodes hist ->
  map rr_episode_index hist = firstn (List.length hist) episodes.
Proof.
  induction 1 as [| | rl bp ep eps m rest bp' rl' Hstop Hrest IH]; cbn.
  - reflexivity.
  - reflexivity.
  - rewrite IH. reflexivity.
Qed.

Lemma continues_length run_length bp episodes hist :
  continues R tol run_length bp episodes hist ->
  (List.length hist <= List.length episodes)%nat.
Proof.
  induction 1; cbn; lia.
Qed.

(** With a negative [early_stopping_rounds] every episode is run. *)
Lemma continues_all run_length bp episodes hist :
  R < 0 ->
  continues R tol run_length bp episodes hist ->
  List.length hist = List.length episodes.
Proof.
  intros HR. induction 1 as [| rl bp ep eps m bp' rl' Hstop |]; cbn.
  - reflexivity.
  - apply early_stop_true in Hstop. lia.
  - lia.
Qed.

(** What follows a round of the history: nothing when the round met the
    condition of the [break], else a continuation from its bookkeeping. *)
Lemma continues_suffix run_length bp episodes hist :
  continues R tol run_length bp episodes hist ->
  forall i rec,
    nth_error hist i = Some rec ->
    (early_stop R (rr_no_change_run_length rec) = true
     /\ List.length hist = Datatypes.S i)
    \/ (early_stop R (rr_no_change_run_length rec) = false
        /\ continues R tol (rr_no_change_run_length rec) (rr_bp_metric rec)
             (skipn (Datatypes.S i) episodes) (skipn (Datatypes.S i) hist)).
Proof.
  induction 1 as [| rl bp ep eps m bp' rl' Hstop
                  | rl bp ep eps m rest bp' rl' Hstop Hrest IH];
    intros i rec Hi.
  - destruct i; discriminate.
  - destruct i as [| i]; [| destruct i; discriminate].
    inversion Hi; subst. left. auto.
  - destruct i as [| i].
    + inversion Hi; subst. right. split; [exact Hstop | exact Hrest].
    + cbn in Hi. destruct (IH i rec Hi) as [[Ht Hl] | [Hf Hc]].
      * left. split; [exact Ht | cbn; lia].
      * right. split; [exact Hf | exact Hc].
Qed.

(** The loop stops at the first round whose bookkeeping meets the
    condition of the [break]. *)
Lemma continues_stops_first run_length bp episodes hist :
  continues R tol run_length bp episodes hist ->
  (forall k rec,
     nth_error hist k = Some rec -> (Datatypes.S k < List.length hist)%nat ->
     early_stop R (rr_no_change_run_length rec) = false)
  /\ ((List.length hist < List.length episodes)%nat ->
      exists rec,
        nth_error hist (List.length hist - 1) = Some rec
        /\ early_stop R (rr_no_change_run_length rec) = true).
Proof.
  induction 1 as [| rl bp ep eps m bp' rl' Hstop
                  | rl bp ep eps m rest bp' rl' Hstop Hrest [IH1 IH2]].
  - split; [intros [| k] rec Hk; discriminate | cbn; lia].
  - split.
    + intros k rec Hk Hlt. cbn in Hlt. lia.
    + intros _. eexists. split; [reflexivity | exact Hstop].
  - split.
    + intros [| k] rec Hk Hlt.
      * inversion Hk; subst. exact Hstop.
      * cbn in Hk, Hlt. apply (IH1 k rec Hk). lia.
    + intros Hlt. cbn in Hlt.
      destruct IH2 as (rec & Hrec & Ht); [lia |].
      exists rec. split; [| exact Ht].
      destruct rest as [| r0 rest]; [discriminate |].
      cbn [List.length] in Hrec |- *.
      replace (Datatypes.S (Datatypes.S (List.length rest)) - 1)%nat
        with (Datatypes.S (Datatypes.S (List.length rest) - 1))%nat by lia.
      exact Hrec.
Qed.

(** Without a reset the run length grows by one per round. *)
Lemma continues_no_reset_length run_length bp episodes hist :
  continues R tol run_length bp episodes hist ->
  0 <= run_length -> 0 <= R ->
  (forall rec, In rec hist -> rr_no_change_run_length rec <> 0) ->
  Z.of_nat (List.length hist)
  = Z.min (Z.max 1 (R - run_length)) (Z.of_nat (List.length episodes)).
Proof.
  induction 1 as [| rl bp ep eps m bp' rl' Hstop
                  | rl bp ep eps m rest bp' rl' Hstop Hrest IH];
    intros Hrl HR Hno.
  - cbn. lia.
  - assert (Hrl' : rl' = rl + 1).
    { specialize (Hno _ (or_introl eq_refl)). cbn in Hno. subst rl'.
      destruct (dlt _ _); [contradiction | reflexivity]. }
    apply early_stop_true in Hstop. cbn [List.length]. lia.
  - assert (Hrl' : rl' = rl + 1).
    { specialize (Hno _ (or_introl eq_refl)). cbn in Hno. subst rl'.
      destruct (dlt _ _); [contradiction | reflexivity]. }
    apply early_stop_false in Hstop.
    assert (IH' := IH ltac:(lia) HR (fun rec Hin => Hno rec (or_intror Hin))).
    cbn [List.length]. lia.
Qed.

(** After the last reset, at round [i], the loop runs [R] more rounds
    unless the episodes run out. *)
Lemma continues_after_last_reset run_length bp episodes hist i rec :
  continues R tol run_length bp episodes hist ->
  1 <= R ->
  nth_error hist i = Some rec ->
  rr_no_change_run_length rec = 0 ->
  (forall j rec', (i < j)%nat -> nth_error hist j = Some rec' ->
                  rr_no_change_run_length rec' <> 0) ->
  Z.of_nat (List.length hist)
  = Z.min (Z.of_nat i + R + 1) (Z.of_nat (List.length episodes)).
Proof.
  intros Hc HR Hi Hzero Hlast.
  pose proof (continues_length _ _ _ _ Hc) as Hlen.
  assert (Hilt : (i < List.length hist)%nat)
    by (apply nth_error_Some; congruence).
  destruct (continues_suffix _ _ _ _ Hc i rec Hi) as [[Ht _] | [_ Hs]].
  - rewrite Hzero in Ht. apply early_stop_true in Ht. lia.
  - rewrite Hzero in Hs.
    apply continues_no_reset_length in Hs; [| lia | lia |].
    + rewrite !length_skipn in Hs. lia.
    + intros rec' Hin. apply In_nth_error in Hin. destruct Hin as [k Hk].
      rewrite nth_error_skipn in Hk.
      apply (Hlast (Datatypes.S i + k)%nat rec'); [lia | exact Hk].
Qed.

End ContinuesFacts.

Lemma firstn_seq_le k a n : (k <= n)%nat -> firstn k (seq a n) = seq a k.
Proof.
  revert a n. induction k as [| k IH]; intros a n Hk; [reflexivity |].
  destruct n as [| n]; [lia |].
  cbn. rewrite IH by lia. reflexivity.
Qed.

Lemma firstn_range k n :
  (k <= Z.to_nat n)%nat -> firstn k (range n) = range (Z.of_nat k).
Proof.
  intros Hk. unfold range. rewrite firstn_map, firstn_seq_le, Nat2Z.id by exact Hk.
  reflexivity.
Qed.

Lemma last_range k d : last (range (Z.of_nat (Datatypes.S k))) d = Z.of_nat k.
Proof.
  unfold range. rewrite Nat2Z.id, seq_S, map_app. cbn. apply last_last.
Qed.

(** ** Runs of the orchestrator *)

Section RunFacts.

Variable N : Native.
Variables (model_type : string) (n_classes : Z)
          (features_categorical : list bool) (features_bin_count : list Z)
          (feature_groups : list (list Z))
          (X_train : ndarray Z) (y_train w_train : ndarray double)
          (scores_train : tensor)
          (X_val : ndarray Z) (y_val w_val : ndarray double) (scores_val : tensor)
          (n_inner_bags generate_update_options : Z) (learning_rate : double)
          (min_samples_leaf max_leaves early_stopping_rounds : Z)
          (early_stopping_tolerance : double) (max_rounds random_state : Z)
          (optional_temp_params : option (list double)).

Local Abbreviation run_history :=
  (cyclic_gradient_boost_history N model_type n_classes features_categorical
     features_bin_count feature_groups X_train y_train w_train scores_train
     X_val y_val w_val scores_val n_inner_bags generate_update_options
     learning_rate min_samples_leaf max_leaves early_stopping_rounds
     early_stopping_tolerance max_rounds random_state optional_temp_params).

Local Abbreviation run :=
  (cyclic_gradient_boost N model_type n_classes features_categorical
     features_bin_count feature_groups X_train y_train w_train scores_train
     X_val y_val w_val scores_val n_inner_bags generate_update_options
     learning_rate min_samples_leaf max_leaves early_stopping_rounds
     early_stopping_tolerance max_rounds random_state optional_temp_params).

(** The tuple [cyclic_gradient_boost] returns is the one of the run with
    its history. *)
Lemma run_of_history (w : world N) t w' :
  run w = (Ok t, w') -> exists hist, run_history w = (Ok (t, hist), w').
Proof.
  unfold cyclic_gradient_boost. intros H.
  apply bind_ok_inv in H. destruct H as ([t0 hist] & s1 & H & Hret).
  inversion Hret; subst. exists hist. exact H.
Qed.

(** A run that returns: what its parts did. *)
Lemma run_history_summary (w : world N) model mm ep hist w' :
  run_history w = (Ok ((model, mm, ep), hist), w') ->
  (exists new,
     calls w' = calls w ++ new /\ least mm (PInf :: metrics_applied new))
  /\ continues early_stopping_rounds early_stopping_tolerance 0 PInf
       (range max_rounds) hist
  /\ ep = last (map rr_episode_index hist) 0
  /\ (String.eqb model_type "classification" && (n_classes <=? 1) = true ->
      model = repeat None (List.length feature_groups)).
Proof.
  unfold cyclic_gradient_boost_history, with_closing. intros H.
  destruct (NativeEBMBooster__init__ _ _ _ _ _ _ _ _ _ _ _ _ _ _ _ _ _ w)
    as [[b | e] w1] eqn:Hinit; [| discriminate].
  apply init_inv in Hinit.
  destruct Hinit as [[_ [e He]] | Hinit]; [discriminate |].
  destruct Hinit as (st & sv & rc & h & e1 & c & _ & _ & Hc & Hw1 & Hres).
  destruct Hres as [[_ Hb] | [_ [e He]]]; [| discriminate].
  inversion Hb; subst b; clear Hb.
  match type of H with
  | (let (r, s2) := ?body ?s in _) = _ => destruct (body s) as [r s2] eqn:Hbody
  end.
  destruct (close N s2) as [u s3] eqn:Hclose.
  inversion H; subst r w'; clear H.
  apply bind_ok_inv in Hbody. destruct Hbody as (v & sl & Hloop & Hbody).
  apply bind_ok_inv in Hbody. destruct Hbody as (model' & sg & Hget & Hret).
  inversion Hret; subst; clear Hret.
  destruct (boost_rounds_log _ _ _ _ _ _ _ _ _ _ _ _ _ [PInf] Hloop
              (least_single PInf))
    as (Hsame & (new1 & Hlog1 & Hleast) & added & Hadd & Hcont & Hep).
  cbn [rounds no_change_run_length bp_metric episode_index app] in Hadd, Hcont, Hep.
  assert (Hq : quiet sl s3).
  { eapply quiet_trans; [| eapply close_quiet, Hclose].
    destruct (shape_at X_val 1 =? 0);
      [eapply get_current_model_quiet | eapply get_best_model_quiet]; exact Hget. }
  destruct Hq as [Hfst (new2 & Hlog2 & Hm2)].
  split; [| split; [| split]].
  - exists ([c] ++ new1 ++ new2). split.
    + rewrite Hlog2, Hlog1. cbn [snd calls]. rewrite <- !app_assoc. reflexivity.
    + rewrite !metrics_applied_app, Hm2, app_nil_r.
      replace (metrics_applied [c]) with (@nil double)
        by (destruct Hc as [-> | ->]; reflexivity).
      exact Hleast.
  - rewrite Hadd. exact Hcont.
  - rewrite Hadd. exact Hep.
  - intros Hsingle.
    assert (Hsc : single_class (fst sl) = true).
    { rewrite (same_session_single_class _ _ Hsame). exact Hsingle. }
    destruct Hsame as (_ & _ & _ & _ & Hgroups). cbn in Hgroups.
    destruct (shape_at X_val 1 =? 0).
    + rewrite get_current_model_single_class in Hget by exact Hsc.
      injection Hget as Hm _. rewrite Hgroups in Hm. symmetry. exact Hm.
    + rewrite get_best_model_single_class in Hget by exact Hsc.
      injection Hget as Hm _. rewrite Hgroups in Hm. symmetry. exact Hm.
Qed.

End RunFacts.

(** ** The metrics behind the history *)

Section LoopMetrics.

Variable N : Native.
Variables (generate_update_options : Z) (learning_rate : double)
          (min_samples_leaf max_leaves : Z)
          (early_stopping_rounds : Z) (early_stopping_tolerance : double).

(** One sweep reports one metric per feature group, and folds them into
    [min_metric] in the order they are reported. *)
Lemma boost_sweep_metrics indexes :
  forall mm (s : bstate N) mm' s',
    boost_sweep N generate_update_options learning_rate min_samples_leaf
      max_leaves indexes mm s = (Ok mm', s') ->
    exists new,
      calls (snd s') = calls (snd s) ++ new
      /\ List.length (metrics_applied new) = List.length indexes
      /\ mm' = fold_left (fun acc metric => py_min metric acc)
                 (metrics_applied new) mm.
Proof.
  induction indexes as [| g indexes IH]; intros mm s mm' s' Hrun.
  - cbn in Hrun. inversion Hrun; subst.
    exists []. rewrite app_nil_r. auto.
  - cbn [boost_sweep] in Hrun.
    apply bind_ok_inv in Hrun. destruct Hrun as (gain & s1 & Hgen & Hrun).
    apply bind_ok_inv in Hrun. destruct Hrun as (curr & s2 & Happ & Hrun).
    apply generate_model_update_log in Hgen.
    destruct Hgen as (_ & new1 & Hlog1 & Hm1).
    apply apply_model_update_log in Happ.
    destruct Happ as (_ & h & rc & m & Hlog2 & Hres).
    destruct Hres as [[Hrc Hok] | [_ [e He]]]; [| discriminate].
    inversion Hok; subst curr; clear Hok.
    destruct (IH _ _ _ _ Hrun) as (new3 & Hlog3 & Hlen3 & Hmm).
    exists (new1 ++ [CallApplyModelUpdate h rc m] ++ new3).
    assert (Hma : metrics_applied (new1 ++ [CallApplyModelUpdate h rc m] ++ new3)
                  = m :: metrics_applied new3).
    { rewrite !metrics_applied_app, Hm1. cbn. rewrite Hrc. reflexivity. }
    rewrite Hma. split; [| split].
    + rewrite Hlog3, Hlog2, Hlog1. rewrite <- !app_assoc. reflexivity.
    + cbn [List.length]. rewrite Hlen3. reflexivity.
    + exact Hmm.
Qed.

(** The rounds of the loop: the metrics of the log fall into one group
    per round run, each of one metric per feature group, and the
    [min_metric] a round recorded is the minimum of the value before the
    loop and all metrics up to the end of that round. *)
Lemma boost_rounds_metrics n_groups episodes :
  forall v (s : bstate N) v' s',
    boost_rounds N generate_update_options learning_rate min_samples_leaf
      max_leaves early_stopping_rounds early_stopping_tolerance
      n_groups episodes v s = (Ok v', s') ->
    exists new per_round added,
      calls (snd s') = calls (snd s) ++ new
      /\ metrics_applied new = concat per_round
      /\ Forall (fun metrics => List.length metrics = Z.to_nat n_groups) per_round
      /\ rounds v' = rounds v ++ added
      /\ map rr_min_metric added = round_minima (min_metric v) per_round
      /\ min_metric v' = last (map rr_min_metric added) (min_metric v).
Proof.
  induction episodes as [| ep episodes IH]; intros v s v' s' Hrun.
  - cbn in Hrun. inversion Hrun; subst.
    exists [], [], []. rewrite !app_nil_r. repeat split. constructor.
  - cbn [boost_rounds] in Hrun.
    apply bind_ok_inv in Hrun. destruct Hrun as (mm & s1 & Hsweep & Hrun).
    destruct (boost_sweep_metrics _ _ _ _ _ Hsweep) as (new1 & Hlog1 & Hlen1 & Hmm).
    rewrite length_range in Hlen1.
    unfold early_stopping_update in Hrun. cbv zeta in Hrun.
    destruct (early_stop early_stopping_rounds _) in Hrun.
    + inversion Hrun; subst v' s'; clear Hrun. cbn [rounds min_metric].
      exists new1, [metrics_applied new1]. eexists.
      split; [exact Hlog1 |]. split; [cbn; rewrite app_nil_r; reflexivity |].
      split; [repeat constructor; exact Hlen1 |].
      split; [reflexivity |].
      cbn [map rr_min_metric round_minima last]. rewrite <- Hmm. auto.
    + destruct (IH _ _ _ _ Hrun)
        as (new2 & per_round & added & Hlog2 & Hm2 & Hall & Hadd & Hmin & Hlast).
      cbn [rounds min_metric] in Hadd, Hmin, Hlast.
      exists (new1 ++ new2), (metrics_applied new1 :: per_round). eexists.
      split; [rewrite Hlog2, Hlog1, app_assoc; reflexivity |].
      split; [rewrite metrics_applied_app, Hm2; reflexivity |].
      split; [constructor; [exact Hlen1 | exact Hall] |].
      split; [rewrite Hadd, <- app_assoc; reflexivity |].
      cbn [map rr_min_metric round_minima app]. rewrite <- Hmm, Hmin.
      split; [reflexivity |].
      rewrite Hlast, Hmin.
      destruct (round_minima mm per_round) as [| m0 ms]; [reflexivity |].
      change (last (mm :: m0 :: ms) (min_metric v))
        with (last (m0 :: ms) (min_metric v)).
      apply last_nonempty_default.
Qed.

End LoopMetrics.

Section RunMetrics.

Variable N : Native.
Variables (model_type : string) (n_classes : Z)
          (features_categorical : list bool) (features_bin_count : list Z)
          (feature_groups : list (list Z))
          (X_train : ndarray Z) (y_train w_train : ndarray double)
          (scores_train : tensor)
          (X_val : ndarray Z) (y_val w_val : ndarray double) (scores_val : tensor)
          (n_inner_bags generate_update_options : Z) (learning_rate : double)
          (min_samples_leaf max_leaves early_stopping_rounds : Z)
          (early_stopping_tolerance : double) (max_rounds random_state : Z)
          (optional_temp_params : option (list double)).

(** A run that returns: the metrics its [ApplyModelUpdate] calls
    reported fall into one group per round run, of one metric per
    feature group, and the [min_metric] of a round of the history is the
    minimum of [inf] and the metrics up to the end of that round; the
    [min_metric] returned is that of the last round. *)
Lemma run_history_metrics (w : world N) model mm ep hist w' :
  cyclic_gradient_boost_history N model_type n_classes features_categorical
    features_bin_count feature_groups X_train y_train w_train scores_train
    X_val y_val w_val scores_val n_inner_bags generate_update_options
    learning_rate min_samples_leaf max_leaves early_stopping_rounds
    early_stopping_tolerance max_rounds random_state optional_temp_params w
  = (Ok ((model, mm, ep), hist), w') ->
  exists new per_round,
    calls w' = calls w ++ new
    /\ metrics_applied new = concat per_round
    /\ Forall (fun metrics => List.length metrics = List.length feature_groups)
         per_round
    /\ map rr_min_metric hist = round_minima PInf per_round
    /\ mm = last (map rr_min_metric hist) PInf.
Proof.
  unfold cyclic_gradient_boost_history, with_closing. intros H.
  destruct (NativeEBMBooster__init__ _ _ _ _ _ _ _ _ _ _ _ _ _ _ _ _ _ w)
    as [[b | e] w1] eqn:Hinit; [| discriminate].
  apply init_inv in Hinit.
  destruct Hinit as [[_ [e He]] | Hinit]; [discriminate |].
  destruct Hinit as (st & sv & rc & h & e1 & c & _ & _ & Hc & Hw1 & Hres).
  destruct Hres as [[_ Hb] | [_ [e He]]]; [| discriminate].
  inversion Hb; subst b; clear Hb.
  match type of H with
  | (let (r, s2) := ?body ?s in _) = _ => destruct (body s) as [r s2] eqn:Hbody
  end.
  destruct (close N s2) as [u s3] eqn:Hclose.
  inversion H; subst r w'; clear H.
  apply bind_ok_inv in Hbody. destruct Hbody as (v & sl & Hloop & Hbody).
  apply bind_ok_inv in Hbody. destruct Hbody as (model' & sg & Hget & Hret).
  inversion Hret; subst; clear Hret.
  destruct (boost_rounds_metrics _ _ _ _ _ _ _ _ _ _ _ _ _ Hloop)
    as (new1 & per_round & added & Hlog1 & Hm1 & Hall & Hadd & Hmin & Hlast).
  cbn [rounds min_metric app] in Hadd, Hmin, Hlast.
  assert (Hq : quiet sl s3).
  { eapply quiet_trans; [| eapply close_quiet, Hclose].
    destruct (shape_at X_val 1 =? 0);
      [eapply get_current_model_quiet | eapply get_best_model_quiet]; exact Hget. }
  destruct Hq as [_ (new2 & Hlog2 & Hm2)].
  exists ([c] ++ new1 ++ new2), per_round.
  split; [| split; [| split; [| split]]].
  - rewrite Hlog2, Hlog1. cbn [snd calls]. rewrite <- !app_assoc. reflexivity.
  - rewrite !metrics_applied_app, Hm2, app_nil_r.
    replace (metrics_applied [c]) with (@nil double)
      by (destruct Hc as [-> | ->]; reflexivity).
    exact Hm1.
  - unfold len in Hall. rewrite Nat2Z.id in Hall. exact Hall.
  - rewrite Hadd. exact Hmin.
  - rewrite Hadd. exact Hlast.
Qed.

End RunMetrics.

(** ** The orchestrator: early stopping, the returned tuple *)

Section OrchestratorClaims.

Variable N : Native.
Variables (model_type : string) (n_classes : Z)
          (features_categorical : list bool) (features_bin_count : list Z)
          (feature_groups : list (list Z))
          (X_train : ndarray Z) (y_train w_train : ndarray double)
          (scores_train : tensor)
          (X_val : ndarray Z) (y_val w_val : ndarray double) (scores_val : tensor)
          (n_inner_bags generate_update_options : Z) (learning_rate : double)
          (min_samples_leaf max_leaves early_stopping_rounds : Z)
          (early_stopping_tolerance : double) (max_rounds random_state : Z)
          (optional_temp_params : option (list double)).

Local Abbreviation run_history :=
  (cyclic_gradient_boost_history N model_type n_classes features_categorical
     features_bin_count feature_groups X_train y_train w_train scores_train
     X_val y_val w_val scores_val n_inner_bags generate_update_options
     learning_rate min_samples_leaf max_leaves early_stopping_rounds
     early_stopping_tolerance max_rounds random_state optional_temp_params).

Local Abbreviation run :=
  (cyclic_gradient_boost N model_type n_classes features_categorical
     features_bin_count feature_groups X_train y_train w_train scores_train
     X_val y_val w_val scores_val n_inner_bags generate_update_options
     learning_rate min_samples_leaf max_leaves early_stopping_rounds
     early_stopping_tolerance max_rounds random_state optional_temp_params).

Lemma history_episodes (w : world N) model mm ep hist w' :
  run_history w = (Ok ((model, mm, ep), hist), w') ->
  map rr_episode_index hist = range (Z.of_nat (List.length hist))
  /\ Z.of_nat (List.length hist) <= Z.max 0 max_rounds
  /\ ep = Z.max 0 (Z.of_nat (List.length hist) - 1).
Proof.
  intros H. apply run_history_summary in H.
  destruct H as (_ & Hcont & Hep & _).
  pose proof (continues_length _ _ _ _ _ _ Hcont) as Hlen.
  rewrite length_range in Hlen.
  pose proof (continues_episodes _ _ _ _ _ _ Hcont) as Heps.
  rewrite firstn_range in Heps by exact Hlen.
  split; [exact Heps |]. split; [lia |].
  rewrite Hep, Heps. destruct hist as [| r hist]; [reflexivity |].
  cbn [List.length]. rewrite last_range. lia.
Qed.

(** C1, as amended.  [hist] holds, per round run, the values the
    end-of-round bookkeeping left.  It follows the bookkeeping of the
    code from run length 0 ([continues]): the run length is reset when
    [min_metric + early_stopping_tolerance < bp_metric], the sum being
    the sum of the two floats, and grows by one otherwise.  With
    [R < 0] all [max_rounds] rounds are run.  With [R >= 0] the loop
    stops at the first round whose bookkeeping leaves a run length of at
    least [R], or after [max_rounds] rounds.  With [R >= 1], if round
    [i] is the last round at which the run length was reset to 0, the
    loop terminates at round [i + R] or at round [max_rounds - 1],
    whichever is smaller, and that round is the third component
    returned; if no round reset it, [max(1, R)] rounds are run (or
    [max_rounds]).  The [min_metric] of a round is the least of [inf]
    and the metrics the [ApplyModelUpdate] calls of the run reported up
    to the end of that round, one per feature group and round. *)
Theorem early_stopping_terminates_after_last_reset :
  forall (w : world N) model mm ep hist w',
    run_history w = (Ok ((model, mm, ep), hist), w') ->
    let R := early_stopping_rounds in
    let n := Z.of_nat (List.length hist) in
    continues R early_stopping_tolerance 0 PInf (range max_rounds) hist
    /\ (R < 0 -> n = Z.max 0 max_rounds)
    /\ (0 <= R ->
        (forall k rec,
           nth_error hist k = Some rec -> (Datatypes.S k < List.length hist)%nat ->
           rr_no_change_run_length rec < R)
        /\ (n < max_rounds ->
            exists rec,
              nth_error hist (List.length hist - 1) = Some rec
              /\ R <= rr_no_change_run_length rec))
    /\ (1 <= R ->
        forall i rec,
          nth_error hist i = Some rec ->
          rr_no_change_run_length rec = 0 ->
          (forall j rec', (i < j)%nat -> nth_error hist j = Some rec' ->
                          rr_no_change_run_length rec' <> 0) ->
          n = Z.min (Z.of_nat i + R + 1) max_rounds
          /\ ep = Z.min (Z.of_nat i + R) (max_rounds - 1))
    /\ (0 <= R ->
        (forall rec, In rec hist -> rr_no_change_run_length rec <> 0) ->
        n = Z.min (Z.max 1 R) (Z.max 0 max_rounds))
    /\ exists new per_round,
         calls w' = calls w ++ new
         /\ metrics_applied new = concat per_round
         /\ Forall (fun metrics => List.length metrics = List.length feature_groups)
              per_round
         /\ map rr_min_metric hist = round_minima PInf per_round.
Proof.
  intros w model mm ep hist w' H R n.
  pose proof (history_episodes _ _ _ _ _ _ H) as (_ & Hle & Hep).
  pose proof H as Hmetrics. apply run_history_metrics in Hmetrics.
  destruct Hmetrics as (new & per_round & Hlog & Hmet & Hall & Hmin & _).
  apply run_history_summary in H. destruct H as (_ & Hcont & _ & _).
  assert (Hrange : Z.of_nat (List.length (range max_rounds)) = Z.max 0 max_rounds)
    by (rewrite length_range; lia).
  split; [exact Hcont |]. split; [| split; [| split; [| split]]].
  - intros HR. unfold n.
    rewrite (continues_all _ _ _ _ _ _ HR Hcont). exact Hrange.
  - intros HR.
    destruct (continues_stops_first _ _ _ _ _ _ Hcont) as [Hfirst Hlast]. split.
    + intros k rec Hk Hlt. specialize (Hfirst k rec Hk Hlt).
      apply early_stop_false in Hfirst. fold R in Hfirst. lia.
    + intros Hn. destruct Hlast as (rec & Hrec & Ht).
      * apply Nat2Z.inj_lt. rewrite Hrange. fold n. lia.
      * exists rec. split; [exact Hrec |].
        apply early_stop_true in Ht. tauto.
  - intros HR i rec Hi Hzero Hno.
    pose proof (continues_after_last_reset _ _ _ _ _ _ _ _ Hcont HR Hi Hzero Hno)
      as Hlen.
    rewrite Hrange in Hlen. fold n in Hlen.
    assert (Hi' : (i < List.length hist)%nat)
      by (apply nth_error_Some; congruence).
    fold n in Hep, Hle. split; lia.
  - intros HR Hno.
    pose proof (continues_no_reset_length _ _ _ _ _ _ Hcont (Z.le_refl 0) HR Hno)
      as Hlen.
    rewrite Hrange, Z.sub_0_r in Hlen. exact Hlen.
  - exists new, per_round. auto.
Qed.

(** The third component returned is the index of the last round run:
    one less than the number of rounds run, and 0 when none was. *)
Theorem returned_episode_index_lags_rounds :
  forall (w : world N) model mm ep hist w',
    run_history w = (Ok ((model, mm, ep), hist), w') ->
    ep = Z.max 0 (Z.of_nat (List.length hist) - 1).
Proof.
  intros w model mm ep hist w' H.
  apply history_episodes in H. destruct H as (_ & _ & Hep). exact Hep.
Qed.

(** C3.  The [min_metric] a run returns is a least element of [inf] and
    the metrics of all [ApplyModelUpdate] calls of the run, one per
    feature group and round: it is among them and no metric of the run
    is smaller; it is [inf] when no update was applied. *)
Theorem min_metric_is_least_over_all_updates :
  forall (w : world N) model mm ep w',
    run w = (Ok (model, mm, ep), w') ->
    exists new,
      calls w' = calls w ++ new
      /\ In mm (PInf :: metrics_applied new)
      /\ (forall m, In m (metrics_applied new) -> dle mm m)
      /\ (metrics_applied new = [] -> mm = PInf).
Proof.
  intros w model mm ep w' H.
  apply run_of_history in H. destruct H as [hist H].
  apply run_history_summary in H.
  destruct H as ((new & Hlog & Hin & Hle) & _).
  exists new. split; [exact Hlog |]. split; [exact Hin |]. split.
  - intros m Hm. apply Hle. right. exact Hm.
  - intros Hnil. rewrite Hnil in Hin. destruct Hin as [<- | []]. reflexivity.
Qed.

(** C10.  In a classification session with at most one class,
    [get_best_model] and [get_current_model] return one [None] per
    feature group without calling the engine, and so the model a run of
    the orchestrator returns is such a list. *)
Theorem single_class_model_is_absent :
  (forall s : bstate N,
     single_class (fst s) = true ->
     get_best_model N s
     = (Ok (repeat None (List.length (_feature_groups (fst s)))), s)
     /\ get_current_model N s
        = (Ok (repeat None (List.length (_feature_groups (fst s)))), s))
  /\ (forall (w : world N) model mm ep w',
        run w = (Ok (model, mm, ep), w') ->
        model_type = "classification" -> n_classes <= 1 ->
        model = repeat None (List.length feature_groups)).
Proof.
  split.
  - intros s Hs. split.
    + apply get_best_model_single_class, Hs.
    + apply get_current_model_single_class, Hs.
  - intros w model mm ep w' H Hmt Hn.
    apply run_of_history in H. destruct H as [hist H].
    apply run_history_summary in H. destruct H as (_ & _ & _ & Hmodel).
    apply Hmodel. subst model_type. cbn.
    apply Z.leb_le, Hn.
Qed.

End OrchestratorClaims.

(** Witness for C1.  On the metrics 10, 5, 1, 1, ... with [R = 2] the
    run length is reset at round 1 for the last time, and the loop ends
    at round 3.  On the metrics [1 + 2^-52], 1, 1, ... with tolerance
    [3 * 2^-54] and [R = 2] the rounding of the sum decides: at round 1
    the float sum [1 + 3 * 2^-54] is [1 + 2^-52], which is not below the
    baseline [1 + 2^-52], so the run length is never reset and the loop
    ends after two rounds, at round 1. *)
Lemma early_stopping_terminates_after_last_reset_witness :
  let r := scripted_boost "regression" 0 [[0]] [10; 5; 1; 1; 1; 1; 1; 1] 2 10 in
  let near_one :=
    cyclic_gradient_boost_history scripted "regression" 0 [true; false] [2; 4]
      [[0]]
      (zeros_X 2 3) (zeros_y 3) (ones_w 3) None
      (zeros_X 2 2) (zeros_y 2) (ones_w 2) None
      0 0 (Fin (1 # 100)) 2 3 2 (Fin (3 # 18014398509481984)) 8 42 None
      (scripted_world []
         (Fin (4503599627370497 # 4503599627370496) :: repeat (Fin 1) 7)) in
  Z.of_nat (List.length (history_of r)) = Z.min (1 + 2 + 1) 10
  /\ returned_episode_index r = Some (Z.min (1 + 2) (10 - 1))
  /\ Z.of_nat (List.length (history_of near_one)) = Z.min (Z.max 1 2) (Z.max 0 8)
  /\ returned_episode_index near_one = Some 1.
Proof.
  intros r near_one.
  eassert (H : r = (Ok ((_, _, _), _), _)) by (vm_compute; reflexivity).
  pose proof H as H'. unfold r, scripted_boost in H'.
  apply early_stopping_terminates_after_last_reset in H'. cbv zeta in H'.
  destruct H' as (_ & _ & _ & Hreset & _).
  eassert (H1 : near_one = (Ok ((_, _, _), _), _)) by (vm_compute; reflexivity).
  pose proof H1 as H1'. unfold near_one in H1'.
  apply early_stopping_terminates_after_last_reset in H1'. cbv zeta in H1'.
  destruct H1' as (_ & _ & _ & _ & Hnone & _).
  destruct (Hreset ltac:(lia) 1%nat (mk_round_record 1 (Fin (5 # 1)) (Fin (10 # 1)) 0))
    as [Hn Hep].
  - reflexivity.
  - reflexivity.
  - intros j rec' Hj Hnth.
    destruct j as [| [| [| [| j]]]]; try lia; cbn in Hnth.
    + inversion Hnth. discriminate.
    + inversion Hnth. discriminate.
    + destruct j; discriminate.
  - unfold history_of, returned_episode_index.
    rewrite H, H1. cbn [fst].
    split; [exact Hn |]. split; [rewrite Hep; reflexivity |].
    split; [| reflexivity].
    apply Hnone; [lia |].
    intros rec [<- | [<- | []]]; discriminate.
Defined.

(** C1 as stated fails.  One feature group, tolerance 0, metrics
    10, 5, 1, 1, 1, ...: the running minimum improves for the last time
    at round 2.  With [R = 2] the loop runs rounds 0 to 3 and ends at
    round 3, not at round 2 + 2; with [R = 1] it ends at round 0, not
    at round 2 + 1. *)
Lemma early_stopping_counterexample :
  let metrics := [10; 5; 1; 1; 1; 1; 1; 1] in
  let r2 := scripted_boost "regression" 0 [[0]] metrics 2 10 in
  let r1 := scripted_boost "regression" 0 [[0]] metrics 1 10 in
  last_improving_round (Fin 0) (int_metrics metrics) = Some 2%nat
  /\ map rr_episode_index (history_of r2) = [0; 1; 2; 3]
  /\ last (map rr_episode_index (history_of r2)) 0 <> Z.min (2 + 2) 10
  /\ map rr_episode_index (history_of r1) = [0]
  /\ last (map rr_episode_index (history_of r1)) 0 <> Z.min (2 + 1) 10.
Proof.
  cbv zeta. repeat split; try (vm_compute; reflexivity); vm_compute; discriminate.
Qed.

(** C2 at a failing input: one round over one feature group is run to
    its end (its update is generated and applied, with metric 10), and
    the third component returned is 0. *)
Theorem boost_one_round_returns_episode_zero :
  let r := scripted_boost "regression" 0 [[0]] [10] (-1) 1 in
  List.length (history_of r) = 1%nat
  /\ metrics_applied (calls (snd r)) = [Fin (10 # 1)]
  /\ returned_episode_index r = Some 0.
Proof.
  cbv zeta. split; [| split]; vm_compute; reflexivity.
Qed.

(** Witness for the relation between the third component and the number
    of rounds: three rounds run, 2 returned. *)
Lemma returned_episode_index_lags_rounds_witness :
  let r := scripted_boost "regression" 0 [[0]] [10; 5; 1] (-1) 3 in
  returned_episode_index r = Some (Z.max 0 (Z.of_nat (List.length (history_of r)) - 1))
  /\ List.length (history_of r) = 3%nat.
Proof.
  intros r.
  eassert (H : r = (Ok ((_, _, _), _), _)) by (vm_compute; reflexivity).
  pose proof H as H'. unfold r, scripted_boost in H'.
  apply returned_episode_index_lags_rounds in H'.
  unfold history_of, returned_episode_index. rewrite H. cbn [fst].
  split; [rewrite H'; reflexivity | reflexivity].
Defined.

(** Witness for C3: three feature groups, two rounds, metrics
    10, 3, 7, 8, 9, 4: the minimum, 3, is reported inside round 0. *)
Lemma min_metric_is_least_over_all_updates_witness :
  let w := scripted_world [] (int_metrics [10; 3; 7; 8; 9; 4]) in
  let r := cyclic_gradient_boost scripted "regression" 0 [true; false] [2; 4]
             [[0]; [1]; [0; 1]]
             (zeros_X 2 3) (zeros_y 3) (ones_w 3) None
             (zeros_X 2 2) (zeros_y 2) (ones_w 2) None
             0 0 (Fin (1 # 100)) 2 3 (-1) (Fin 0) 2 42 None w in
  exists model new,
    fst r = Ok (model, Fin (3 # 1), 1)
    /\ calls (snd r) = calls w ++ new
    /\ metrics_applied new = int_metrics [10; 3; 7; 8; 9; 4]
    /\ forall m, In m (metrics_applied new) -> dle (Fin (3 # 1)) m.
Proof.
  intros w r.
  eassert (H : r = (Ok (_, Fin (3 # 1), 1), _)) by (vm_compute; reflexivity).
  pose proof H as H'. unfold r in H'.
  apply min_metric_is_least_over_all_updates in H'.
  destruct H' as (new & Hlog & _ & Hle & _).
  eexists. exists new. rewrite H. cbn [fst snd].
  split; [reflexivity |]. split; [exact Hlog |]. split; [| exact Hle].
  cbn [calls snd w scripted_world app] in Hlog.
  rewrite <- Hlog. vm_compute. reflexivity.
Defined.

(** Witness for C10: a classification run with a single class over three
    feature groups returns three absent tensors. *)
Lemma single_class_model_is_absent_witness :
  exists mm ep,
    fst (cyclic_gradient_boost scripted "classification" 1 [true; false] [2; 4]
           [[0]; [1]; [0; 1]]
           (zeros_X 2 3) (zeros_y 3) (ones_w 3) None
           (zeros_X 2 2) (zeros_y 2) (ones_w 2) None
           0 0 (Fin (1 # 100)) 2 3 (-1) (Fin 0) 2 42 None
           (scripted_world [] (int_metrics [10; 3; 7; 8; 9; 4])))
    = Ok ([None; None; None], mm, ep).
Proof.
  match goal with
  | |- context [fst ?t] => destruct t as [[[[model mm] ep] | e] w'] eqn:H
  end.
  - apply (proj2 (single_class_model_is_absent scripted "classification" 1
                    [true; false] [2; 4] [[0]; [1]; [0; 1]]
                    (zeros_X 2 3) (zeros_y 3) (ones_w 3) None
                    (zeros_X 2 2) (zeros_y 2) (ones_w 2) None
                    0 0 (Fin (1 # 100)) 2 3 (-1) (Fin 0) 2 42 None)) in H;
      [| reflexivity | lia].
    exists mm, ep. cbn [fst]. rewrite H. reflexivity.
  - vm_compute in H. discriminate H.
Defined.

(** ** The staged update *)

(** C9.  A session starts with no update staged
    ([_feature_group_index = -1]).  [generate_model_update] first clears
    the staged index, so its outcome does not depend on what was staged
    before; when it raises (the feature group does not exist, or the
    engine reports an error) the index is -1, and when it returns the
    index is the requested one; so, for a request other than -1, the
    index equals the request exactly when the call returned. *)
Theorem generate_update_stages_only_on_success :
  forall (N : Native),
    (forall model_type n_classes features_categorical features_bin_count
            feature_groups X_train y_train w_train scores_train
            X_val y_val w_val scores_val n_inner_bags random_state
            optional_temp_params (w : world N),
        match fst (NativeEBMBooster__init__ N model_type n_classes
                     features_categorical features_bin_count feature_groups
                     X_train y_train w_train scores_train
                     X_val y_val w_val scores_val n_inner_bags random_state
                     optional_temp_params w) with
        | Ok self => _feature_group_index self = -1
        | Raise _ => True
        end)
    /\ (forall g options learning_rate min_samples_leaf max_leaves
               (self : NativeEBMBooster) (w : world N),
          let out := generate_model_update N g options learning_rate
                       min_samples_leaf max_leaves (self, w) in
          (forall staged,
             generate_model_update N g options learning_rate min_samples_leaf
               max_leaves (set_feature_group_index staged self, w) = out)
          /\ match fst out with
             | Ok _ => _feature_group_index (fst (snd out)) = g
             | Raise _ => _feature_group_index (fst (snd out)) = -1
             end
          /\ (g <> -1 ->
              (_feature_group_index (fst (snd out)) = g
               <-> exists gain, fst out = Ok gain))).
Proof.
  intros N. split.
  - intros. match goal with |- match fst ?x with _ => _ end =>
      destruct x as [[self | e] w1] eqn:H end; cbn [fst]; [| exact I].
    apply init_inv in H. destruct H as [[_ [e He]] | H]; [discriminate |].
    destruct H as (st & sv & rc & h & e1 & c & _ & _ & _ & _ & Hres).
    destruct Hres as [[_ Hb] | [_ [e He]]]; [| discriminate].
    inversion Hb. reflexivity.
  - intros g options learning_rate min_samples_leaf max_leaves self w out.
    pose proof (generate_model_update_index N g options learning_rate
                  min_samples_leaf max_leaves (self, w)) as Hidx.
    fold out in Hidx.
    split; [intros staged; subst out; apply generate_model_update_forgets |].
    destruct out as [[gain | e] s'] eqn:Hout; cbn [fst snd].
    + split; [exact Hidx |]. intros _. split; [eauto | intros _; exact Hidx].
    + split; [exact Hidx |]. intros Hg. split.
      * intros Heq. rewrite Hidx in Heq. congruence.
      * intros [gain Hgain]. discriminate.
Qed.

(** Witness for C9 on the scripted engine: a fresh regression session
    has index -1; a generate for group 2 that the engine accepts stages
    2; one that the engine refuses (return code 3), issued while 2 is
    staged, leaves -1. *)
Lemma generate_update_stages_only_on_success_witness :
  let self := mk_NativeEBMBooster (Some 1) 2 "regression" 0 [2; 4] [[0]; [1]; [0; 1]] in
  let ok := generate_model_update scripted 2 0 (Fin (1 # 100)) 2 3
              (self, scripted_world [0] []) in
  let failed := generate_model_update scripted 1 0 (Fin (1 # 100)) 2 3
                  (self, scripted_world [3] []) in
  _feature_group_index (fst (snd ok)) = 2
  /\ _feature_group_index (fst (snd failed)) = -1
  /\ (exists gain, fst ok = Ok gain).
Proof.
  intros self ok failed.
  destruct (generate_update_stages_only_on_success scripted) as [_ Hgen].
  pose proof (Hgen 2 0 (Fin (1 # 100)) 2 3 self (scripted_world [0] [])) as Hok.
  pose proof (Hgen 1 0 (Fin (1 # 100)) 2 3 self (scripted_world [3] [])) as Hfailed.
  cbv zeta in Hok, Hfailed. fold ok in Hok. fold failed in Hfailed.
  destruct Hok as (_ & _ & Hiff). destruct Hfailed as (_ & Hf & _).
  assert (Hgain : exists gain, fst ok = Ok gain) by (eexists; vm_compute; reflexivity).
  split; [apply Hiff; [lia | exact Hgain] |].
  split; [| exact Hgain].
  assert (Hr : fst failed = Raise (NativeException 3 "GenerateModelUpdate"))
    by (vm_compute; reflexivity).
  rewrite Hr in Hf. exact Hf.
Defined.

(** ** Sessions with at most one class *)

(** C8, as amended.  In a classification session with at most one
    class, [get_model_update_expanded] returns [None] whenever an update
    is staged, and raises the invalid-state error when none is;
    [set_model_update_expanded] given [None] stages the feature group,
    and given an array raises, leaving nothing staged.  None of these
    calls the engine. *)
Theorem single_class_update_is_absent :
  forall (N : Native) (self : NativeEBMBooster) (w : world N),
    single_class self = true ->
    (0 <= _feature_group_index self ->
     get_model_update_expanded N (self, w) = (Ok None, (self, w)))
    /\ (_feature_group_index self < 0 ->
        get_model_update_expanded N (self, w)
        = (Raise (RuntimeError "invalid internal self._feature_group_index"),
           (self, w)))
    /\ (forall g,
          set_model_update_expanded N g None (self, w)
          = (Ok tt, (set_feature_group_index g self, w)))
    /\ (forall g x,
          exists e,
            set_model_update_expanded N g (Some x) (self, w)
            = (Raise (ValueError e), (set_feature_group_index (-1) self, w))).
Proof.
  intros N self w Hs. repeat split.
  - intros Hidx. unfold get_model_update_expanded, bind, get_self, raise_if, ret.
    cbn [fst]. destruct (Z.ltb_spec (_feature_group_index self) 0); [lia |].
    rewrite Hs. reflexivity.
  - intros Hidx. unfold get_model_update_expanded, bind, get_self, raise_if, raise.
    cbn [fst]. destruct (Z.ltb_spec (_feature_group_index self) 0); [| lia].
    reflexivity.
  - intros g. unfold set_model_update_expanded, bind, assign_feature_group_index,
      get_self. cbn [fst snd].
    replace (single_class (set_feature_group_index (-1) self)) with true
      by (symmetry; exact Hs).
    reflexivity.
  - intros g x. eexists.
    unfold set_model_update_expanded, bind, assign_feature_group_index,
      get_self, raise. cbn [fst snd].
    replace (single_class (set_feature_group_index (-1) self)) with true
      by (symmetry; exact Hs).
    reflexivity.
Qed.

(** Witness for C8: a single-class session in which group 1 is staged. *)
Lemma single_class_update_is_absent_witness :
  let self := mk_NativeEBMBooster (Some 1) 1 "classification" 1 [2; 4]
                [[0]; [1]; [0; 1]] in
  let w := scripted_world [] [] in
  get_model_update_expanded scripted (self, w) = (Ok None, (self, w))
  /\ set_model_update_expanded scripted 0 None (self, w)
     = (Ok tt, (set_feature_group_index 0 self, w)).
Proof.
  intros self w.
  destruct (single_class_update_is_absent scripted self w eq_refl)
    as (Hget & _ & Hset & _).
  split; [apply Hget; cbn; lia | apply Hset].
Defined.

(** C8 as stated fails: in a single-class session that was just opened,
    where nothing is staged, [get_model_update_expanded] raises instead
    of returning [None]. *)
Lemma single_class_get_counterexample :
  let opened :=
    NativeEBMBooster__init__ scripted "classification" 1 [true; false] [2; 4]
      [[0]; [1]; [0; 1]]
      (zeros_X 2 3) (zeros_y 3) (ones_w 3) None
      (zeros_X 2 2) (zeros_y 2) (ones_w 2) None 0 42 None
      (scripted_world [] []) in
  exists self,
    fst opened = Ok self
    /\ single_class self = true
    /\ fst (get_model_update_expanded scripted (self, snd opened))
       = Raise (RuntimeError "invalid internal self._feature_group_index")
    /\ fst (get_model_update_expanded scripted (self, snd opened)) <> Ok None.
Proof.
  cbv zeta. eexists.
  split; [vm_compute; reflexivity |].
  split; [reflexivity |].
  split; [vm_compute; reflexivity | vm_compute; discriminate].
Qed.

(** ** Prior scores *)




(** ** Ranking interactions *)

Section SortedReverse.

Variable A : Type.
Variable key : A -> double.

Lemma insert_reverse_perm x l : Permutation (insert_reverse key x l) (x :: l).
Proof.
  induction l as [| y l IH]; cbn; [apply Permutation_refl |].
  destruct (dlt (key x) (key y)).
  - eapply Permutation_trans; [apply perm_skip, IH | apply perm_swap].
  - apply Permutation_refl.
Qed.

Lemma sorted_reverse_perm l : Permutation (sorted_reverse key l) l.
Proof.
  induction l as [| x l IH]; cbn; [constructor |].
  eapply Permutation_trans; [apply insert_reverse_perm | apply perm_skip, IH].
Qed.

Lemma insert_reverse_sorted x l :
  StronglySorted (fun a b => dle (key b) (key a)) l ->
  StronglySorted (fun a b => dle (key b) (key a)) (insert_reverse key x l).
Proof.
  induction 1 as [| y l Hl IH Hy]; cbn.
  - constructor; constructor.
  - destruct (dlt (key x) (key y)) eqn:Hlt.
    + constructor; [exact IH |].
      apply Forall_forall. intros z Hz.
      apply (Permutation_in _ (insert_reverse_perm x l)) in Hz.
      destruct Hz as [<- | Hz].
      * apply dlt_true_dle, Hlt.
      * rewrite Forall_forall in Hy. apply Hy, Hz.
    + constructor; [constructor; assumption |].
      constructor; [apply dlt_false_dle, Hlt |].
      apply Forall_forall. intros z Hz. rewrite Forall_forall in Hy.
      eapply dle_trans; [apply Hy, Hz | apply dlt_false_dle, Hlt].
Qed.

Lemma sorted_reverse_sorted l :
  StronglySorted (fun a b => dle (key b) (key a)) (sorted_reverse key l).
Proof.
  induction l as [| x l IH]; cbn; [constructor |].
  apply insert_reverse_sorted, IH.
Qed.

(** Two keys of which one is smaller do not both equal [s]. *)
Lemma same_key_not_smaller s x y :
  dlt (key x) (key y) = true -> same_key key s x = true -> same_key key s y = false.
Proof.
  unfold same_key. intros Hlt Hx.
  apply andb_true_iff in Hx. destruct Hx as [Hx1 Hx2].
  apply negb_true_iff in Hx1.
  destruct (dlt (key y) s) eqn:Hy1; cbn; [reflexivity |].
  destruct (dlt s (key y)) eqn:Hy2; cbn; [reflexivity |].
  exfalso. apply (dlt_true_not_dle _ _ Hlt).
  eapply dle_trans; [apply dlt_false_dle, Hy2 | apply dlt_false_dle, Hx1].
Qed.

(** Insertion keeps the elements of equal key in their order, the new
    element first. *)
Lemma insert_reverse_stable s x l :
  filter (same_key key s) (insert_reverse key x l) = filter (same_key key s) (x :: l).
Proof.
  induction l as [| y l IH]; [reflexivity |].
  cbn [insert_reverse]. destruct (dlt (key x) (key y)) eqn:Hlt; [| reflexivity].
  cbn [filter] in IH |- *. rewrite IH.
  destruct (same_key key s x) eqn:Hx; [| reflexivity].
  rewrite (same_key_not_smaller s x y Hlt Hx). reflexivity.
Qed.

Lemma sorted_reverse_stable s l :
  filter (same_key key s) (sorted_reverse key l) = filter (same_key key s) l.
Proof.
  induction l as [| x l IH]; [reflexivity |].
  cbn [sorted_reverse]. rewrite insert_reverse_stable. cbn [filter].
  rewrite IH. reflexivity.
Qed.

End SortedReverse.

Lemma strongly_sorted_descending (l : list double) :
  StronglySorted (fun a b => dle b a) l -> descending l.
Proof.
  induction 1 as [| x l Hl IH Hx]; intros i j a b Hij Hi Hj.
  - destruct i; discriminate.
  - destruct j as [| j]; [lia |]. cbn in Hj.
    destruct i as [| i].
    + inversion Hi; subst. rewrite Forall_forall in Hx.
      apply Hx. eapply nth_error_In, Hj.
    + cbn in Hi. apply (IH i j a b); [lia | exact Hi | exact Hj].
Qed.

Lemma strongly_sorted_map {A B : Type} (f : A -> B) (R : B -> B -> Prop) l :
  StronglySorted (fun a b => R (f a) (f b)) l -> StronglySorted R (map f l).
Proof.
  induction 1 as [| x l Hl IH Hx]; cbn; constructor; [exact IH |].
  apply Forall_map. exact Hx.
Qed.

Lemma combine_fst_snd {A B : Type} (l : list (A * B)) :
  combine (map fst l) (map snd l) = l.
Proof.
  induction l as [| [a b] l IH]; cbn; [reflexivity | rewrite IH; reflexivity].
Qed.

Lemma scored_calls_app l1 l2 :
  scored_calls (l1 ++ l2) = scored_calls l1 ++ scored_calls l2.
Proof.
  induction l1 as [| c l1 IH]; cbn; [reflexivity |].
  destruct c; cbn; auto.
  destruct (return_code =? 0); cbn; rewrite IH; reflexivity.
Qed.

Section InteractionFacts.

Variable N : Native.

Lemma with_closing_ok {Obj A : Type} (ctor : M (world N) Obj)
  (close_obj : M (Obj * world N) unit) (body : M (Obj * world N) A) w a w' :
  with_closing N ctor close_obj body w = (Ok a, w') ->
  exists obj w1 s2,
    ctor w = (Ok obj, w1)
    /\ body (obj, w1) = (Ok a, s2)
    /\ w' = snd (snd (close_obj s2)).
Proof.
  unfold with_closing. destruct (ctor w) as [[obj | e] w1]; [| discriminate].
  destruct (body (obj, w1)) as [r s2] eqn:Hbody.
  destruct (close_obj s2) as [u s3] eqn:Hclose.
  intros H. inversion H; subst. exists obj, w1, s2.
  rewrite Hclose. repeat split. exact Hbody.
Qed.

Lemma get_interaction_score_log tuple msl (s : istate N) score s' :
  get_interaction_score N tuple msl s = (Ok score, s') ->
  exists new,
    calls (snd s') = calls (snd s) ++ new /\ scored_calls new = [(tuple, score)].
Proof.
  unfold get_interaction_score, bind, get_self, in_world, unsafe, raise_if,
    raise, ret. cbn [fst snd].
  destruct (CalculateInteractionScore N _ _ _ _ _) as [[rc sc] e1]. cbn.
  destruct (Z.eqb_spec rc 0) as [Hrc | Hrc]; cbn; intros H; inversion H; subst.
  eexists. split; [reflexivity |]. reflexivity.
Qed.

(** Scoring the candidates: one call per candidate, in the order of the
    candidate list, each candidate paired with the score reported for it. *)
Lemma score_candidates_log candidates msl :
  forall (s : istate N) scored s',
    score_candidates N candidates msl s = (Ok scored, s') ->
    map fst scored = candidates
    /\ exists new, calls (snd s') = calls (snd s) ++ new /\ scored_calls new = scored.
Proof.
  induction candidates as [| c candidates IH]; intros s scored s' H.
  - cbn in H. inversion H; subst. split; [reflexivity |].
    exists []. rewrite app_nil_r. auto.
  - cbn [score_candidates] in H.
    apply bind_ok_inv in H. destruct H as (score & s1 & Hscore & H).
    apply bind_ok_inv in H. destruct H as (rest & s2 & Hrest & H).
    inversion H; subst; clear H.
    apply get_interaction_score_log in Hscore.
    destruct Hscore as (new1 & Hlog1 & Hsc1).
    destruct (IH _ _ _ Hrest) as (Hfst & new2 & Hlog2 & Hsc2).
    split; [cbn; rewrite Hfst; reflexivity |].
    exists (new1 ++ new2). split.
    + rewrite Hlog2, Hlog1, app_assoc. reflexivity.
    + rewrite scored_calls_app, Hsc1, Hsc2. reflexivity.
Qed.

End InteractionFacts.

Section RankingClaims.

Variable N : Native.
Variables (n_interactions : Z) (iter_feature_groups : list (list Z))
          (model_type : string) (n_classes : Z)
          (features_categorical : list bool) (features_bin_count : list Z)
          (X : ndarray Z) (y w : ndarray double) (scores : tensor)
          (min_samples_leaf : Z) (optional_temp_params : option (list double)).

Lemma interaction_init_log (w0 : world N) obj w1 :
  NativeEBMInteraction__init__ N model_type n_classes features_categorical
    features_bin_count X y w scores optional_temp_params w0 = (Ok obj, w1) ->
  exists new, calls w1 = calls w0 ++ new /\ scored_calls new = [].
Proof.
  intros H. unfold NativeEBMInteraction__init__ in H.
  do 5 (guard_step H).
  cbv zeta in H.
  apply bind_ok_inv in H. destruct H as (prepared & sa & Hp & H).
  rewrite prepare_scores_pure in Hp. inversion Hp; subst sa; clear Hp.
  apply bind_ok_inv in H. destruct H as (h & sb & Hc & H).
  inversion H; subst; clear H.
  destruct (String.eqb model_type "classification").
  - apply create_check_inv in Hc. destruct Hc as (rc & h0 & e1 & -> & _).
    eexists. split; reflexivity.
  - destruct (String.eqb model_type "regression"); [| discriminate].
    apply create_check_inv in Hc. destruct Hc as (rc & h0 & e1 & -> & _).
    eexists. split; reflexivity.
Qed.

(** C6.  When [get_interactions] returns, the returned scores are in
    descending order; the two returned lists have the length of the
    candidate list; paired position by position they are a rearrangement
    of the candidates, each with the score the engine reported for it;
    and the candidates of any one score are in the order they have in the
    candidate list. *)
Theorem interactions_ranked_descending_stable :
  forall (w0 : world N) final_indices final_scores w',
    get_interactions N n_interactions iter_feature_groups model_type n_classes
      features_categorical features_bin_count X y w scores min_samples_leaf
      optional_temp_params w0
    = (Ok (final_indices, final_scores), w') ->
    exists scored,
      map fst scored = iter_feature_groups
      /\ (exists new, calls w' = calls w0 ++ new /\ scored_calls new = scored)
      /\ List.length final_indices = List.length iter_feature_groups
      /\ List.length final_scores = List.length iter_feature_groups
      /\ descending final_scores
      /\ Permutation (combine final_indices final_scores) scored
      /\ forall s,
           with_score s (combine final_indices final_scores) = with_score s scored.
Proof.
  intros w0 final_indices final_scores w' H.
  unfold get_interactions in H.
  apply bind_ok_inv in H. destruct H as (scored & w1 & Hwith & Hret).
  cbv zeta in Hret. inversion Hret; subst; clear Hret.
  apply with_closing_ok in Hwith.
  destruct Hwith as (obj & wi & s2 & Hinit & Hbody & Hw').
  apply interaction_init_log in Hinit. destruct Hinit as (new0 & Hlog0 & Hsc0).
  apply score_candidates_log in Hbody.
  destruct Hbody as (Hfst & new1 & Hlog1 & Hsc1).
  exists scored. split; [exact Hfst |].
  pose proof (sorted_reverse_perm _ snd scored) as Hperm.
  split; [| split; [| split; [| split; [| split]]]].
  - exists (new0 ++ new1 ++ [CallFreeInteractionDetector (_interaction_handle (fst s2))]).
    split.
    + rewrite Hw'.
      unfold close_interaction, bind, get_self, in_world, unsafe_void. cbn.
      rewrite Hlog1. cbn [snd]. rewrite Hlog0, <- !app_assoc. reflexivity.
    + rewrite !scored_calls_app, Hsc0, Hsc1. cbn. apply app_nil_r.
  - rewrite length_map, (Permutation_length Hperm), <- Hfst, length_map. reflexivity.
  - rewrite length_map, (Permutation_length Hperm), <- Hfst, length_map. reflexivity.
  - apply strongly_sorted_descending, strongly_sorted_map, sorted_reverse_sorted.
  - rewrite combine_fst_snd. exact Hperm.
  - intros s. rewrite combine_fst_snd. apply (sorted_reverse_stable _ snd s scored).
Qed.

End RankingClaims.

(** Witness for C6: four candidates over four features on the scripted
    engine (the score of a tuple is the sum of its indices); the two
    candidates of score 1 keep their order. *)
Lemma interactions_ranked_descending_stable_witness :
  exists w',
    get_interactions scripted 2 [[0; 1]; [1; 0]; [2; 3]; [0; 0]] "regression" 0
      [true; false; false; false] [2; 4; 3; 3]
      (zeros_X 4 3) (zeros_y 3) (ones_w 3) None 2 None (scripted_world [] [])
    = (Ok ([[2; 3]; [0; 1]; [1; 0]; [0; 0]],
           [Fin (5 # 1); Fin (1 # 1); Fin (1 # 1); Fin (0 # 1)]), w')
    /\ descending [Fin (5 # 1); Fin (1 # 1); Fin (1 # 1); Fin (0 # 1)].
Proof.
  eexists.
  eassert (H : get_interactions scripted 2 [[0; 1]; [1; 0]; [2; 3]; [0; 0]]
                 "regression" 0 [true; false; false; false] [2; 4; 3; 3]
                 (zeros_X 4 3) (zeros_y 3) (ones_w 3) None 2 None
                 (scripted_world [] []) = (Ok (_, _), _))
    by (vm_compute; reflexivity).
  split; [exact H |].
  apply interactions_ranked_descending_stable in H.
  destruct H as (scored & _ & _ & _ & _ & Hdesc & _). exact Hdesc.
Defined.

(** ** Transposition of the tensor of a feature pair *)

Lemma transpose_source_bound a b c k :
  (k < a * b * c)%nat -> (transpose_source a b c k < a * b * c)%nat.
Proof.
  intros Hk. unfold transpose_source.
  assert (Hc : (0 < c)%nat) by nia.
  assert (Ha : (0 < a)%nat) by nia.
  assert (Hl : (k mod c < c)%nat) by (apply Nat.mod_upper_bound; lia).
  assert (Hq : (k / c < a * b)%nat) by (apply Nat.Div0.div_lt_upper_bound; nia).
  assert (Hi : ((k / c) mod a < a)%nat) by (apply Nat.mod_upper_bound; lia).
  assert (Hj : (k / c / a < b)%nat) by (apply Nat.Div0.div_lt_upper_bound; nia).
  set (i := ((k / c) mod a)%nat) in *. set (j := (k / c / a)%nat) in *.
  set (l := (k mod c)%nat) in *.
  assert (Hij : (i * b + j + 1 <= a * b)%nat).
  { assert ((i + 1) * b <= a * b)%nat by (apply Nat.mul_le_mono_r; lia). lia. }
  assert (Hijc : ((i * b + j + 1) * c <= a * b * c)%nat)
    by (apply Nat.mul_le_mono_r; exact Hij).
  lia.
Qed.

(** Exchanging the axes twice leads back to the same position. *)
Lemma transpose_source_involutive a b c k :
  (k < a * b * c)%nat ->
  transpose_source b a c (transpose_source a b c k) = k.
Proof.
  intros Hk. unfold transpose_source.
  assert (Hc : (0 < c)%nat) by nia.
  assert (Ha : (0 < a)%nat) by nia.
  assert (Hb : (0 < b)%nat) by nia.
  set (l := (k mod c)%nat). set (q := (k / c)%nat).
  set (j := (q / a)%nat). set (i := (q mod a)%nat).
  assert (Hl : (l < c)%nat) by (apply Nat.mod_upper_bound; lia).
  assert (Hq : (q < a * b)%nat) by (apply Nat.Div0.div_lt_upper_bound; nia).
  assert (Hi : (i < a)%nat) by (apply Nat.mod_upper_bound; lia).
  assert (Hj : (j < b)%nat) by (apply Nat.Div0.div_lt_upper_bound; nia).
  assert (Hk' : k = (c * q + l)%nat) by (apply Nat.div_mod_eq).
  assert (Hq' : q = (a * j + i)%nat) by (apply Nat.div_mod_eq).
  assert (H1 : (((i * b + j) * c + l) mod c = l)%nat).
  { symmetry. apply (Nat.mod_unique _ c (i * b + j)); [exact Hl | lia]. }
  assert (H2 : (((i * b + j) * c + l) / c = i * b + j)%nat).
  { symmetry. apply (Nat.div_unique _ c _ l); [exact Hl | lia]. }
  rewrite H1, H2.
  assert (H3 : ((i * b + j) / b = i)%nat).
  { symmetry. apply (Nat.div_unique _ b _ j); [exact Hj | lia]. }
  assert (H4 : ((i * b + j) mod b = j)%nat).
  { symmetry. apply (Nat.mod_unique _ b i); [exact Hj | lia]. }
  rewrite H3, H4. nia.
Qed.

Lemma map_Some_injective {A : Type} (l1 l2 : list A) :
  map Some l1 = map Some l2 -> l1 = l2.
Proof.
  revert l2. induction l1 as [| x l1 IH]; intros [| y l2] H;
    try discriminate; [reflexivity |].
  cbn in H. injection H as Hx Hl. f_equal; [exact Hx | apply IH, Hl].
Qed.

Lemma map_nth_error_seq {A : Type} (d : list A) :
  map (nth_error d) (seq 0 (List.length d)) = map Some d.
Proof.
  induction d as [| x d IH]; [reflexivity |].
  cbn [List.length seq map nth_error]. f_equal.
  rewrite <- seq_shift, map_map. exact IH.
Qed.

(** The elements of a gathered list, when every source position exists. *)
Lemma gather_map_Some {A : Type} (d : list A) (src : nat -> nat) (l : list nat) :
  (forall k, In k l -> (src k < List.length d)%nat) ->
  map Some
    (flat_map (fun k => match nth_error d (src k) with
                        | Some x => [x]
                        | None => []
                        end) l)
  = map (fun k => nth_error d (src k)) l.
Proof.
  induction l as [| k l IH]; intros Hsrc; [reflexivity |].
  cbn [flat_map map].
  destruct (nth_error d (src k)) as [x |] eqn:Hx.
  - cbn. rewrite IH; [reflexivity |]. intros k' Hk'. apply Hsrc. right. exact Hk'.
  - apply nth_error_None in Hx. specialize (Hsrc k (or_introl eq_refl)). lia.
Qed.

Lemma transpose_data_map_Some {A : Type} a b c (d : list A) :
  List.length d = (a * b * c)%nat ->
  map Some (transpose_data a b c d)
  = map (fun k => nth_error d (transpose_source a b c k)) (seq 0 (a * b * c)).
Proof.
  intros Hd. unfold transpose_data. apply gather_map_Some.
  intros k Hk. apply in_seq in Hk. rewrite Hd.
  apply transpose_source_bound. lia.
Qed.

Lemma transpose_data_length {A : Type} a b c (d : list A) :
  List.length d = (a * b * c)%nat ->
  List.length (transpose_data a b c d) = (a * b * c)%nat.
Proof.
  intros Hd.
  rewrite <- (length_map Some), (transpose_data_map_Some _ _ _ _ Hd).
  rewrite length_map, length_seq. reflexivity.
Qed.

Lemma transpose_data_nth_error {A : Type} a b c (d : list A) k :
  List.length d = (a * b * c)%nat -> (k < a * b * c)%nat ->
  nth_error (transpose_data a b c d) k = nth_error d (transpose_source a b c k).
Proof.
  intros Hd Hk.
  pose proof (transpose_data_map_Some a b c d Hd) as Hmap.
  apply (f_equal (fun l => nth_error l k)) in Hmap.
  rewrite nth_error_map in Hmap.
  rewrite (nth_error_map (fun k => nth_error d (transpose_source a b c k))) in Hmap.
  rewrite nth_error_seq in Hmap.
  destruct (Nat.ltb_spec k (a * b * c)) as [_ | Hge]; [| lia].
  cbn in Hmap.
  destruct (nth_error (transpose_data a b c d) k) as [x |] eqn:Hx; cbn in Hmap.
  - injection Hmap as Hmap. exact Hmap.
  - discriminate.
Qed.

(** Transposing the first two axes twice gives the array back. *)
Lemma transpose_data_involutive {A : Type} a b c (d : list A) :
  List.length d = (a * b * c)%nat ->
  transpose_data b a c (transpose_data a b c d) = d.
Proof.
  intros Hd. apply map_Some_injective.
  pose proof (transpose_data_length a b c d Hd) as Hlen.
  assert (Hlen' : List.length (transpose_data a b c d) = (b * a * c)%nat) by lia.
  rewrite (transpose_data_map_Some b a c _ Hlen').
  rewrite <- map_nth_error_seq, Hd.
  replace (b * a * c)%nat with (a * b * c)%nat by lia.
  apply map_ext_in. intros k Hk. apply in_seq in Hk.
  assert (Hk' : (k < b * a * c)%nat) by lia.
  pose proof (transpose_source_bound b a c k Hk') as Hbound.
  rewrite transpose_data_nth_error by (try exact Hd; lia).
  rewrite transpose_source_involutive by lia. reflexivity.
Qed.

Lemma ndarray_eta {A : Type} (x : ndarray A) : mk_ndarray (shape x) (data x) = x.
Proof. destruct x. reflexivity. Qed.

Lemma transpose_10_round_trip {A : Type} (x : ndarray A) a b :
  shape x = [a; b] -> well_formed x ->
  exists x',
    transpose_10 x = Ok x' /\ shape x' = [b; a] /\ well_formed x'
    /\ transpose_10 x' = Ok x.
Proof.
  intros Hs [Hnn Hlen]. unfold transpose_10. rewrite Hs.
  rewrite Hs in Hlen, Hnn. cbn in Hlen.
  assert (Hd : List.length (data x) = (Z.to_nat a * Z.to_nat b * 1)%nat) by lia.
  eexists. split; [reflexivity |]. cbn [shape data]. split; [reflexivity |].
  split.
  - split; cbn [shape data].
    + inversion Hnn as [| ? ? Ha Hnn']; inversion Hnn' as [| ? ? Hb _]; subst.
      repeat constructor; assumption.
    + rewrite (transpose_data_length _ _ _ _ Hd). cbn. lia.
  - rewrite (transpose_data_involutive _ _ _ _ Hd), <- Hs. f_equal. apply ndarray_eta.
Qed.

Lemma transpose_102_round_trip {A : Type} (x : ndarray A) a b c :
  shape x = [a; b; c] -> well_formed x ->
  exists x',
    transpose_102 x = Ok x' /\ shape x' = [b; a; c] /\ well_formed x'
    /\ transpose_102 x' = Ok x.
Proof.
  intros Hs [Hnn Hlen]. unfold transpose_102. rewrite Hs.
  rewrite Hs in Hlen, Hnn. cbn in Hlen.
  assert (Hd : List.length (data x)
               = (Z.to_nat a * Z.to_nat b * Z.to_nat c)%nat) by lia.
  eexists. split; [reflexivity |]. cbn [shape data]. split; [reflexivity |].
  split.
  - split; cbn [shape data].
    + inversion Hnn as [| ? ? Ha Hnn']; inversion Hnn' as [| ? ? Hb Hnn''];
        inversion Hnn'' as [| ? ? Hc _]; subst.
      repeat constructor; assumption.
    + rewrite (transpose_data_length _ _ _ _ Hd). cbn. lia.
  - rewrite (transpose_data_involutive _ _ _ _ Hd), <- Hs. f_equal. apply ndarray_eta.
Qed.

Lemma map_m_length {S A B : Type} (f : A -> M S B) l :
  forall s ys s', map_m f l s = (Ok ys, s') -> List.length ys = List.length l.
Proof.
  induction l as [| x l IH]; intros s ys s' H; cbn [map_m] in H.
  - inversion H. reflexivity.
  - apply bind_ok_inv in H. destruct H as (y & s1 & _ & H).
    apply bind_ok_inv in H. destruct H as (ys' & s2 & Hl & H).
    inversion H; subst. cbn. f_equal. eapply IH, Hl.
Qed.

(** The shape of a feature group, when it exists: the reversed bin
    counts of its features, then [n_scores] for more than two classes. *)
Lemma get_feature_group_shape_inv self g shp :
  fst (_get_feature_group_shape self g tt) = Ok shp ->
  exists group dims,
    py_getitem (_feature_groups self) g = Ok group
    /\ List.length dims = List.length group
    /\ shp = (if 2 <? _n_classes self
              then rev dims ++ [_n_classes self] else rev dims).
Proof.
  unfold _get_feature_group_shape, bind. unfold lift_result at 1.
  destruct (py_getitem (_feature_groups self) g) as [group | e]; [| discriminate].
  destruct (map_m _ group tt) as [[dims | e] []] eqn:Hmap; [| discriminate].
  cbn. intros H. injection H as H. exists group, dims.
  split; [reflexivity |]. split; [eapply map_m_length, Hmap |].
  rewrite <- H. unfold get_count_scores_c.
  destruct (Z.leb_spec (_n_classes self) 2), (Z.ltb_spec 2 (_n_classes self));
    try lia.
  - reflexivity.
  - destruct (Z.ltb_spec 1 (_n_classes self)); [reflexivity | lia].
Qed.

Lemma np_empty_ok_nonneg shp : Forall (fun d => 0 <= d) shp -> np_empty_ok shp = true.
Proof.
  intros H. unfold np_empty_ok. apply forallb_forall. intros d Hd.
  rewrite Forall_forall in H. apply Z.leb_le, H, Hd.
Qed.

Lemma shape_eqb_eq s1 s2 : shape_eqb s1 s2 = true <-> s1 = s2.
Proof.
  unfold shape_eqb. destruct (list_eq_dec Z.eq_dec s1 s2); split; auto; discriminate.
Qed.

(** ** Setting and reading the staged update *)

Lemma transpose_pair_pure {S : Type} n_classes t (s : S) :
  transpose_pair n_classes t s = (fst (transpose_pair n_classes t tt), s).
Proof.
  unfold transpose_pair, raise, lift_result. destruct t as [x |]; reflexivity.
Qed.

Section RoundTrip.

Variable N : Native.
Hypothesis faithful : stores_update_faithfully N.

(** What a successful [set_model_update_expanded] did in a session with
    more than one class (or a regression session): the array handed to
    the engine, its shape, and the state left. *)
Lemma set_model_update_expanded_inv self (w : world N) g t s1 :
  single_class self = false ->
  set_model_update_expanded N g t (self, w) = (Ok tt, s1) ->
  exists group shp x',
    py_getitem (_feature_groups self) g = Ok group
    /\ fst (_get_feature_group_shape self g tt) = Ok shp
    /\ (if len group =? 2
        then fst (transpose_pair (S := unit) (_n_classes self) t tt) = Ok x'
        else t = Some x')
    /\ shape x' = shp
    /\ fst (SetModelUpdateExpanded N (_booster_handle self) g x' (engine w)) = 0
    /\ s1 = (set_feature_group_index g self,
             mk_world
               (snd (SetModelUpdateExpanded N (_booster_handle self) g x' (engine w)))
               (calls w ++ [CallSetModelUpdateExpanded (_booster_handle self) g x' 0])).
Proof.
  intros Hsc H. unfold set_model_update_expanded in H.
  apply bind_ok_inv in H. destruct H as ([] & s & Ha & H).
  unfold assign_feature_group_index in Ha. cbn [fst snd] in Ha.
  injection Ha as <-.
  apply bind_ok_inv in H. destruct H as (self0 & s & Hs & H).
  unfold get_self in Hs. cbn [fst] in Hs. injection Hs as <- <-.
  change (single_class (set_feature_group_index (-1) self))
    with (single_class self) in H.
  rewrite Hsc in H.
  cbn [_feature_groups _n_classes _booster_handle set_feature_group_index] in H.
  apply bind_ok_inv in H. destruct H as (group & s & Hgroup & H).
  apply lift_result_inv in Hgroup. destruct Hgroup as [-> Hgroup].
  apply bind_ok_inv in H. destruct H as (t' & s & Ht & H).
  apply bind_ok_inv in H. destruct H as (shp & s' & Hshp & H).
  rewrite get_feature_group_shape_pure in Hshp.
  apply bind_ok_inv in H. destruct H as (x' & s'' & Hx & H).
  apply bind_ok_inv in H. destruct H as ([] & s3 & Hchk & H).
  apply raise_if_inv in Hchk. destruct Hchk as [-> [[_ Hc] | [Hchk _]]];
    [discriminate |].
  apply negb_false_iff, shape_eqb_eq in Hchk.
  apply bind_ok_inv in H. destruct H as (rc & s4 & Hcall & H).
  apply bind_ok_inv in H. destruct H as ([] & s5 & Hrc & H).
  apply raise_if_inv in Hrc. destruct Hrc as [-> [[_ Hc] | [Hrc _]]];
    [discriminate |].
  apply negb_false_iff, Z.eqb_eq in Hrc. subst rc.
  unfold assign_feature_group_index in H. injection H as <-.
  exists group, shp, x'.
  assert (Hs' : s' = s /\ fst (_get_feature_group_shape
                                 (set_feature_group_index (-1) self) g tt) = Ok shp).
  { injection Hshp as Hr Hs'. auto. }
  destruct Hs' as [-> Hshp'].
  assert (Hx' : s'' = s /\ t' = Some x').
  { destruct t' as [x0 |]; unfold ret, raise in Hx; inversion Hx; auto. }
  destruct Hx' as [-> ->].
  assert (Ht' : s = (set_feature_group_index (-1) self, w)
                /\ (if len group =? 2
                    then fst (transpose_pair (S := unit) (_n_classes self) t tt)
                         = Ok x'
                    else t = Some x')).
  { destruct (len group =? 2).
    - apply bind_ok_inv in Ht. destruct Ht as (x0 & s0 & Ht & Hr).
      rewrite transpose_pair_pure in Ht. unfold ret in Hr.
      inversion Hr; subst. inversion Ht; subst. auto.
    - unfold ret in Ht. inversion Ht; subst. auto. }
  destruct Ht' as [-> Ht'].
  unfold in_world, unsafe in Hcall. cbn [fst snd engine calls] in Hcall.
  cbn [_booster_handle set_feature_group_index] in Hcall.
  destruct (SetModelUpdateExpanded N (_booster_handle self) g x' (engine w))
    as [rc e1] eqn:Hset.
  injection Hcall as Hrc <-. subst rc.
  split; [symmetry; exact Hgroup |]. split; [exact Hshp' |].
  split; [exact Ht' |]. split; [symmetry; exact Hchk |].
  split; reflexivity.
Qed.

(** Reading the staged update of feature group [g] back, when the engine
    reports success and fills the buffer with [buffer]. *)
Lemma get_model_update_expanded_staged self (w : world N) g group shp buffer e2 :
  single_class self = false ->
  0 <= g ->
  py_getitem (_feature_groups self) g = Ok group ->
  fst (_get_feature_group_shape self g tt) = Ok shp ->
  np_empty_ok shp = true ->
  GetModelUpdateExpanded N (_booster_handle self) shp (engine w) = ((0, buffer), e2) ->
  fst (get_model_update_expanded N (set_feature_group_index g self, w))
  = (if len group =? 2
     then match fst (transpose_pair (S := unit) (_n_classes self)
                       (Some (mk_ndarray shp buffer)) tt) with
          | Ok x => Ok (Some x)
          | Raise e => Raise e
          end
     else Ok (Some (mk_ndarray shp buffer))).
Proof.
  intros Hsc Hg Hgroup Hshp Hempty Hget.
  unfold get_model_update_expanded.
  unfold bind at 1, get_self. cbn [fst].
  unfold bind at 1, raise_if.
  cbn [_feature_group_index set_feature_group_index].
  destruct (Z.ltb_spec g 0) as [Hneg | _]; [lia |]. unfold ret at 1.
  change (single_class (set_feature_group_index g self)) with (single_class self).
  rewrite Hsc.
  unfold bind at 1. rewrite get_feature_group_shape_pure.
  change (_get_feature_group_shape (set_feature_group_index g self) g tt)
    with (_get_feature_group_shape self g tt).
  rewrite Hshp.
  unfold bind at 1, raise_if. rewrite Hempty. cbn [negb]. unfold ret at 1.
  unfold bind at 1, in_world, unsafe. cbn [fst snd engine calls].
  cbn [_booster_handle set_feature_group_index]. rewrite Hget.
  unfold bind at 1, raise_if. cbn [Z.eqb negb]. unfold ret at 1.
  unfold bind at 1, lift_result.
  cbn [_feature_groups set_feature_group_index]. rewrite Hgroup.
  cbn [_n_classes set_feature_group_index].
  destruct (len group =? 2); [| reflexivity].
  unfold bind. rewrite transpose_pair_pure.
  destruct (fst (transpose_pair _ _ tt)); reflexivity.
Qed.

(** Once [set_model_update_expanded(g, t)] has returned for a value [t]
    of the caller-facing kind, the [get_model_update_expanded()] that
    follows returns [t]. *)
Lemma round_trip_when_set_returns :
  forall (self : NativeEBMBooster) (w : world N) (g : Z) (t : tensor) s1,
    0 <= g < len (_feature_groups self) ->
    caller_facing self g t ->
    set_model_update_expanded N g t (self, w) = (Ok tt, s1) ->
    fst (get_model_update_expanded N s1) = Ok t.
Proof.
  intros self w g t s1 Hg Hcf Hset. unfold caller_facing in Hcf.
  destruct (single_class self) eqn:Hsc.
  - subst t.
    assert (Hs1 : s1 = (set_feature_group_index g self, w)).
    { unfold set_model_update_expanded, bind, assign_feature_group_index,
        get_self in Hset. cbn [fst snd] in Hset.
      change (single_class (set_feature_group_index (-1) self))
        with (single_class self) in Hset.
      rewrite Hsc in Hset. inversion Hset. reflexivity. }
    subst s1. unfold get_model_update_expanded, bind, get_self, raise_if, ret.
    cbn [fst _feature_group_index set_feature_group_index].
    destruct (Z.ltb_spec g 0) as [Hneg | _]; [lia |].
    change (single_class (set_feature_group_index g self)) with (single_class self).
    rewrite Hsc. reflexivity.
  - destruct Hcf as (x & -> & Hwf & Hshape).
    destruct (set_model_update_expanded_inv _ _ _ _ _ Hsc Hset)
      as (group & shp & x' & Hgroup & Hshp & Hx' & Hsx' & Hrc & ->).
    unfold caller_facing_shape in Hshape. rewrite Hgroup, Hshp in Hshape.
    cbv beta iota in Hshape.
    pose proof (faithful _ _ _ _ Hrc) as Hget.
    destruct (GetModelUpdateExpanded N (_booster_handle self) (shape x')
                (snd (SetModelUpdateExpanded N (_booster_handle self) g x'
                        (engine w))))
      as [[rc buffer] e2] eqn:Hcall.
    cbn [fst] in Hget. injection Hget as -> ->.
    rewrite Hsx' in Hcall.
    destruct (get_feature_group_shape_inv _ _ _ Hshp)
      as (group' & dims & Hgroup' & Hdims & Hform).
    rewrite Hgroup in Hgroup'. injection Hgroup' as <-.
    destruct (len group =? 2) eqn:Hpair.
    + (* a pair: transposed on the way in and on the way out *)
      pose proof Hpair as Hlen. apply Z.eqb_eq in Hlen. unfold len in Hlen.
      assert (Hd2 : List.length (rev dims) = 2%nat) by (rewrite length_rev; lia).
      destruct (rev dims) as [| a [| b [| c rest]]]; try discriminate Hd2.
      unfold transpose_pair, lift_result in Hx'. cbn [fst] in Hx'.
      destruct (2 <? _n_classes self) eqn:Hmulti.
      * cbn [app] in Hform. rewrite Hform in Hshape, Hsx', Hshp, Hcall.
        cbv beta iota in Hshape. injection Hshape as Hshape.
        destruct (transpose_102_round_trip x b a (_n_classes self)
                    (eq_sym Hshape) Hwf)
          as (x1 & Hx1 & Hs1 & Hwf1 & Hback).
        rewrite Hx1 in Hx'. injection Hx' as <-.
        rewrite (get_model_update_expanded_staged self _ g group
                   [a; b; _n_classes self] (data x1) e2 Hsc (proj1 Hg) Hgroup Hshp);
          [| apply np_empty_ok_nonneg; rewrite <- Hs1; apply Hwf1 | exact Hcall].
        rewrite Hpair. unfold transpose_pair, lift_result. cbn [fst].
        rewrite Hmulti, <- Hs1, ndarray_eta, Hback. reflexivity.
      * rewrite Hform in Hshape, Hsx', Hshp, Hcall.
        cbv beta iota in Hshape. injection Hshape as Hshape.
        destruct (transpose_10_round_trip x b a (eq_sym Hshape) Hwf)
          as (x1 & Hx1 & Hs1 & Hwf1 & Hback).
        rewrite Hx1 in Hx'. injection Hx' as <-.
        rewrite (get_model_update_expanded_staged self _ g group
                   [a; b] (data x1) e2 Hsc (proj1 Hg) Hgroup Hshp);
          [| apply np_empty_ok_nonneg; rewrite <- Hs1; apply Hwf1 | exact Hcall].
        rewrite Hpair. unfold transpose_pair, lift_result. cbn [fst].
        rewrite Hmulti, <- Hs1, ndarray_eta, Hback. reflexivity.
    + (* any other group: handed over and read back as it is *)
      injection Hx' as <-. injection Hshape as Hshape.
      rewrite (get_model_update_expanded_staged self _ g group
                 shp (data x) e2 Hsc (proj1 Hg) Hgroup Hshp);
        [| apply np_empty_ok_nonneg; rewrite Hshape; apply Hwf | exact Hcall].
      rewrite Hpair, Hshape, ndarray_eta. reflexivity.
Qed.


End RoundTrip.

(** On an engine that accepts the update, [set_model_update_expanded]
    returns for every value of the caller-facing kind. *)
Lemma set_model_update_expanded_accepts (N : Native) self (w : world N) g t :
  0 <= g < len (_feature_groups self) ->
  caller_facing self g t ->
  (forall x, fst (SetModelUpdateExpanded N (_booster_handle self) g x (engine w)) = 0) ->
  exists s1, set_model_update_expanded N g t (self, w) = (Ok tt, s1).
Proof.
  intros Hg Hcf Haccept. unfold caller_facing in Hcf.
  unfold set_model_update_expanded.
  unfold bind at 1, assign_feature_group_index. cbn [fst snd].
  unfold bind at 1, get_self. cbn [fst].
  change (single_class (set_feature_group_index (-1) self)) with (single_class self).
  destruct (single_class self) eqn:Hsc.
  - subst t. eexists. reflexivity.
  - destruct Hcf as (x & -> & Hwf & Hshape).
    unfold caller_facing_shape in Hshape.
    cbn [_feature_groups _n_classes _booster_handle set_feature_group_index].
    destruct (py_getitem (_feature_groups self) g) as [group | e] eqn:Hgroup;
      [| discriminate].
    destruct (fst (_get_feature_group_shape self g tt)) as [shp | e] eqn:Hshp;
      [| discriminate].
    destruct (get_feature_group_shape_inv _ _ _ Hshp)
      as (group' & dims & Hgroup' & Hdims & Hform).
    rewrite Hgroup in Hgroup'. injection Hgroup' as <-.
    unfold bind at 1, lift_result.
    assert (Hx' : exists x',
               (if len group =? 2
                then fst (transpose_pair (S := unit) (_n_classes self) (Some x) tt)
                else Ok x) = Ok x'
               /\ shape x' = shp).
    { destruct (len group =? 2) eqn:Hpair.
      - pose proof Hpair as Hlen. apply Z.eqb_eq in Hlen. unfold len in Hlen.
        assert (Hd2 : List.length (rev dims) = 2%nat) by (rewrite length_rev; lia).
        destruct (rev dims) as [| a [| b [| c rest]]]; try discriminate Hd2.
        unfold transpose_pair, lift_result. cbn [fst].
        destruct (2 <? _n_classes self).
        + cbn [app] in Hform. rewrite Hform in Hshape |- *.
          injection Hshape as Hshape.
          destruct (transpose_102_round_trip x b a (_n_classes self)
                      (eq_sym Hshape) Hwf) as (x1 & Hx1 & Hs1 & _).
          exists x1. auto.
        + rewrite Hform in Hshape |- *. injection Hshape as Hshape.
          destruct (transpose_10_round_trip x b a (eq_sym Hshape) Hwf)
            as (x1 & Hx1 & Hs1 & _).
          exists x1. auto.
      - injection Hshape as Hshape. exists x. auto. }
    destruct Hx' as (x' & Hx' & Hsx').
    assert (Hstep :
      (if len group =? 2
       then bind (transpose_pair (_n_classes self) (Some x)) (fun t0 => ret (Some t0))
       else ret (Some x))
        (set_feature_group_index (-1) self, w)
      = (Ok (Some x'), (set_feature_group_index (-1) self, w))).
    { destruct (len group =? 2).
      - unfold bind. rewrite transpose_pair_pure, Hx'. reflexivity.
      - injection Hx' as ->. reflexivity. }
    eexists. eapply bind_ok_intro; [exact Hstep |].
    unfold bind at 1. rewrite get_feature_group_shape_pure.
    change (_get_feature_group_shape (set_feature_group_index (-1) self) g tt)
      with (_get_feature_group_shape self g tt).
    rewrite Hshp.
    unfold bind at 1, ret at 1.
    unfold bind at 1, raise_if.
    replace (shape_eqb shp (shape x')) with true
      by (symmetry; apply shape_eqb_eq; congruence).
    cbn [negb]. unfold ret at 1.
    unfold bind at 1, in_world, unsafe. cbn [fst snd engine calls].
    cbn [_booster_handle set_feature_group_index].
    specialize (Haccept x').
    rewrite (surjective_pairing
               (SetModelUpdateExpanded N (_booster_handle self) g x' (engine w))),
      Haccept.
    unfold bind, raise_if. cbn [Z.eqb negb]. unfold ret.
    reflexivity.
Qed.

(** The scripted engine keeps the update it is given. *)
Lemma scripted_stores_update_faithfully : stores_update_faithfully scripted.
Proof.
  intros h g t e Hrc. reflexivity.
Qed.

(** In a session with a model, [set_model_update_expanded] refuses no
    value of the caller-facing kind: the array reaches the engine, and
    the outcome is the engine's. *)
Lemma set_model_update_expanded_hands_over (N : Native) self (w : world N) g t :
  single_class self = false ->
  caller_facing self g t ->
  exists x',
    set_model_update_expanded N g t (self, w)
    = (let (rc, e1) :=
         SetModelUpdateExpanded N (_booster_handle self) g x' (engine w) in
       (if rc =? 0 then Ok tt
        else Raise (NativeException rc "SetModelUpdateExpanded"),
        (set_feature_group_index (if rc =? 0 then g else -1) self,
         mk_world e1
           (calls w
            ++ [CallSetModelUpdateExpanded (_booster_handle self) g x' rc])))).
Proof.
  intros Hsc Hcf. unfold caller_facing in Hcf. rewrite Hsc in Hcf.
  destruct Hcf as (x & -> & Hwf & Hshape).
  unfold set_model_update_expanded.
  unfold bind at 1, assign_feature_group_index. cbn [fst snd].
  unfold bind at 1, get_self. cbn [fst].
  change (single_class (set_feature_group_index (-1) self)) with (single_class self).
  rewrite Hsc.
  unfold caller_facing_shape in Hshape.
  cbn [_feature_groups _n_classes _booster_handle set_feature_group_index].
  destruct (py_getitem (_feature_groups self) g) as [group | e] eqn:Hgroup;
    [| discriminate].
  destruct (fst (_get_feature_group_shape self g tt)) as [shp | e] eqn:Hshp;
    [| discriminate].
  destruct (get_feature_group_shape_inv _ _ _ Hshp)
    as (group' & dims & Hgroup' & Hdims & Hform).
  rewrite Hgroup in Hgroup'. injection Hgroup' as <-.
  unfold bind at 1, lift_result.
  assert (Hx' : exists x',
             (if len group =? 2
              then fst (transpose_pair (S := unit) (_n_classes self) (Some x) tt)
              else Ok x) = Ok x'
             /\ shape x' = shp).
  { destruct (len group =? 2) eqn:Hpair.
    - pose proof Hpair as Hlen. apply Z.eqb_eq in Hlen. unfold len in Hlen.
      assert (Hd2 : List.length (rev dims) = 2%nat) by (rewrite length_rev; lia).
      destruct (rev dims) as [| a [| b [| c rest]]]; try discriminate Hd2.
      unfold transpose_pair, lift_result. cbn [fst].
      destruct (2 <? _n_classes self).
      + cbn [app] in Hform. rewrite Hform in Hshape |- *.
        injection Hshape as Hshape.
        destruct (transpose_102_round_trip x b a (_n_classes self)
                    (eq_sym Hshape) Hwf) as (x1 & Hx1 & Hs1 & _).
        exists x1. auto.
      + rewrite Hform in Hshape |- *. injection Hshape as Hshape.
        destruct (transpose_10_round_trip x b a (eq_sym Hshape) Hwf)
          as (x1 & Hx1 & Hs1 & _).
        exists x1. auto.
    - injection Hshape as Hshape. exists x. auto. }
  destruct Hx' as (x' & Hx' & Hsx').
  assert (Hstep :
    (if len group =? 2
     then bind (transpose_pair (_n_classes self) (Some x)) (fun t0 => ret (Some t0))
     else ret (Some x))
      (set_feature_group_index (-1) self, w)
    = (Ok (Some x'), (set_feature_group_index (-1) self, w))).
  { destruct (len group =? 2).
    - unfold bind. rewrite transpose_pair_pure, Hx'. reflexivity.
    - injection Hx' as ->. reflexivity. }
  exists x'.
  destruct (SetModelUpdateExpanded N (_booster_handle self) g x' (engine w))
    as [rc e1] eqn:Hcall.
  eapply bind_ok_intro; [exact Hstep |].
  unfold bind at 1. rewrite get_feature_group_shape_pure.
  change (_get_feature_group_shape (set_feature_group_index (-1) self) g tt)
    with (_get_feature_group_shape self g tt).
  rewrite Hshp.
  unfold bind at 1, ret at 1.
  unfold bind at 1, raise_if.
  replace (shape_eqb shp (shape x')) with true
    by (symmetry; apply shape_eqb_eq; congruence).
  cbn [negb]. unfold ret at 1.
  unfold bind at 1, in_world, unsafe. cbn [fst snd engine calls].
  cbn [_booster_handle set_feature_group_index]. rewrite Hcall.
  unfold bind, raise_if, raise, ret, assign_feature_group_index,
    _get_native_exception.
  destruct (rc =? 0); reflexivity.
Qed.

(** C5.  For a feature group [g] of the session and a value [t] of the
    caller-facing kind for [g] (an array of the caller-facing shape, or
    [None] in a session with at most one class), on an engine that keeps
    the expanded update it is given: [set_model_update_expanded(g, t)]
    accepts [t], that is, it returns unless the engine itself reports
    an error on the one [SetModelUpdateExpanded] call it then made, and
    when it returns, the [get_model_update_expanded()] that follows
    returns [t]. *)
Theorem set_then_get_round_trip :
  forall (N : Native),
    stores_update_faithfully N ->
    forall (self : NativeEBMBooster) (w : world N) (g : Z) (t : tensor),
      0 <= g < len (_feature_groups self) ->
      caller_facing self g t ->
      let out := set_model_update_expanded N g t (self, w) in
      match fst out with
      | Ok _ => fst (get_model_update_expanded N (snd out)) = Ok t
      | Raise e =>
          single_class self = false
          /\ exists rc x',
               rc <> 0
               /\ e = NativeException rc "SetModelUpdateExpanded"
               /\ calls (snd (snd out))
                  = calls w
                    ++ [CallSetModelUpdateExpanded (_booster_handle self) g x' rc]
      end.
Proof.
  intros N faithful self w g t Hg Hcf out.
  destruct out as [r s1] eqn:Hout. subst out. cbn [fst snd].
  destruct (single_class self) eqn:Hsc.
  - pose proof Hcf as Hnone. unfold caller_facing in Hnone. rewrite Hsc in Hnone.
    assert (Hr : r = Ok tt).
    { subst t. unfold set_model_update_expanded, bind, assign_feature_group_index,
        get_self in Hout. cbn [fst snd] in Hout.
      change (single_class (set_feature_group_index (-1) self))
        with (single_class self) in Hout.
      rewrite Hsc in Hout. inversion Hout. reflexivity. }
    subst r. eapply round_trip_when_set_returns; eassumption.
  - destruct (set_model_update_expanded_hands_over N self w g t Hsc Hcf)
      as (x' & Hset).
    rewrite Hout in Hset.
    destruct (SetModelUpdateExpanded N (_booster_handle self) g x' (engine w))
      as [rc e1].
    destruct (Z.eqb_spec rc 0) as [Hrc | Hrc]; injection Hset as -> ->.
    + eapply round_trip_when_set_returns; eassumption.
    + split; [reflexivity |]. exists rc, x'. cbn [fst snd calls]. auto.
Qed.

(** Witness for C5: the pair group [[0; 1]] over a 2-bin and a 4-bin
    feature, in a session with three classes and in a regression
    session.  A tensor of the caller-facing shape, [(2, 4, 3)] in the
    one and [(2, 4)] in the other, is accepted; the engine is handed the
    transposed array, of shape [(4, 2, 3)] and [(4, 2)]; reading it back
    gives the tensor that was set. *)
Lemma set_then_get_round_trip_witness :
  let three_classes := mk_NativeEBMBooster (Some 1) (-1) "classification" 3 [2; 4]
                         [[0]; [1]; [0; 1]] in
  let regression := mk_NativeEBMBooster (Some 1) (-1) "regression" 0 [2; 4]
                      [[0]; [1]; [0; 1]] in
  let t3 := Some (mk_ndarray [2; 4; 3] (int_metrics (range 24))) in
  let t2 := Some (mk_ndarray [2; 4] (int_metrics (range 8))) in
  let set3 := set_model_update_expanded scripted 2 t3
                (three_classes, scripted_world [] []) in
  let set2 := set_model_update_expanded scripted 2 t2
                (regression, scripted_world [] []) in
  fst set3 = Ok tt
  /\ fst (get_model_update_expanded scripted (snd set3)) = Ok t3
  /\ staged_update (engine (snd (snd set3))) <> int_metrics (range 24)
  /\ fst set2 = Ok tt
  /\ fst (get_model_update_expanded scripted (snd set2)) = Ok t2
  /\ staged_update (engine (snd (snd set2))) <> int_metrics (range 8).
Proof.
  intros three_classes regression t3 t2 set3 set2.
  pose proof (set_then_get_round_trip scripted scripted_stores_update_faithfully
                three_classes (scripted_world [] []) 2 t3) as H3.
  pose proof (set_then_get_round_trip scripted scripted_stores_update_faithfully
                regression (scripted_world [] []) 2 t2) as H2.
  cbv zeta in H3, H2. fold set3 in H3. fold set2 in H2.
  assert (Hset3 : fst set3 = Ok tt) by (vm_compute; reflexivity).
  assert (Hset2 : fst set2 = Ok tt) by (vm_compute; reflexivity).
  rewrite Hset3 in H3. rewrite Hset2 in H2.
  split; [exact Hset3 |]. split.
  { apply H3; [cbn; lia |].
    unfold caller_facing. cbn. eexists. split; [reflexivity |].
    split; [| reflexivity].
    split; [repeat constructor; lia | vm_compute; reflexivity]. }
  split; [vm_compute; discriminate |].
  split; [exact Hset2 |]. split.
  { apply H2; [cbn; lia |].
    unfold caller_facing. cbn. eexists. split; [reflexivity |].
    split; [| reflexivity].
    split; [repeat constructor; lia | vm_compute; reflexivity]. }
  vm_compute. discriminate.
Defined.

(** * Further properties *)

(** ** How the log grows *)

Section LogFacts.

Variable N : Native.

Lemma adds_refl {S : Type} P (s : S * world N) : adds P s s.
Proof. exists []. rewrite app_nil_r. auto. Qed.

Lemma adds_same_log {S : Type} P (s s' : S * world N) :
  calls (snd s') = calls (snd s) -> adds P s s'.
Proof. intros H. exists []. rewrite app_nil_r. auto. Qed.

Lemma adds_trans {S S' S'' : Type} P (s1 : S * world N) (s2 : S' * world N)
  (s3 : S'' * world N) :
  (exists new, calls (snd s2) = calls (snd s1) ++ new /\ Forall P new) ->
  (exists new, calls (snd s3) = calls (snd s2) ++ new /\ Forall P new) ->
  exists new, calls (snd s3) = calls (snd s1) ++ new /\ Forall P new.
Proof.
  intros (n1 & H1 & F1) (n2 & H2 & F2). exists (n1 ++ n2). split.
  - rewrite H2, H1, app_assoc. reflexivity.
  - apply Forall_app. auto.
Qed.

Lemma bind_adds {S A B : Type} P (m : M (S * world N) A)
  (f : A -> M (S * world N) B) s r s' :
  (forall s0 r0 s0', m s0 = (r0, s0') -> adds P s0 s0') ->
  (forall a s0 r0 s0', f a s0 = (r0, s0') -> adds P s0 s0') ->
  bind m f s = (r, s') -> adds P s s'.
Proof.
  intros Hm Hf H. apply bind_inv in H.
  destruct H as [(e & H & _) | (a & s1 & H & Hk)].
  - eapply Hm, H.
  - eapply (adds_trans P s s1 s'); [eapply Hm, H | eapply Hf, Hk].
Qed.

Lemma emits_nil {S : Type} (s : S * world N) : emits [] s s.
Proof. exists []. rewrite app_nil_r. repeat split. constructor. Qed.

Lemma emits_app {S : Type} k1 k2 (s1 s2 s3 : S * world N) :
  emits k1 s1 s2 -> emits k2 s2 s3 -> emits (k1 ++ k2) s1 s3.
Proof.
  intros (n1 & H1 & K1 & F1) (n2 & H2 & K2 & F2). exists (n1 ++ n2).
  split; [rewrite H2, H1, app_assoc; reflexivity |].
  split; [rewrite map_app, K1, K2; reflexivity | apply Forall_app; auto].
Qed.

(** *** The methods of a session, whatever their outcome *)

Lemma generate_model_update_adds g o lr msl ml (s : bstate N) r s' :
  generate_model_update N g o lr msl ml s = (r, s') -> adds session_call s s'.
Proof.
  unfold generate_model_update, bind, assign_feature_group_index, get_self,
    lift_result, in_world, unsafe, raise_if, raise, ret.
  cbn. destruct (py_getitem _ g) as [group | e]; cbn.
  - destruct (GenerateModelUpdate N _ _ _ _ _ _ _) as [[rc gain] e1]; cbn.
    destruct (rc =? 0); cbn; intros H; inversion H; subst; cbn;
      (eexists; split; [reflexivity | repeat constructor]).
  - intros H; inversion H; subst. apply adds_same_log. reflexivity.
Qed.

Lemma apply_model_update_adds (s : bstate N) r s' :
  apply_model_update N s = (r, s') -> adds session_call s s'.
Proof.
  unfold apply_model_update, bind, assign_feature_group_index, get_self,
    in_world, unsafe, raise_if, raise, ret.
  cbn. destruct (ApplyModelUpdate N _ _) as [[rc m] e1]; cbn.
  destruct (rc =? 0); cbn; intros H; inversion H; subst; cbn;
    (eexists; split; [reflexivity | repeat constructor]).
Qed.

Lemma boost_sweep_adds o lr msl ml indexes :
  forall mm (s : bstate N) r s',
    boost_sweep N o lr msl ml indexes mm s = (r, s') -> adds session_call s s'.
Proof.
  induction indexes as [| g indexes IH]; intros mm s r s' H; cbn [boost_sweep] in H.
  - inversion H; subst. apply adds_refl.
  - eapply bind_adds; [| | exact H].
    + intros s0 r0 s0'. apply generate_model_update_adds.
    + intros gain s0 r0 s0' H0. eapply bind_adds; [| | exact H0].
      * intros s1 r1 s1'. apply apply_model_update_adds.
      * intros curr s1 r1 s1'. apply IH.
Qed.

Lemma boost_rounds_adds o lr msl ml R tol n_groups episodes :
  forall v (s : bstate N) r s',
    boost_rounds N o lr msl ml R tol n_groups episodes v s = (r, s') ->
    adds session_call s s'.
Proof.
  induction episodes as [| ep episodes IH]; intros v s r s' H;
    cbn [boost_rounds] in H.
  - inversion H; subst. apply adds_refl.
  - eapply bind_adds; [| | exact H].
    + intros s0 r0 s0'. apply boost_sweep_adds.
    + intros mm s0 r0 s0' H0. cbv beta in H0.
      destruct (early_stopping_update tol mm v) as [bp rl].
      destruct (early_stop R rl).
      * inversion H0; subst. apply adds_refl.
      * eapply IH, H0.
Qed.

Lemma get_model_feature_group_adds entry_point entry name g (s : bstate N) r s' :
  (forall h i shp rc, session_call (entry h i shp rc)) ->
  _get_model_feature_group N entry_point entry name g s = (r, s') ->
  adds session_call s s'.
Proof.
  intros Hentry. unfold _get_model_feature_group, bind at 1, get_self.
  destruct (single_class (fst s)).
  - intros H; inversion H; subst. apply adds_refl.
  - unfold bind at 1. rewrite get_feature_group_shape_pure.
    destruct (fst (_get_feature_group_shape (fst s) g tt)) as [shp | e];
      [| intros H; inversion H; subst; apply adds_refl].
    unfold bind at 1, raise_if, raise, ret.
    destruct (negb (np_empty_ok shp));
      [intros H; inversion H; subst; apply adds_refl |].
    unfold bind at 1, in_world, unsafe. cbn [snd fst].
    destruct (entry_point _ g shp (engine (snd s))) as [[rc buffer] e1].
    assert (Hq : adds session_call s
                   (fst s, mk_world e1
                      (calls (snd s) ++ [entry (_booster_handle (fst s)) g shp rc]))).
    { eexists. split; [reflexivity |]. constructor; [apply Hentry | constructor]. }
    unfold bind at 1. cbn [fst snd].
    destruct (negb (rc =? 0)); [intros H; inversion H; subst; exact Hq |].
    unfold bind at 1, lift_result.
    destruct (py_getitem (_feature_groups (fst s)) g) as [group | e];
      [| intros H; inversion H; subst; exact Hq].
    destruct (len group =? 2).
    + unfold bind, transpose_pair, lift_result, ret.
      destruct (if 2 <? _n_classes (fst s) then _ else _);
        intros H; inversion H; subst; exact Hq.
    + intros H; inversion H; subst; exact Hq.
Qed.

Lemma map_m_adds {A B : Type} P (f : A -> M (bstate N) B) l :
  (forall x s r s', f x s = (r, s') -> adds P s s') ->
  forall s r s', map_m f l s = (r, s') -> adds P s s'.
Proof.
  intros Hf. induction l as [| x l IH]; intros s r s' H; cbn [map_m] in H.
  - inversion H; subst. apply adds_refl.
  - eapply bind_adds; [| | exact H].
    + intros s0 r0 s0'. apply Hf.
    + intros y s0 r0 s0' H0. eapply bind_adds; [| | exact H0].
      * apply IH.
      * intros ys s1 r1 s1' H1. inversion H1; subst. apply adds_refl.
Qed.

Lemma get_best_model_adds (s : bstate N) r s' :
  get_best_model N s = (r, s') -> adds session_call s s'.
Proof.
  apply (map_m_adds _ (_get_best_model_feature_group N)).
  intros x s0 r0 s0'. apply get_model_feature_group_adds.
  intros; exact I.
Qed.

Lemma get_current_model_adds (s : bstate N) r s' :
  get_current_model N s = (r, s') -> adds session_call s s'.
Proof.
  apply (map_m_adds _ (_get_current_model_feature_group N)).
  intros x s0 r0 s0'. apply get_model_feature_group_adds.
  intros; exact I.
Qed.

Lemma with_closing_inv {Obj A : Type} (ctor : M (world N) Obj)
  (close_obj : M (Obj * world N) unit) (body : M (Obj * world N) A) w r w' :
  with_closing N ctor close_obj body w = (r, w') ->
  (exists e, ctor w = (Raise e, w') /\ r = Raise e)
  \/ exists obj w1 s2,
       ctor w = (Ok obj, w1)
       /\ body (obj, w1) = (r, s2)
       /\ w' = snd (snd (close_obj s2)).
Proof.
  unfold with_closing. destruct (ctor w) as [[obj | e] w1].
  - destruct (body (obj, w1)) as [r0 s2] eqn:Hbody.
    destruct (close_obj s2) as [u s3] eqn:Hclose.
    intros H. inversion H; subst. right. exists obj, w1, s2.
    rewrite Hclose. repeat split. exact Hbody.
  - intros H. inversion H; subst. left. eauto.
Qed.

End LogFacts.

(** ** Opening a session: validation first, then one native call *)

Lemma create_check_outcome (N : Native)
  (f : native_state N -> (Z * handle) * native_state N)
  (entry : Z * handle -> native_call) (name : string) (w : world N) r w1 :
  (p <- unsafe N f entry ;;
   match p with
   | (return_code, h) =>
       raise_if (negb (return_code =? 0)) (_get_native_exception return_code name) ;;
       ret h
   end) w = (r, w1) ->
  exists rc h e1,
    f (engine w) = ((rc, h), e1)
    /\ w1 = mk_world e1 (calls w ++ [entry (rc, h)])
    /\ ((rc = 0 /\ r = Ok h) \/ (rc <> 0 /\ r = Raise (NativeException rc name))).
Proof.
  unfold bind, unsafe, raise_if, raise, ret, _get_native_exception.
  destruct (f (engine w)) as [[rc h] e1].
  destruct (Z.eqb_spec rc 0) as [Hrc | Hrc]; cbn; intros H; inversion H;
    exists rc, h, e1; (split; [reflexivity |]); (split; [reflexivity |]).
  - left. split; [exact Hrc | reflexivity].
  - right. split; [exact Hrc | reflexivity].
Qed.



Section OpenOutcome.

Variable N : Native.
Variables (model_type : string) (n_classes : Z)
          (features_categorical : list bool) (features_bin_count : list Z)
          (feature_groups : list (list Z))
          (X_train : ndarray Z) (y_train w_train : ndarray double)
          (scores_train : tensor)
          (X_val : ndarray Z) (y_val w_val : ndarray double) (scores_val : tensor)
          (n_inner_bags random_state : Z)
          (optional_temp_params : option (list double)).

Local Abbreviation init :=
  (NativeEBMBooster__init__ N model_type n_classes features_categorical
     features_bin_count feature_groups X_train y_train w_train scores_train
     X_val y_val w_val scores_val n_inner_bags random_state optional_temp_params).


End OpenOutcome.


(** ** The calls of a run of the orchestrator *)

Section EmitFacts.

Variable N : Native.

Lemma generate_model_update_emits g o lr msl ml (s : bstate N) gain s' :
  generate_model_update N g o lr msl ml s = (Ok gain, s') ->
  emits [KGenerate g] s s'.
Proof.
  unfold generate_model_update, bind, assign_feature_group_index, get_self,
    lift_result, in_world, unsafe, raise_if, raise, ret.
  cbn. destruct (py_getitem _ g) as [group | e]; cbn; [| discriminate].
  destruct (GenerateModelUpdate N _ _ _ _ _ _ _) as [[rc gn] e1]; cbn.
  destruct (Z.eqb_spec rc 0) as [-> | Hrc]; cbn; intros H; inversion H; subst.
  eexists. split; [reflexivity |]. split; [reflexivity |].
  repeat constructor.
Qed.

Lemma apply_model_update_emits (s : bstate N) m s' :
  apply_model_update N s = (Ok m, s') -> emits [KApply] s s'.
Proof.
  unfold apply_model_update, bind, assign_feature_group_index, get_self,
    in_world, unsafe, raise_if, raise, ret.
  cbn. destruct (ApplyModelUpdate N _ _) as [[rc m0] e1]; cbn.
  destruct (Z.eqb_spec rc 0) as [-> | Hrc]; cbn; intros H; inversion H; subst.
  eexists. split; [reflexivity |]. split; [reflexivity |].
  repeat constructor.
Qed.

Lemma boost_sweep_emits o lr msl ml indexes :
  forall mm (s : bstate N) mm' s',
    boost_sweep N o lr msl ml indexes mm s = (Ok mm', s') ->
    emits (sweep_kinds indexes) s s'.
Proof.
  induction indexes as [| g indexes IH]; intros mm s mm' s' H;
    cbn [boost_sweep] in H.
  - inversion H; subst. apply emits_nil.
  - apply bind_ok_inv in H. destruct H as (gain & s1 & Hgen & H).
    apply bind_ok_inv in H. destruct H as (curr & s2 & Happ & H).
    change (sweep_kinds (g :: indexes))
      with ([KGenerate g] ++ [KApply] ++ sweep_kinds indexes).
    eapply emits_app; [eapply generate_model_update_emits, Hgen |].
    eapply emits_app; [eapply apply_model_update_emits, Happ |].
    eapply IH, H.
Qed.

Lemma boost_rounds_emits o lr msl ml R tol n_groups episodes :
  forall v (s : bstate N) v' s',
    boost_rounds N o lr msl ml R tol n_groups episodes v s = (Ok v', s') ->
    exists added,
      rounds v' = rounds v ++ added
      /\ emits (flat_map (fun _ => sweep_kinds (range n_groups)) added) s s'.
Proof.
  induction episodes as [| ep episodes IH]; intros v s v' s' H;
    cbn [boost_rounds] in H.
  - inversion H; subst. exists []. rewrite app_nil_r. split; [reflexivity |].
    apply emits_nil.
  - apply bind_ok_inv in H. destruct H as (mm & s1 & Hsweep & H).
    apply boost_sweep_emits in Hsweep.
    destruct (early_stopping_update tol mm v) as [bp rl].
    destruct (early_stop R rl).
    + inversion H; subst. cbn [rounds]. eexists. split; [reflexivity |].
      cbn [flat_map]. rewrite app_nil_r. exact Hsweep.
    + destruct (IH _ _ _ _ H) as (added & Hadd & Hem).
      cbn [rounds] in Hadd. eexists (_ :: added). split.
      * rewrite Hadd, <- app_assoc. reflexivity.
      * cbn [flat_map]. eapply emits_app; eassumption.
Qed.

Lemma get_model_feature_group_emits entry_point entry name kind g
  (s : bstate N) t s' :
  (forall h i shp rc, kind_of (entry h i shp rc) = kind i) ->
  (forall h i shp rc, return_code_of (entry h i shp rc) = rc) ->
  _get_model_feature_group N entry_point entry name g s = (Ok t, s') ->
  emits (if single_class (fst s) then [] else [kind g]) s s'.
Proof.
  intros Hkind Hcode. unfold _get_model_feature_group, bind at 1, get_self.
  destruct (single_class (fst s)).
  - intros H; inversion H; subst. apply emits_nil.
  - unfold bind at 1. rewrite get_feature_group_shape_pure.
    destruct (fst (_get_feature_group_shape (fst s) g tt)) as [shp | e];
      [| discriminate].
    unfold bind at 1, raise_if, raise, ret.
    destruct (negb (np_empty_ok shp)); [discriminate |].
    unfold bind at 1, in_world, unsafe. cbn [snd fst].
    destruct (entry_point _ g shp (engine (snd s))) as [[rc buffer] e1].
    unfold bind at 1. cbn [fst snd].
    destruct (Z.eqb_spec rc 0) as [-> | Hrc]; cbn [negb]; [| discriminate].
    assert (Hq : emits [kind g] s
                   (fst s, mk_world e1
                      (calls (snd s) ++ [entry (_booster_handle (fst s)) g shp 0]))).
    { eexists. split; [reflexivity |]. cbn [map]. rewrite Hkind.
      split; [reflexivity |]. constructor; [apply Hcode | constructor]. }
    unfold bind at 1, lift_result.
    destruct (py_getitem (_feature_groups (fst s)) g) as [group | e];
      [| discriminate].
    destruct (len group =? 2).
    + unfold bind, transpose_pair, lift_result, ret.
      destruct (if 2 <? _n_classes (fst s) then _ else _);
        intros H; inversion H; subst; exact Hq.
    + intros H; inversion H; subst; exact Hq.
Qed.

Lemma map_m_emits {B : Type} (f : Z -> M (bstate N) B) kind l :
  (forall x s y s', f x s = (Ok y, s') ->
                    fst s' = fst s
                    /\ emits (if single_class (fst s) then [] else [kind x]) s s') ->
  forall s ys s',
    map_m f l s = (Ok ys, s') ->
    fst s' = fst s
    /\ emits (if single_class (fst s) then [] else map kind l) s s'.
Proof.
  intros Hf. induction l as [| x l IH]; intros s ys s' H; cbn [map_m] in H.
  - inversion H; subst. split; [reflexivity |].
    destruct (single_class (fst s')); apply emits_nil.
  - apply bind_ok_inv in H. destruct H as (y & s1 & Hx & H).
    apply bind_ok_inv in H. destruct H as (ys' & s2 & Hl & H).
    inversion H; subst; clear H.
    destruct (Hf _ _ _ _ Hx) as [Hfst1 Hem1].
    destruct (IH _ _ _ Hl) as [Hfst2 Hem2].
    split; [congruence |]. rewrite Hfst1 in Hem2.
    destruct (single_class (fst s)).
    + apply (emits_app N [] [] s s1 s'); assumption.
    + apply (emits_app N [kind x] (map kind l) s s1 s'); assumption.
Qed.

Lemma get_best_model_emits (s : bstate N) model s' :
  get_best_model N s = (Ok model, s') ->
  emits (if single_class (fst s) then []
         else map KGetBest (range (len (_feature_groups (fst s))))) s s'.
Proof.
  intros H.
  apply (map_m_emits (_get_best_model_feature_group N) KGetBest) in H; [apply H |].
  intros x s0 y s0' H0. split.
  - eapply get_model_feature_group_quiet in H0; [apply H0 | reflexivity].
  - eapply get_model_feature_group_emits in H0; [exact H0 | reflexivity | reflexivity].
Qed.

Lemma get_current_model_emits (s : bstate N) model s' :
  get_current_model N s = (Ok model, s') ->
  emits (if single_class (fst s) then []
         else map KGetCurrent (range (len (_feature_groups (fst s))))) s s'.
Proof.
  intros H.
  apply (map_m_emits (_get_current_model_feature_group N) KGetCurrent) in H;
    [apply H |].
  intros x s0 y s0' H0. split.
  - eapply get_model_feature_group_quiet in H0; [apply H0 | reflexivity].
  - eapply get_model_feature_group_emits in H0; [exact H0 | reflexivity | reflexivity].
Qed.

End EmitFacts.

(** ** Calls on the handle of the session *)

Section SessionFacts.

Variable N : Native.

Lemma works_on_session_refl (s : bstate N) : works_on_session s s.
Proof. split; [reflexivity |]. exists []. rewrite app_nil_r. auto. Qed.

Lemma works_on_session_trans (s1 s2 s3 : bstate N) :
  works_on_session s1 s2 -> works_on_session s2 s3 -> works_on_session s1 s3.
Proof.
  intros [Hh1 (n1 & Hl1 & Hf1)] [Hh2 (n2 & Hl2 & Hf2)].
  split; [congruence |].
  exists (n1 ++ n2). split; [rewrite Hl2, Hl1, app_assoc; reflexivity |].
  apply Forall_app. split; [exact Hf1 |]. rewrite Hh1 in Hf2. exact Hf2.
Qed.

Lemma bind_works_on_session {A B : Type} (m : M (bstate N) A)
  (f : A -> M (bstate N) B) s r s' :
  (forall s0 r0 s0', m s0 = (r0, s0') -> works_on_session s0 s0') ->
  (forall a s0 r0 s0', f a s0 = (r0, s0') -> works_on_session s0 s0') ->
  bind m f s = (r, s') -> works_on_session s s'.
Proof.
  intros Hm Hf H. apply bind_inv in H.
  destruct H as [(e & H & _) | (a & s1 & H & Hk)].
  - eapply Hm, H.
  - eapply works_on_session_trans; [eapply Hm, H | eapply Hf, Hk].
Qed.

Lemma generate_model_update_works_on_session g o lr msl ml (s : bstate N) r s' :
  generate_model_update N g o lr msl ml s = (r, s') -> works_on_session s s'.
Proof.
  unfold generate_model_update, bind, assign_feature_group_index, get_self,
    lift_result, in_world, unsafe, raise_if, raise, ret.
  cbn. destruct (py_getitem _ g) as [group | e]; cbn.
  - destruct (GenerateModelUpdate N _ _ _ _ _ _ _) as [[rc gain] e1]; cbn.
    destruct (rc =? 0); cbn; intros H; inversion H; subst;
      (split; [reflexivity |]); cbn;
      (eexists; split; [reflexivity |]); repeat constructor.
  - intros H; inversion H; subst. split; [reflexivity |].
    exists []. cbn. rewrite app_nil_r. auto.
Qed.

Lemma apply_model_update_works_on_session (s : bstate N) r s' :
  apply_model_update N s = (r, s') -> works_on_session s s'.
Proof.
  unfold apply_model_update, bind, assign_feature_group_index, get_self,
    in_world, unsafe, raise_if, raise, ret.
  cbn. destruct (ApplyModelUpdate N _ _) as [[rc metric] e1]; cbn.
  destruct (rc =? 0); cbn; intros H; inversion H; subst;
    (split; [reflexivity |]); cbn;
    (eexists; split; [reflexivity |]); repeat constructor.
Qed.

Lemma boost_sweep_works_on_session o lr msl ml indexes :
  forall mm (s : bstate N) r s',
    boost_sweep N o lr msl ml indexes mm s = (r, s') -> works_on_session s s'.
Proof.
  induction indexes as [| g indexes IH]; intros mm s r s' H; cbn [boost_sweep] in H.
  - inversion H; subst. apply works_on_session_refl.
  - eapply bind_works_on_session; [| | exact H].
    + intros s0 r0 s0'. apply generate_model_update_works_on_session.
    + intros gain s0 r0 s0' H0. eapply bind_works_on_session; [| | exact H0].
      * intros s1 r1 s1'. apply apply_model_update_works_on_session.
      * intros m s1 r1 s1'. apply IH.
Qed.

Lemma boost_rounds_works_on_session o lr msl ml R tol n_groups episodes :
  forall v (s : bstate N) r s',
    boost_rounds N o lr msl ml R tol n_groups episodes v s = (r, s') ->
    works_on_session s s'.
Proof.
  induction episodes as [| ep episodes IH]; intros v s r s' H;
    cbn [boost_rounds] in H.
  - inversion H; subst. apply works_on_session_refl.
  - eapply bind_works_on_session; [| | exact H].
    + intros s0 r0 s0'. apply boost_sweep_works_on_session.
    + intros mm s0 r0 s0' H0. cbv beta in H0.
      destruct (early_stopping_update tol mm v) as [bp rl].
      destruct (early_stop R rl).
      * inversion H0; subst. apply works_on_session_refl.
      * eapply IH, H0.
Qed.

Lemma get_model_feature_group_works_on_session entry_point entry name g
  (s : bstate N) r s' :
  (forall h i shp rc,
     session_call (entry h i shp rc) /\ handle_of (entry h i shp rc) = Some h) ->
  _get_model_feature_group N entry_point entry name g s = (r, s') ->
  works_on_session s s'.
Proof.
  intros Hentry. unfold _get_model_feature_group, bind at 1, get_self.
  destruct (single_class (fst s)).
  - intros H; inversion H; subst. apply works_on_session_refl.
  - unfold bind at 1. rewrite get_feature_group_shape_pure.
    destruct (fst (_get_feature_group_shape (fst s) g tt)) as [shp | e];
      [| intros H; inversion H; subst; apply works_on_session_refl].
    unfold bind at 1, raise_if, raise, ret.
    destruct (negb (np_empty_ok shp));
      [intros H; inversion H; subst; apply works_on_session_refl |].
    unfold bind at 1, in_world, unsafe. cbn [snd fst].
    destruct (entry_point _ g shp (engine (snd s))) as [[rc buffer] e1].
    assert (Hq : works_on_session s
                   (fst s, mk_world e1
                      (calls (snd s) ++ [entry (_booster_handle (fst s)) g shp rc]))).
    { split; [reflexivity |]. eexists. split; [reflexivity |].
      constructor; [apply Hentry | constructor]. }
    unfold bind at 1. cbn [fst snd].
    destruct (negb (rc =? 0)); [intros H; inversion H; subst; exact Hq |].
    unfold bind at 1, lift_result.
    destruct (py_getitem (_feature_groups (fst s)) g) as [group | e];
      [| intros H; inversion H; subst; exact Hq].
    destruct (len group =? 2).
    + unfold bind, transpose_pair, lift_result, ret.
      destruct (if 2 <? _n_classes (fst s) then _ else _);
        intros H; inversion H; subst; exact Hq.
    + intros H; inversion H; subst; exact Hq.
Qed.

Lemma map_m_works_on_session {A B : Type} (f : A -> M (bstate N) B) l :
  (forall x s r s', f x s = (r, s') -> works_on_session s s') ->
  forall s r s', map_m f l s = (r, s') -> works_on_session s s'.
Proof.
  intros Hf. induction l as [| x l IH]; intros s r s' H; cbn [map_m] in H.
  - inversion H; subst. apply works_on_session_refl.
  - eapply bind_works_on_session; [| | exact H].
    + intros s0 r0 s0'. apply Hf.
    + intros y s0 r0 s0' H0. eapply bind_works_on_session; [| | exact H0].
      * apply IH.
      * intros ys s1 r1 s1' H1. inversion H1; subst. apply works_on_session_refl.
Qed.

Lemma get_best_model_works_on_session (s : bstate N) r s' :
  get_best_model N s = (r, s') -> works_on_session s s'.
Proof.
  unfold get_best_model. unfold bind at 1, get_self.
  apply (map_m_works_on_session (_get_best_model_feature_group N)).
  intros x s0 r0 s0'. apply get_model_feature_group_works_on_session.
  intros h i shp rc. split; [exact I | reflexivity].
Qed.

Lemma get_current_model_works_on_session (s : bstate N) r s' :
  get_current_model N s = (r, s') -> works_on_session s s'.
Proof.
  unfold get_current_model. unfold bind at 1, get_self.
  apply (map_m_works_on_session (_get_current_model_feature_group N)).
  intros x s0 r0 s0'. apply get_model_feature_group_works_on_session.
  intros h i shp rc. split; [exact I | reflexivity].
Qed.

(** A session that [__init__] returned holds the handle the engine
    handed out on the one create call. *)
Lemma init_handle model_type n_classes features_categorical features_bin_count
  feature_groups X_train y_train w_train scores_train X_val y_val w_val
  scores_val n_inner_bags random_state optional_temp_params
  (w : world N) obj w1 :
  NativeEBMBooster__init__ N model_type n_classes features_categorical
    features_bin_count feature_groups X_train y_train w_train scores_train
    X_val y_val w_val scores_val n_inner_bags random_state optional_temp_params w
  = (Ok obj, w1) ->
  exists c,
    calls w1 = calls w ++ [c]
    /\ kind_of c = KCreateBooster /\ return_code_of c = 0
    /\ _booster_handle obj = handle_created N c (engine w).
Proof.
  intros H. unfold NativeEBMBooster__init__ in H.
  do 10 (guard_step H).
  cbn [_convert_feature_groups_to_c] in H. cbv zeta in H.
  apply bind_ok_inv in H. destruct H as (st & sa & Hp & H).
  rewrite prepare_scores_pure in Hp. inversion Hp; subst sa; clear Hp.
  apply bind_ok_inv in H. destruct H as (sv & sb & Hq & H).
  rewrite prepare_scores_pure in Hq. inversion Hq; subst sb; clear Hq.
  apply bind_ok_inv in H. destruct H as (h & sc & Hc & H).
  inversion H; subst; clear H. cbn [_booster_handle].
  destruct (String.eqb model_type "classification").
  - apply create_check_outcome in Hc.
    destruct Hc as (rc & h0 & e1 & Hcall & -> & [[-> Hr] | [_ Hr]]);
      [| discriminate].
    injection Hr as <-. eexists. split; [reflexivity |].
    split; [reflexivity |]. split; [reflexivity |].
    cbn [handle_created fst]. rewrite Hcall. reflexivity.
  - destruct (String.eqb model_type "regression"); [| discriminate].
    apply create_check_outcome in Hc.
    destruct Hc as (rc & h0 & e1 & Hcall & -> & [[-> Hr] | [_ Hr]]);
      [| discriminate].
    injection Hr as <-. eexists. split; [reflexivity |].
    split; [reflexivity |]. split; [reflexivity |].
    cbn [handle_created fst]. rewrite Hcall. reflexivity.
Qed.

End SessionFacts.

Section RunTraces.

Variable N : Native.
Variables (model_type : string) (n_classes : Z)
          (features_categorical : list bool) (features_bin_count : list Z)
          (feature_groups : list (list Z))
          (X_train : ndarray Z) (y_train w_train : ndarray double)
          (scores_train : tensor)
          (X_val : ndarray Z) (y_val w_val : ndarray double) (scores_val : tensor)
          (n_inner_bags generate_update_options : Z) (learning_rate : double)
          (min_samples_leaf max_leaves early_stopping_rounds : Z)
          (early_stopping_tolerance : double) (max_rounds random_state : Z)
          (optional_temp_params : option (list double)).

Local Abbreviation run_history :=
  (cyclic_gradient_boost_history N model_type n_classes features_categorical
     features_bin_count feature_groups X_train y_train w_train scores_train
     X_val y_val w_val scores_val n_inner_bags generate_update_options
     learning_rate min_samples_leaf max_leaves early_stopping_rounds
     early_stopping_tolerance max_rounds random_state optional_temp_params).

Local Abbreviation run :=
  (cyclic_gradient_boost N model_type n_classes features_categorical
     features_bin_count feature_groups X_train y_train w_train scores_train
     X_val y_val w_val scores_val n_inner_bags generate_update_options
     learning_rate min_samples_leaf max_leaves early_stopping_rounds
     early_stopping_tolerance max_rounds random_state optional_temp_params).

(** X2.  The native calls of a run of [cyclic_gradient_boost] that
    returns are, in this order: one create; per round run, for every
    feature group in the order of [feature_groups], a generate for the
    group followed by an apply; then one read of the model per feature
    group in the same order (of the current model when there is no
    validation sample, else of the best model; none at all for a
    classification with at most one class); and last the free.  Every
    one of these calls reported return code 0. *)
Theorem boost_call_sequence :
  forall (w : world N) model mm ep hist w',
    run_history w = (Ok ((model, mm, ep), hist), w') ->
    exists new,
      calls w' = calls w ++ new
      /\ map kind_of new
         = [KCreateBooster]
           ++ flat_map (fun _ => sweep_kinds (range (len feature_groups))) hist
           ++ (if String.eqb model_type "classification" && (n_classes <=? 1)
               then []
               else map (if shape_at X_val 1 =? 0 then KGetCurrent else KGetBest)
                      (range (len feature_groups)))
           ++ [KFreeBooster]
      /\ Forall (fun c => return_code_of c = 0) new.
Proof.
  intros w model mm ep hist w' H.
  unfold cyclic_gradient_boost_history in H.
  apply with_closing_ok in H.
  destruct H as (obj & w1 & s2 & Hinit & Hbody & Hw').
  apply init_inv in Hinit.
  destruct Hinit as [[_ [e He]] | Hinit]; [discriminate |].
  destruct Hinit as (st & sv & rc & h & e1 & c & _ & _ & Hc & Hw1 & Hres).
  destruct Hres as [[Hrc Hb] | [_ [e He]]]; [| discriminate].
  injection Hb as Hb. subst obj rc.
  apply bind_ok_inv in Hbody. destruct Hbody as (v & sl & Hloop & Hbody).
  apply bind_ok_inv in Hbody. destruct Hbody as (model' & sg & Hget & Hret).
  inversion Hret; subst; clear Hret.
  destruct (boost_rounds_log _ _ _ _ _ _ _ _ _ _ _ _ _ [PInf] Hloop
              (least_single PInf)) as (Hsame & _ & _).
  apply boost_rounds_emits in Hloop.
  destruct Hloop as (added & Hadd & (new1 & Hlog1 & Hk1 & Hz1)).
  cbn [rounds app] in Hadd. rewrite <- Hadd in Hk1.
  assert (Hgetters :
    emits (if String.eqb model_type "classification" && (n_classes <=? 1)
           then []
           else map (if shape_at X_val 1 =? 0 then KGetCurrent else KGetBest)
                  (range (len feature_groups))) sl s2).
  { pose proof (same_session_single_class _ _ Hsame) as Hsc.
    destruct Hsame as (_ & _ & _ & _ & Hgroups). cbn in Hgroups, Hsc.
    unfold single_class at 2 in Hsc. cbn in Hsc. rewrite <- Hsc, <- Hgroups.
    destruct (shape_at X_val 1 =? 0).
    - apply get_current_model_emits in Hget. exact Hget.
    - apply get_best_model_emits in Hget. exact Hget. }
  destruct Hgetters as (new2 & Hlog2 & Hk2 & Hz2).
  exists ([c] ++ new1 ++ new2 ++ [CallFreeBooster (_booster_handle (fst s2))]).
  split; [| split].
  - unfold close, bind, get_self, in_world, unsafe_void. cbn.
    rewrite Hlog2, Hlog1. cbn [snd calls]. rewrite <- !app_assoc. reflexivity.
  - rewrite !map_app, Hk1, Hk2. cbn [map kind_of].
    replace (kind_of c) with KCreateBooster
      by (destruct Hc as [-> | ->]; reflexivity).
    reflexivity.
  - apply Forall_app. split.
    + constructor; [destruct Hc as [-> | ->]; reflexivity | constructor].
    + apply Forall_app. split; [exact Hz1 |].
      apply Forall_app. split; [exact Hz2 | repeat constructor].
Qed.

(** X3.  On every way out of [cyclic_gradient_boost] the session is
    released: either nothing was called (a check of [__init__] failed),
    or the create call reported an error and is the only call (there is
    no session to free), or the create call succeeded and the log of the
    run ends with exactly one [FreeBooster], of the handle the engine
    handed out on the create call, all calls in between being calls on
    the open session that were made on that same handle, whether the run
    returned or raised. *)
Theorem boost_frees_session_on_every_path :
  forall (w : world N),
    let out := run w in
    (snd out = w /\ exists e, fst out = Raise e)
    \/ (exists c,
          kind_of c = KCreateBooster /\ return_code_of c <> 0
          /\ calls (snd out) = calls w ++ [c]
          /\ exists e, fst out = Raise e)
    \/ (exists c middle,
          kind_of c = KCreateBooster /\ return_code_of c = 0
          /\ calls (snd out)
             = calls w ++ [c] ++ middle
               ++ [CallFreeBooster (handle_created N c (engine w))]
          /\ Forall (fun c' =>
                       session_call c'
                       /\ handle_of c' = Some (handle_created N c (engine w)))
               middle).
Proof.
  intros w out.
  assert (Hout : exists r0, run_history w = (r0, snd out)
                            /\ (forall e, r0 = Raise e -> fst out = Raise e)).
  { unfold out, cyclic_gradient_boost, bind.
    destruct (cyclic_gradient_boost_history _ _ _ _ _ _ _ _ _ _ _ _ _ _ _ _
                _ _ _ _ _ _ _ _ w) as [[t | e] w0]; cbn.
    - eexists. split; [reflexivity | discriminate].
    - eexists. split; [reflexivity |]. intros e' He. injection He as ->. reflexivity. }
  destruct Hout as (r0 & Hrun & Hraise).
  unfold cyclic_gradient_boost_history in Hrun.
  apply with_closing_inv in Hrun.
  destruct Hrun as [(e & Hinit & ->) | (obj & w1 & s2 & Hinit & Hbody & Hw')].
  - apply init_inv in Hinit.
    destruct Hinit as [[Hw _] | Hinit].
    + left. split; [exact Hw | eauto].
    + destruct Hinit as (st & sv & rc & h & e1 & c & _ & _ & Hc & Hw1 & Hres).
      destruct Hres as [[_ Hb] | [Hrc _]]; [discriminate |].
      right. left. exists c.
      split; [destruct Hc as [-> | ->]; reflexivity |].
      split; [destruct Hc as [-> | ->]; exact Hrc |].
      split; [rewrite Hw1; reflexivity | eauto].
  - apply init_handle in Hinit.
    destruct Hinit as (c & Hw1 & Hk & Hrc & Hh).
    assert (Hmid : works_on_session (obj, w1) s2).
    { eapply bind_works_on_session; [| | exact Hbody].
      - intros s0 r1 s0'. apply boost_rounds_works_on_session.
      - intros v s0 r1 s0' H0. eapply bind_works_on_session; [| | exact H0].
        + intros s3 r3 s3'. destruct (shape_at X_val 1 =? 0);
            [apply get_current_model_works_on_session
            | apply get_best_model_works_on_session].
        + intros m s3 r3 s3' H3. inversion H3; subst. apply works_on_session_refl. }
    destruct Hmid as (Hkeep & middle & Hlog & Hall).
    cbn [fst snd] in Hkeep, Hlog, Hall. rewrite Hh in Hkeep, Hall.
    right. right. exists c, middle.
    split; [exact Hk |]. split; [exact Hrc |]. split; [| exact Hall].
    rewrite Hw'. unfold close, bind, get_self, in_world, unsafe_void. cbn.
    rewrite Hlog, Hw1, Hkeep. rewrite <- !app_assoc. reflexivity.
Qed.

End RunTraces.

(** Witness for X2: three feature groups and two rounds on the scripted
    engine. *)
Lemma boost_call_sequence_witness :
  let r := scripted_boost "regression" 0 [[0]; [1]; [0; 1]] [10; 3; 7; 8; 9; 4]
             (-1) 2 in
  map kind_of (calls (snd r))
  = [KCreateBooster;
     KGenerate 0; KApply; KGenerate 1; KApply; KGenerate 2; KApply;
     KGenerate 0; KApply; KGenerate 1; KApply; KGenerate 2; KApply;
     KGetBest 0; KGetBest 1; KGetBest 2;
     KFreeBooster].
Proof.
  intros r.
  eassert (H : r = (Ok ((_, _, _), _), _)) by (vm_compute; reflexivity).
  pose proof H as H'. unfold r, scripted_boost in H'.
  apply boost_call_sequence in H'. destruct H' as (new & Hlog & Hkinds & _).
  rewrite H. cbn [snd].
  transitivity (map kind_of new).
  - f_equal. exact Hlog.
  - rewrite Hkinds. vm_compute. reflexivity.
Defined.

(** Witness for X3: two feature groups; the engine refuses the second
    generate with return code 3.  The run raises, and the session is
    freed after the failed call, on the handle of the session; the calls
    in between were made on it. *)
Lemma boost_frees_session_on_every_path_witness :
  let out :=
    cyclic_gradient_boost scripted "regression" 0 [true; false] [2; 4] [[0]; [1]]
      (zeros_X 2 3) (zeros_y 3) (ones_w 3) None
      (zeros_X 2 2) (zeros_y 2) (ones_w 2) None
      0 0 (Fin (1 # 100)) 2 3 (-1) (Fin 0) 5 42 None
      (scripted_world [0; 3] (int_metrics [10])) in
  fst out = Raise (NativeException 3 "GenerateModelUpdate")
  /\ exists c middle,
       calls (snd out) = [c] ++ middle ++ [CallFreeBooster (Some 1)]
       /\ map kind_of middle = [KGenerate 0; KApply; KGenerate 1]
       /\ Forall (fun c' => handle_of c' = Some (Some 1)) middle.
Proof.
  intros out.
  assert (Hkinds : map kind_of (calls (snd out))
                   = [KCreateBooster; KGenerate 0; KApply; KGenerate 1]
                     ++ [KFreeBooster]) by (vm_compute; reflexivity).
  split; [vm_compute; reflexivity |].
  pose proof (boost_frees_session_on_every_path scripted "regression" 0
                [true; false] [2; 4] [[0]; [1]]
                (zeros_X 2 3) (zeros_y 3) (ones_w 3) None
                (zeros_X 2 2) (zeros_y 2) (ones_w 2) None
                0 0 (Fin (1 # 100)) 2 3 (-1) (Fin 0) 5 42 None
                (scripted_world [0; 3] (int_metrics [10]))) as H.
  cbv zeta in H. fold out in H.
  destruct H as [[Hw _] | [(c & _ & _ & Hlog & _) | (c & middle & Hc & _ & Hlog & Hall)]].
  - rewrite Hw in Hkinds. discriminate Hkinds.
  - rewrite Hlog in Hkinds. discriminate Hkinds.
  - assert (Hh : handle_created scripted c
                   (engine (scripted_world [0; 3] (int_metrics [10]))) = Some 1)
      by (destruct c; try discriminate Hc; reflexivity).
    rewrite Hh in Hlog, Hall.
    exists c, middle. cbn [calls scripted_world app] in Hlog.
    split; [exact Hlog |]. split.
    + rewrite Hlog in Hkinds. cbn [map app] in Hkinds.
      injection Hkinds as _ Hkinds. rewrite map_app in Hkinds.
      change [KGenerate 0; KApply; KGenerate 1; KFreeBooster]
        with ([KGenerate 0; KApply; KGenerate 1] ++ [KFreeBooster]) in Hkinds.
      apply app_inj_tail in Hkinds. apply Hkinds.
    + eapply Forall_impl; [| exact Hall]. intros c' [_ Hc']. exact Hc'.
Defined.

(** ** The calls of the interaction ranker *)

Section InteractionTraces.

Variable N : Native.
Variables (n_interactions : Z) (iter_feature_groups : list (list Z))
          (model_type : string) (n_classes : Z)
          (features_categorical : list bool) (features_bin_count : list Z)
          (X : ndarray Z) (y w : ndarray double) (scores : tensor)
          (min_samples_leaf : Z) (optional_temp_params : option (list double)).

Lemma interaction_init_inv (w0 : world N) r w1 :
  NativeEBMInteraction__init__ N model_type n_classes features_categorical
    features_bin_count X y w scores optional_temp_params w0 = (r, w1) ->
  (w1 = w0 /\ exists e, r = Raise e)
  \/ exists c rc,
       kind_of c = KCreateInteraction /\ return_code_of c = rc
       /\ calls w1 = calls w0 ++ [c]
       /\ ((rc = 0 /\ exists obj, r = Ok obj) \/ (rc <> 0 /\ exists e, r = Raise e)).
Proof.
  intros H. unfold NativeEBMInteraction__init__ in H.
  do 5 (guard_step H; [left; eauto |]).
  cbv zeta in H.
  apply bind_inv in H. destruct H as [(e & Hp & ->) | (prepared & sa & Hp & H)];
    rewrite prepare_scores_pure in Hp; inversion Hp; subst; [left; eauto |].
  apply bind_inv in H.
  assert (Hcases :
    forall c rc (r0 : result handle) sc,
      kind_of c = KCreateInteraction -> return_code_of c = rc ->
      sc = mk_world (engine sc) (calls sa ++ [c]) ->
      (rc = 0 /\ exists h, r0 = Ok h) \/ (rc <> 0 /\ exists e, r0 = Raise e) ->
      ((exists e, r0 = Raise e /\ r = Raise e /\ w1 = sc)
       \/ (exists h, r0 = Ok h /\ r = Ok (mk_NativeEBMInteraction h) /\ w1 = sc)) ->
      exists c rc,
        kind_of c = KCreateInteraction /\ return_code_of c = rc
        /\ calls w1 = calls sa ++ [c]
        /\ ((rc = 0 /\ exists obj, r = Ok obj)
            \/ (rc <> 0 /\ exists e, r = Raise e))).
  { intros c rc r0 sc Hk Hrc Hsc Hres Hout. exists c, rc.
    split; [exact Hk |]. split; [exact Hrc |].
    assert (Hw1 : w1 = sc) by (destruct Hout as [(e & _ & _ & Hw) | (h & _ & _ & Hw)]; exact Hw).
    split; [rewrite Hw1, Hsc; reflexivity |].
    destruct Hres as [[Hz [h Hr0]] | [Hnz [e Hr0]]];
      destruct Hout as [(e' & He & Hr & _) | (h' & He & Hr & _)];
      try congruence.
    - left. split; [exact Hz |]. eauto.
    - right. split; [exact Hnz |]. eauto. }
  destruct (String.eqb model_type "classification").
  - right.
    destruct H as [(e & Hcr & ->) | (h & sc & Hcr & H)];
      apply create_check_outcome in Hcr;
      destruct Hcr as (rc & h0 & e1 & _ & Hsc & Hrc).
    + eapply (Hcases _ rc (Raise e) w1); cycle 2.
      * rewrite Hsc. reflexivity.
      * destruct Hrc as [[_ Hr] | [Hnz Hr]]; [discriminate | right; eauto].
      * left. eauto.
      * reflexivity.
      * reflexivity.
    + inversion H; subst r w1.
      eapply (Hcases _ rc (Ok h) sc); cycle 2.
      * rewrite Hsc. reflexivity.
      * destruct Hrc as [[Hz Hr] | [_ Hr]]; [left; eauto | discriminate].
      * right. eauto.
      * reflexivity.
      * reflexivity.
  - destruct (String.eqb model_type "regression").
    + right.
      destruct H as [(e & Hcr & ->) | (h & sc & Hcr & H)];
        apply create_check_outcome in Hcr;
        destruct Hcr as (rc & h0 & e1 & _ & Hsc & Hrc).
      * eapply (Hcases _ rc (Raise e) w1); cycle 2.
        -- rewrite Hsc. reflexivity.
        -- destruct Hrc as [[_ Hr] | [Hnz Hr]]; [discriminate | right; eauto].
        -- left. eauto.
        -- reflexivity.
        -- reflexivity.
      * inversion H; subst r w1.
        eapply (Hcases _ rc (Ok h) sc); cycle 2.
        -- rewrite Hsc. reflexivity.
        -- destruct Hrc as [[Hz Hr] | [_ Hr]]; [left; eauto | discriminate].
        -- right. eauto.
        -- reflexivity.
        -- reflexivity.
    + destruct H as [(e & Hcr & ->) | (h & sc & Hcr & H)]; inversion Hcr; subst.
      left. eauto.
Qed.

(** A detector that [__init__] returned holds the handle the engine
    handed out on the one create call. *)
Lemma interaction_init_handle (w0 : world N) obj w1 :
  NativeEBMInteraction__init__ N model_type n_classes features_categorical
    features_bin_count X y w scores optional_temp_params w0 = (Ok obj, w1) ->
  exists c,
    calls w1 = calls w0 ++ [c]
    /\ kind_of c = KCreateInteraction /\ return_code_of c = 0
    /\ _interaction_handle obj = handle_created N c (engine w0).
Proof.
  intros H. unfold NativeEBMInteraction__init__ in H.
  do 5 (guard_step H).
  cbv zeta in H.
  apply bind_ok_inv in H. destruct H as (prepared & sa & Hp & H).
  rewrite prepare_scores_pure in Hp. inversion Hp; subst sa; clear Hp.
  apply bind_ok_inv in H. destruct H as (h & sb & Hc & H).
  inversion H; subst; clear H. cbn [_interaction_handle].
  destruct (String.eqb model_type "classification").
  - apply create_check_outcome in Hc.
    destruct Hc as (rc & h0 & e1 & Hcall & -> & [[-> Hr] | [_ Hr]]);
      [| discriminate].
    injection Hr as <-. eexists. split; [reflexivity |].
    split; [reflexivity |]. split; [reflexivity |].
    cbn [handle_created fst]. rewrite Hcall. reflexivity.
  - destruct (String.eqb model_type "regression"); [| discriminate].
    apply create_check_outcome in Hc.
    destruct Hc as (rc & h0 & e1 & Hcall & -> & [[-> Hr] | [_ Hr]]);
      [| discriminate].
    injection Hr as <-. eexists. split; [reflexivity |].
    split; [reflexivity |]. split; [reflexivity |].
    cbn [handle_created fst]. rewrite Hcall. reflexivity.
Qed.

(** One score: one call on the handle of the detector, and the score
    exactly when the call reports 0. *)
Lemma get_interaction_score_outcome tuple (s : istate N) :
  exists ev r e1,
    kind_of ev = KScore tuple
    /\ handle_of ev = Some (_interaction_handle (fst s))
    /\ get_interaction_score N tuple min_samples_leaf s
       = (r, (fst s, mk_world e1 (calls (snd s) ++ [ev])))
    /\ match r with
       | Ok _ => return_code_of ev = 0
       | Raise e =>
           return_code_of ev <> 0
           /\ e = NativeException (return_code_of ev) "CalculateInteractionScore"
       end.
Proof.
  unfold get_interaction_score, bind, get_self, in_world, unsafe, raise_if,
    raise, ret, _get_native_exception. cbn [fst snd].
  destruct (CalculateInteractionScore N _ _ _ _ _) as [[rc sc] e1]. cbn [fst snd].
  exists (CallCalculateInteractionScore (_interaction_handle (fst s)) (len tuple)
            tuple min_samples_leaf rc sc).
  destruct (Z.eqb_spec rc 0) as [-> | Hrc]; cbn [negb fst snd];
    eexists; exists e1; (split; [reflexivity |]); (split; [reflexivity |]);
    (split; [destruct s; reflexivity |]); cbn [return_code_of]; auto.
Qed.

(** Scoring goes through the candidates in order, on the handle of the
    detector, and stops at the first candidate the engine refuses. *)
Lemma score_candidates_trace candidates :
  forall (s : istate N) r s',
    score_candidates N candidates min_samples_leaf s = (r, s') ->
    fst s' = fst s
    /\ exists new,
         calls (snd s') = calls (snd s) ++ new
         /\ Forall (fun c => handle_of c = Some (_interaction_handle (fst s))) new
         /\ match r with
            | Ok _ =>
                map kind_of new = map KScore candidates
                /\ Forall (fun c => return_code_of c = 0) new
            | Raise e =>
                exists passed failed,
                  new = passed ++ [failed]
                  /\ (List.length passed < List.length candidates)%nat
                  /\ map kind_of new
                     = map KScore (firstn (Datatypes.S (List.length passed)) candidates)
                  /\ Forall (fun c => return_code_of c = 0) passed
                  /\ return_code_of failed <> 0
                  /\ e = NativeException (return_code_of failed)
                           "CalculateInteractionScore"
            end.
Proof.
  induction candidates as [| x rest IH]; intros s r s' H; cbn [score_candidates] in H.
  - inversion H; subst. split; [reflexivity |].
    exists []. rewrite app_nil_r. auto.
  - destruct (get_interaction_score_outcome x s)
      as (ev & r1 & e1 & Hk & Hh & Hone & Hr1).
    apply bind_inv in H.
    destruct H as [(e & Hsc & ->) | (score & s1 & Hsc & H)];
      rewrite Hone in Hsc; injection Hsc as -> <-.
    + split; [reflexivity |]. exists [ev]. cbn [snd calls fst].
      split; [reflexivity |]. split; [repeat constructor; exact Hh |].
      destruct Hr1 as [Hnz ->].
      exists [], ev. cbn [List.length firstn map app].
      rewrite Hk. repeat split; auto. lia.
    + apply bind_inv in H.
      destruct H as [(e & Hrest & ->) | (scored & s2 & Hrest & H)].
      * destruct (IH _ _ _ Hrest) as (Hfst & new & Hlog & Hall & Hout).
        cbn [fst snd calls] in Hfst, Hlog, Hall.
        split; [exact Hfst |]. exists (ev :: new).
        split; [rewrite Hlog, <- app_assoc; reflexivity |].
        split; [constructor; assumption |].
        destruct Hout as (passed & failed & -> & Hlen & Hkinds & Hpassed & Hnz & ->).
        exists (ev :: passed), failed. cbn [List.length].
        split; [reflexivity |]. split; [lia |]. split.
        -- change (firstn (Datatypes.S (Datatypes.S (List.length passed))) (x :: rest))
             with (x :: firstn (Datatypes.S (List.length passed)) rest).
           cbn [map app]. rewrite Hk. f_equal. exact Hkinds.
        -- split; [constructor; assumption |]. auto.
      * inversion H; subst; clear H.
        destruct (IH _ _ _ Hrest) as (Hfst & new & Hlog & Hall & Hkinds & Hzero).
        cbn [fst snd calls] in Hfst, Hlog, Hall.
        split; [exact Hfst |]. exists (ev :: new).
        split; [rewrite Hlog, <- app_assoc; reflexivity |].
        split; [constructor; assumption |].
        split; [cbn [map]; rewrite Hk, Hkinds; reflexivity |].
        constructor; assumption.
Qed.

(** X4.  The native calls of [get_interactions], on every way out:
    nothing when a check of the constructor fails; the create call alone
    when it reports an error; otherwise the create call, then score
    calls, and last exactly one [FreeInteractionDetector]; the score
    calls and the free are on the handle the create call handed out.
    When the ranking returns, there is one score call per candidate, in
    the order of the candidate list, and each reported return code 0.
    When it raises, the score calls are those of the candidates up to
    and including the first one the engine refuses: all before the last
    reported 0, the last reported a non-zero code, the exception raised
    carries that code, and no later candidate was scored. *)
Theorem interactions_call_sequence :
  forall (w0 : world N),
    let out :=
      get_interactions N n_interactions iter_feature_groups model_type n_classes
        features_categorical features_bin_count X y w scores min_samples_leaf
        optional_temp_params w0 in
    (snd out = w0 /\ exists e, fst out = Raise e)
    \/ (exists c,
          kind_of c = KCreateInteraction /\ return_code_of c <> 0
          /\ calls (snd out) = calls w0 ++ [c]
          /\ exists e, fst out = Raise e)
    \/ (exists c middle,
          kind_of c = KCreateInteraction /\ return_code_of c = 0
          /\ calls (snd out)
             = calls w0 ++ [c] ++ middle
                 ++ [CallFreeInteractionDetector (handle_created N c (engine w0))]
          /\ Forall (fun c' => handle_of c' = Some (handle_created N c (engine w0)))
               middle
          /\ match fst out with
             | Ok _ =>
                 map kind_of middle = map KScore iter_feature_groups
                 /\ Forall (fun c' => return_code_of c' = 0) middle
             | Raise e =>
                 exists passed failed,
                   middle = passed ++ [failed]
                   /\ (List.length passed < List.length iter_feature_groups)%nat
                   /\ map kind_of middle
                      = map KScore
                          (firstn (Datatypes.S (List.length passed)) iter_feature_groups)
                   /\ Forall (fun c' => return_code_of c' = 0) passed
                   /\ return_code_of failed <> 0
                   /\ e = NativeException (return_code_of failed)
                            "CalculateInteractionScore"
             end).
Proof.
  intros w0 out.
  assert (Hout : exists r0 : result (list (list Z * double)),
             with_closing N
               (NativeEBMInteraction__init__ N model_type n_classes
                  features_categorical features_bin_count X y w scores
                  optional_temp_params)
               (close_interaction N)
               (score_candidates N iter_feature_groups min_samples_leaf) w0
             = (r0, snd out)
             /\ match r0 with
                | Ok _ => exists ranked, fst out = Ok ranked
                | Raise e => fst out = Raise e
                end).
  { unfold out, get_interactions, bind.
    destruct (with_closing N _ _ _ w0) as [[scored | e] w1]; cbn.
    - eexists. split; [reflexivity |]. cbn. eauto.
    - eexists. split; [reflexivity |]. reflexivity. }
  destruct Hout as (r0 & Hrun & Hres).
  apply with_closing_inv in Hrun.
  destruct Hrun as [(e & Hinit & ->) | (obj & w1 & s2 & Hinit & Hbody & Hw')].
  - apply interaction_init_inv in Hinit.
    destruct Hinit as [[Hw _] | (c & rc & Hk & Hrc & Hlog & Hcode)].
    + left. split; [exact Hw | eauto].
    + destruct Hcode as [[_ [obj Hobj]] | [Hnz _]]; [discriminate |].
      right. left. exists c. rewrite Hrc. repeat split; eauto.
  - apply interaction_init_handle in Hinit.
    destruct Hinit as (c & Hlog & Hk & Hz & Hh).
    apply score_candidates_trace in Hbody.
    destruct Hbody as (Hself & middle & Hlog' & Hon & Hmiddle).
    cbn [fst snd] in Hself, Hlog', Hon.
    right. right. exists c, middle.
    split; [exact Hk |]. split; [exact Hz |]. split; [| split].
    + rewrite Hw'. unfold close_interaction, bind, get_self, in_world, unsafe_void.
      cbn. rewrite Hlog', Hself, Hh. cbn [snd]. rewrite Hlog, <- !app_assoc.
      reflexivity.
    + rewrite <- Hh. exact Hon.
    + destruct r0 as [scored | e].
      * destruct Hres as [ranked ->]. exact Hmiddle.
      * rewrite Hres. exact Hmiddle.
Qed.

End InteractionTraces.

(** Witness for X4: four candidates.  The scripted engine scores all
    four, in the order of the candidates, between the create and the
    free.  The engine that refuses the third candidate is asked about
    the first three only, the exception carries its code, and the
    detector is freed all the same. *)
Lemma interactions_call_sequence_witness :
  let candidates := [[0; 1]; [1; 0]; [2; 3]; [0; 0]] in
  let ranking (N : Native) (w0 : world N) :=
    get_interactions N 2 candidates "regression" 0
      [true; false; false; false] [2; 4; 3; 3]
      (zeros_X 4 3) (zeros_y 3) (ones_w 3) None 2 None w0 in
  let out := ranking scripted (scripted_world [] []) in
  let refused :=
    ranking scripted_refusing (@mk_world scripted_refusing (mk_script [] [] []) []) in
  (map kind_of (calls (snd out))
   = [KCreateInteraction;
      KScore [0; 1]; KScore [1; 0]; KScore [2; 3]; KScore [0; 0];
      KFreeInteraction]
   /\ Forall (fun c => return_code_of c = 0) (calls (snd out)))
  /\ exists c passed failed,
       calls (snd refused)
       = [c] ++ (passed ++ [failed]) ++ [CallFreeInteractionDetector (Some 2)]
       /\ map kind_of passed = [KScore [0; 1]; KScore [1; 0]]
       /\ kind_of failed = KScore [2; 3]
       /\ Forall (fun c' => return_code_of c' = 0) passed
       /\ return_code_of failed = 2
       /\ fst refused = Raise (NativeException 2 "CalculateInteractionScore").
Proof.
  intros candidates ranking out refused.
  pose proof (interactions_call_sequence scripted 2 candidates "regression" 0
                [true; false; false; false] [2; 4; 3; 3]
                (zeros_X 4 3) (zeros_y 3) (ones_w 3) None 2 None
                (scripted_world [] [])) as H.
  pose proof (interactions_call_sequence scripted_refusing 2 candidates
                "regression" 0
                [true; false; false; false] [2; 4; 3; 3]
                (zeros_X 4 3) (zeros_y 3) (ones_w 3) None 2 None
                (@mk_world scripted_refusing (mk_script [] [] []) [])) as H'.
  cbv zeta in H, H'. fold (ranking scripted (scripted_world [] [])) in H.
  fold (ranking scripted_refusing
          (@mk_world scripted_refusing (mk_script [] [] []) [])) in H'.
  fold out in H. fold refused in H'.
  split.
  - assert (Hok : exists ranked, fst out = Ok ranked)
      by (eexists; vm_compute; reflexivity).
    destruct Hok as [ranked Hok].
    destruct H as [[_ [e He]] | [(c & _ & _ & _ & [e He]) | H]];
      try (rewrite Hok in He; discriminate He).
    destruct H as (c & middle & Hc & Hz & Hlog & _ & Hall).
    rewrite Hok in Hall. destruct Hall as [Hkinds Hzero].
    rewrite Hlog. cbn [calls scripted_world app map]. split.
    + rewrite map_app, Hkinds. cbn [map app]. rewrite Hc. reflexivity.
    + constructor; [exact Hz |]. apply Forall_app. split; [exact Hzero |].
      constructor; [reflexivity | constructor].
  - assert (Hraise : fst refused = Raise (NativeException 2 "CalculateInteractionScore"))
      by (vm_compute; reflexivity).
    assert (Hfive : List.length (calls (snd refused)) = 5%nat)
      by (vm_compute; reflexivity).
    destruct H' as [[Hsame _] | [(c & _ & Hnz & Hlog & _) | H']].
    + exfalso. rewrite Hsame in Hfive. discriminate Hfive.
    + exfalso. rewrite Hlog in Hfive. discriminate Hfive.
    + destruct H' as (c & middle & Hc & Hz & Hlog & Hon & Hcase).
      rewrite Hraise in Hcase.
      destruct Hcase as (passed & failed & -> & Hlen & Hkinds & Hpassed & Hnz & He).
      injection He as He.
      exists c, passed, failed.
      assert (Hfree : handle_created scripted_refusing c
                        (engine (@mk_world scripted_refusing (mk_script [] [] []) []))
                      = Some 2)
        by (destruct c; try discriminate Hc; reflexivity).
      rewrite Hfree in Hlog. cbn [calls app] in Hlog.
      split; [exact Hlog |].
      assert (Hn : List.length passed = 2%nat).
      { apply (f_equal (@List.length _)) in Hlog.
        rewrite Hfive in Hlog. cbn [List.length] in Hlog.
        rewrite !length_app in Hlog. cbn [List.length] in Hlog. lia. }
      rewrite Hn in Hkinds. cbn [firstn candidates map] in Hkinds.
      rewrite map_app in Hkinds. cbn [map] in Hkinds.
      change [KScore [0; 1]; KScore [1; 0]; KScore [2; 3]]
        with ([KScore [0; 1]; KScore [1; 0]] ++ [KScore [2; 3]]) in Hkinds.
      apply app_inj_tail in Hkinds. destruct Hkinds as [Hp Hf].
      symmetry in He. repeat split; auto.
Defined.

(** ** Tensors handed out and taken in *)


Lemma py_getitem_raise {A : Type} (l : list A) i e :
  py_getitem l i = Raise e -> e = IndexError.
Proof.
  unfold py_getitem.
  destruct ((0 <=? _) && _); [| intros H; inversion H; reflexivity].
  destruct (nth_error l _); intros H; inversion H; reflexivity.
Qed.

Lemma py_getitem_range {A : Type} (l : list A) i :
  match py_getitem l i with
  | Ok x => - len l <= i < len l
            /\ nth_error l (Z.to_nat (if i <? 0 then i + len l else i)) = Some x
  | Raise _ => i < - len l \/ len l <= i
  end.
Proof.
  unfold py_getitem, len.
  set (n := Z.of_nat (List.length l)).
  set (j := if i <? 0 then i + n else i).
  destruct (Z.leb_spec 0 j) as [Hlo | Hlo], (Z.ltb_spec j n) as [Hhi | Hhi];
    cbn [andb]; subst j;
    try (destruct (Z.ltb_spec i 0); lia).
  destruct (nth_error l _) as [x |] eqn:Hnth.
  - split; [destruct (Z.ltb_spec i 0); lia | reflexivity].
  - apply nth_error_None in Hnth. subst n. destruct (Z.ltb_spec i 0); lia.
Qed.

Lemma bins_of_functional features_bin_count group bins bins' :
  bins_of features_bin_count group bins ->
  bins_of features_bin_count group bins' -> bins = bins'.
Proof.
  intros H. revert bins'. induction H as [| f b group bins Hfb _ IH];
    intros bins' H'; inversion H'; subst; [reflexivity |].
  f_equal; [congruence | apply IH; assumption].
Qed.

Lemma bins_of_length features_bin_count group bins :
  bins_of features_bin_count group bins -> List.length bins = List.length group.
Proof. intros H. symmetry. eapply Forall2_length, H. Qed.

(** The bin counts collected for a group, when every feature of the
    group exists; an [IndexError] when one does not. *)
Lemma map_m_getitem_inv features_bin_count group :
  match fst (map_m (S := unit)
               (fun feature_idx =>
                  lift_result (py_getitem features_bin_count feature_idx))
               group tt) with
  | Ok bins => bins_of features_bin_count group bins
  | Raise e => e = IndexError /\ forall bins, ~ bins_of features_bin_count group bins
  end.
Proof.
  induction group as [| f group IH]; cbn [map_m].
  - constructor.
  - unfold bind at 1. unfold lift_result at 1.
    destruct (py_getitem features_bin_count f) as [b | e] eqn:Hb.
    + unfold bind. destruct (map_m _ group tt) as [[bins | e] []]; cbn in IH |- *.
      * constructor; assumption.
      * destruct IH as [-> IH]. split; [reflexivity |].
        intros bins H. inversion H; subst. eapply IH; eassumption.
    + cbn. split; [eapply py_getitem_raise, Hb |].
      intros bins H. inversion H; subst. congruence.
Qed.

Lemma get_count_scores_c_multi n_classes :
  (if 1 <? get_count_scores_c n_classes
   then [get_count_scores_c n_classes] else [])
  = (if 2 <? n_classes then [n_classes] else []).
Proof.
  unfold get_count_scores_c.
  destruct (Z.leb_spec n_classes 2), (Z.ltb_spec 2 n_classes); try lia.
  - reflexivity.
  - destruct (Z.ltb_spec 1 n_classes); [reflexivity | lia].
Qed.

(** [_get_feature_group_shape] returns the engine-side shape of the
    group when the group and its features exist, and raises an
    [IndexError] otherwise. *)
Lemma get_feature_group_shape_outcome self g :
  match fst (_get_feature_group_shape (S := unit) self g tt) with
  | Ok shp =>
      exists group bins,
        py_getitem (_feature_groups self) g = Ok group
        /\ bins_of (_features_bin_count self) group bins
        /\ shp = engine_shape (_n_classes self) bins
  | Raise e =>
      e = IndexError
      /\ forall group bins,
           py_getitem (_feature_groups self) g = Ok group ->
           ~ bins_of (_features_bin_count self) group bins
  end.
Proof.
  unfold _get_feature_group_shape, bind. unfold lift_result at 1.
  destruct (py_getitem (_feature_groups self) g) as [group | e] eqn:Hg.
  - pose proof (map_m_getitem_inv (_features_bin_count self) group) as Hm.
    destruct (map_m _ group tt) as [[bins | e] []]; cbn in Hm |- *.
    + exists group, bins. split; [reflexivity |]. split; [exact Hm |].
      unfold engine_shape. rewrite <- get_count_scores_c_multi.
      destruct (1 <? get_count_scores_c (_n_classes self));
        [reflexivity | symmetry; apply app_nil_r].
    + destruct Hm as [-> Hm]. split; [reflexivity |].
      intros group' bins Hg'. injection Hg' as <-. apply Hm.
  - cbn. split; [eapply py_getitem_raise, Hg |]. intros group bins Hg'. discriminate.
Qed.

Lemma transpose_pair_raise n_classes t e :
  fst (transpose_pair (S := unit) n_classes t tt) = Raise e ->
  e = ValueError "axes don't match array".
Proof.
  unfold transpose_pair, raise, lift_result, transpose_102, transpose_10.
  destruct t as [x |]; cbn; [| intros H; inversion H; reflexivity].
  destruct (2 <? n_classes).
  - destruct (shape x) as [| a [| b [| c [| d rest]]]]; intros H; inversion H; reflexivity.
  - destruct (shape x) as [| a [| b [| c rest]]]; intros H; inversion H; reflexivity.
Qed.

(** The transposition of the tensor of a pair exchanges the engine-side
    and the caller-side shape, in both directions, and fails on every
    other shape. *)
Lemma transpose_pair_shapes n_classes b1 b2 (x : ndarray double) :
  match fst (transpose_pair (S := unit) n_classes (Some x) tt) with
  | Ok x' =>
      (shape x = tensor_shape n_classes [b1; b2]
       <-> shape x' = engine_shape n_classes [b1; b2])
      /\ (shape x = engine_shape n_classes [b1; b2]
          <-> shape x' = tensor_shape n_classes [b1; b2])
  | Raise _ =>
      shape x <> tensor_shape n_classes [b1; b2]
      /\ shape x <> engine_shape n_classes [b1; b2]
  end.
Proof.
  unfold transpose_pair, lift_result, transpose_102, transpose_10,
    tensor_shape, engine_shape.
  cbn [fst len List.length rev app Z.of_nat Pos.of_succ_nat Pos.succ Z.eqb Pos.eqb].
  destruct (2 <? n_classes).
  - destruct (shape x) as [| a [| b [| c [| d rest]]]]; cbn [shape app];
      try (split; congruence);
      split; split; intros H; injection H as -> -> ->; reflexivity.
  - destruct (shape x) as [| a [| b [| c rest]]]; cbn [shape app];
      try (split; congruence);
      split; split; intros H; injection H as -> ->; reflexivity.
Qed.

(** What becomes of the buffer the engine filled for a feature group:
    the array handed to the caller has the caller-side shape, and
    building it cannot fail. *)
Lemma tensor_out_shape n_classes (group bins : list Z) buffer :
  List.length bins = List.length group ->
  exists x,
    (if len group =? 2
     then fst (transpose_pair (S := unit) n_classes
                 (Some (mk_ndarray (engine_shape n_classes bins) buffer)) tt) = Ok x
     else x = mk_ndarray (engine_shape n_classes bins) buffer)
    /\ shape x = tensor_shape n_classes bins.
Proof.
  intros Hlen. unfold tensor_shape, len. rewrite Hlen.
  destruct (Z.of_nat (List.length group) =? 2) eqn:Hpair.
  - apply Z.eqb_eq in Hpair.
    destruct bins as [| b1 [| b2 [| b3 rest]]]; cbn [List.length] in Hlen; try lia.
    pose proof (transpose_pair_shapes n_classes b1 b2
                  (mk_ndarray (engine_shape n_classes [b1; b2]) buffer)) as H.
    destruct (fst (transpose_pair _ _ tt)) as [x | e].
    + exists x. split; [reflexivity |].
      destruct H as [_ H]. cbn [shape] in H.
      rewrite (proj1 H eq_refl). unfold tensor_shape. reflexivity.
    + destruct H as [_ H]. cbn [shape] in H. congruence.
  - eexists. split; reflexivity.
Qed.

Lemma Forall2_nth_error {A B : Type} (P : A -> B -> Prop) l ys :
  Forall2 P l ys ->
  forall i a, nth_error l i = Some a -> exists b, nth_error ys i = Some b /\ P a b.
Proof.
  induction 1 as [| a0 b0 l ys Hab _ IH]; intros [| i] a Hi; try discriminate.
  - injection Hi as <-. exists b0. split; [reflexivity | exact Hab].
  - apply IH. exact Hi.
Qed.

Lemma nth_error_range n i :
  (i < Z.to_nat n)%nat -> nth_error (range n) i = Some (Z.of_nat i).
Proof.
  intros Hi. unfold range. rewrite nth_error_map.
  rewrite (nth_error_nth' _ 0%nat) by (rewrite length_seq; exact Hi).
  rewrite seq_nth by exact Hi. reflexivity.
Qed.

Section TensorOutcomes.

Variable N : Native.

(** Every way out of the common body of the two model readers. *)
Lemma get_model_feature_group_outcome entry_point entry name g (s : bstate N) :
  let out := _get_model_feature_group N entry_point entry name g s in
  let self := fst s in
  fst (snd out) = self
  /\ match fst out with
     | Ok None => single_class self = true /\ snd (snd out) = snd s
     | Ok (Some x) =>
         single_class self = false
         /\ exists group bins,
              py_getitem (_feature_groups self) g = Ok group
              /\ bins_of (_features_bin_count self) group bins
              /\ shape x = tensor_shape (_n_classes self) bins
              /\ calls (snd (snd out))
                 = calls (snd s)
                   ++ [entry (_booster_handle self) g
                         (engine_shape (_n_classes self) bins) 0]
     | Raise (NativeException rc fn) =>
         rc <> 0 /\ fn = name
         /\ exists group bins,
              py_getitem (_feature_groups self) g = Ok group
              /\ bins_of (_features_bin_count self) group bins
              /\ calls (snd (snd out))
                 = calls (snd s)
                   ++ [entry (_booster_handle self) g
                         (engine_shape (_n_classes self) bins) rc]
     | Raise _ => snd (snd out) = snd s
     end.
Proof.
  intros out self0. subst self0. destruct out as [r s'] eqn:H. subst out.
  destruct s as [self w]. cbn [fst snd].
  unfold _get_model_feature_group in H. unfold bind at 1, get_self in H.
  cbn [fst snd] in H.
  destruct (single_class self) eqn:Hsc; [inversion H; subst; cbn; auto |].
  unfold bind at 1 in H. rewrite get_feature_group_shape_pure in H.
  pose proof (get_feature_group_shape_outcome self g) as Hshp.
  destruct (fst (_get_feature_group_shape self g tt)) as [shp | e].
  2:{ destruct Hshp as [-> _]. inversion H; subst; cbn; auto. }
  destruct Hshp as (group & bins & Hgroup & Hbins & ->).
  unfold bind at 1, raise_if, raise, ret in H.
  destruct (np_empty_ok _); cbn [negb] in H; [| inversion H; subst; cbn; auto].
  unfold bind at 1, in_world, unsafe in H. cbn [snd fst] in H.
  destruct (entry_point _ g _ (engine w)) as [[rc buffer] e1].
  unfold bind at 1 in H. cbn [fst snd] in H.
  destruct (Z.eqb_spec rc 0) as [-> | Hrc]; cbn [negb] in H.
  2:{ unfold _get_native_exception in H. inversion H; subst. cbn [fst snd calls].
      split; [reflexivity |]. split; [exact Hrc |]. split; [reflexivity |].
      exists group, bins. auto. }
  destruct (tensor_out_shape (_n_classes self) group bins buffer
              (bins_of_length _ _ _ Hbins)) as (x & Hx & Hsx).
  unfold bind at 1, lift_result in H. rewrite Hgroup in H.
  destruct (len group =? 2).
  - unfold bind in H. rewrite transpose_pair_pure, Hx in H.
    inversion H; subst. cbn [fst snd calls].
    split; [reflexivity |]. split; [reflexivity |]. exists group, bins. auto.
  - subst x. inversion H; subst. cbn [fst snd calls].
    split; [reflexivity |]. split; [reflexivity |]. exists group, bins. auto.
Qed.

(** The tensors of a model, for a reader built on
    [_get_model_feature_group]. *)
Lemma model_reader_shapes entry_point entry name :
  forall l (s : bstate N) model s',
    single_class (fst s) = false ->
    map_m (_get_model_feature_group N entry_point entry name) l s = (Ok model, s') ->
    Forall2
      (fun g t =>
         exists x group bins,
           t = Some x
           /\ py_getitem (_feature_groups (fst s)) g = Ok group
           /\ bins_of (_features_bin_count (fst s)) group bins
           /\ shape x = tensor_shape (_n_classes (fst s)) bins)
      l model.
Proof.
  induction l as [| g l IH]; intros s model s' Hsc H; cbn [map_m] in H.
  - inversion H. constructor.
  - apply bind_ok_inv in H. destruct H as (t & s1 & Hone & H).
    apply bind_ok_inv in H. destruct H as (ts & s2 & Hrest & H).
    inversion H; subst; clear H.
    pose proof (get_model_feature_group_outcome entry_point entry name g s) as Ho.
    cbv zeta in Ho. rewrite Hone in Ho. cbn [fst snd] in Ho.
    destruct Ho as [Hself Ho].
    constructor.
    + destruct t as [x |]; [| destruct Ho; congruence].
      destruct Ho as (_ & group & bins & Hg & Hb & Hs & _).
      exists x, group, bins. auto.
    + rewrite <- Hself. eapply IH; [rewrite Hself; exact Hsc | exact Hrest].
Qed.

(** X5.  When [get_best_model] or [get_current_model] returns in a
    session with a model, the list has one tensor per feature group, in
    the order of the groups, and the tensor of a group is an array of
    the caller-side shape: the bin counts of the features of the group
    in the order of the group for a group of two features (the engine's
    array is transposed), reversed (the engine's order) for every other
    group, followed by the number of classes when there are more than
    two. *)
Theorem model_tensors_have_caller_side_shapes :
  forall (s : bstate N) model s',
    single_class (fst s) = false ->
    get_best_model N s = (Ok model, s')
    \/ get_current_model N s = (Ok model, s') ->
    List.length model = List.length (_feature_groups (fst s))
    /\ forall i group,
         nth_error (_feature_groups (fst s)) i = Some group ->
         exists x bins,
           nth_error model i = Some (Some x)
           /\ bins_of (_features_bin_count (fst s)) group bins
           /\ shape x = tensor_shape (_n_classes (fst s)) bins.
Proof.
  intros s model s' Hsc H.
  assert (Hall : Forall2
            (fun g t =>
               exists x group bins,
                 t = Some x
                 /\ py_getitem (_feature_groups (fst s)) g = Ok group
                 /\ bins_of (_features_bin_count (fst s)) group bins
                 /\ shape x = tensor_shape (_n_classes (fst s)) bins)
            (range (len (_feature_groups (fst s)))) model).
  { destruct H as [H | H];
      [unfold get_best_model in H | unfold get_current_model in H];
      unfold bind at 1, get_self in H;
      eapply model_reader_shapes; eassumption. }
  split.
  - apply Forall2_length in Hall.
    transitivity (List.length (range (len (_feature_groups (fst s)))));
      [symmetry; exact Hall |].
    unfold range, len. rewrite length_map, length_seq, Nat2Z.id. reflexivity.
  - intros i group Hi.
    assert (Hlt : (i < List.length (_feature_groups (fst s)))%nat)
      by (apply nth_error_Some; congruence).
    destruct (Forall2_nth_error _ _ _ Hall i (Z.of_nat i)) as (t & Ht & Hp).
    { apply nth_error_range. unfold len. rewrite Nat2Z.id. exact Hlt. }
    destruct Hp as (x & group' & bins & -> & Hg & Hb & Hs).
    pose proof (py_getitem_range (_feature_groups (fst s)) (Z.of_nat i)) as Hr.
    rewrite Hg in Hr. destruct Hr as [_ Hr].
    destruct (Z.ltb_spec (Z.of_nat i) 0) as [Hneg | _]; [lia |].
    rewrite Nat2Z.id, Hi in Hr. injection Hr as <-.
    exists x, bins. auto.
Qed.

End TensorOutcomes.

(** Witness for X5: three classes; groups of one, two and three
    features over 2, 4 and 5 bins.  The pair comes back in the order of
    its features, the triple in reverse. *)
Lemma model_tensors_have_caller_side_shapes_witness :
  let self := mk_NativeEBMBooster (Some 1) (-1) "classification" 3 [2; 4; 5]
                [[0]; [0; 1]; [0; 1; 2]] in
  exists model s',
    get_best_model scripted (self, scripted_world [] []) = (Ok model, s')
    /\ exists single pair triple,
         model = [Some single; Some pair; Some triple]
         /\ shape single = [2; 3]
         /\ shape pair = [2; 4; 3]
         /\ shape triple = [5; 4; 2; 3].
Proof.
  intros self.
  eassert (H : get_best_model scripted (self, scripted_world [] []) = (Ok _, _))
    by (vm_compute; reflexivity).
  eexists. eexists. split; [exact H |].
  pose proof (model_tensors_have_caller_side_shapes scripted
                (self, scripted_world [] []) _ _ eq_refl (or_introl H))
    as [_ Hshapes].
  assert (Hbins : forall group bins bins',
             bins_of [2; 4; 5] group bins -> bins_of [2; 4; 5] group bins' ->
             bins = bins') by (intros; eapply bins_of_functional; eassumption).
  destruct (Hshapes 0%nat [0] eq_refl) as (x0 & b0 & Hn0 & Hb0 & Hs0).
  destruct (Hshapes 1%nat [0; 1] eq_refl) as (x1 & b1 & Hn1 & Hb1 & Hs1).
  destruct (Hshapes 2%nat [0; 1; 2] eq_refl) as (x2 & b2 & Hn2 & Hb2 & Hs2).
  cbn [fst self _features_bin_count _n_classes] in *.
  rewrite (Hbins _ _ [2] Hb0) in Hs0 by (repeat constructor).
  rewrite (Hbins _ _ [2; 4] Hb1) in Hs1 by (repeat constructor).
  rewrite (Hbins _ _ [2; 4; 5] Hb2) in Hs2 by (repeat constructor).
  cbn in Hn0, Hn1, Hn2.
  injection Hn0 as Hn0. injection Hn1 as Hn1. injection Hn2 as Hn2.
  exists x0, x1, x2. rewrite <- Hn0, <- Hn1, <- Hn2.
  split; [reflexivity |]. rewrite Hn0, Hn1, Hn2. auto.
Defined.

Lemma tensor_shape_not_pair n_classes bins :
  (len bins =? 2) = false -> tensor_shape n_classes bins = engine_shape n_classes bins.
Proof. unfold tensor_shape, engine_shape. intros ->. reflexivity. Qed.

Section SetOutcomes.

Variable N : Native.

(** The two ways [set_model_update_expanded] can go in a session with a
    model: the tensor has the caller-side shape of an existing feature
    group and is handed to the engine, transposed for a pair; or it is
    refused before the engine is called. *)
Lemma set_model_update_expanded_cases self (w : world N) g t :
  single_class self = false ->
  (exists group bins x x',
     py_getitem (_feature_groups self) g = Ok group
     /\ bins_of (_features_bin_count self) group bins
     /\ t = Some x
     /\ shape x = tensor_shape (_n_classes self) bins
     /\ shape x' = engine_shape (_n_classes self) bins
     /\ set_model_update_expanded N g t (self, w)
        = (let (rc, e1) :=
             SetModelUpdateExpanded N (_booster_handle self) g x' (engine w) in
           (if rc =? 0 then Ok tt
            else Raise (NativeException rc "SetModelUpdateExpanded"),
            (set_feature_group_index (if rc =? 0 then g else -1) self,
             mk_world e1
               (calls w
                ++ [CallSetModelUpdateExpanded (_booster_handle self) g x' rc])))))
  \/ ((forall group bins x,
         py_getitem (_feature_groups self) g = Ok group ->
         bins_of (_features_bin_count self) group bins ->
         t = Some x ->
         shape x <> tensor_shape (_n_classes self) bins)
      /\ exists e,
           python_side e
           /\ set_model_update_expanded N g t (self, w)
              = (Raise e, (set_feature_group_index (-1) self, w))).
Proof.
  intros Hsc.
  remember (set_model_update_expanded N g t (self, w)) as out eqn:Hout.
  unfold set_model_update_expanded in Hout.
  unfold bind at 1, assign_feature_group_index in Hout. cbn [fst snd] in Hout.
  unfold bind at 1, get_self in Hout. cbn [fst] in Hout.
  change (single_class (set_feature_group_index (-1) self))
    with (single_class self) in Hout.
  rewrite Hsc in Hout.
  cbn [_feature_groups _n_classes _booster_handle set_feature_group_index] in Hout.
  unfold bind at 1, lift_result in Hout.
  destruct (py_getitem (_feature_groups self) g) as [group | e] eqn:Hgroup.
  2:{ right. split; [intros; congruence |].
      exists e. split; [| exact Hout].
      apply py_getitem_raise in Hgroup. subst e. exact I. }
  pose proof (get_feature_group_shape_outcome self g) as Hshp.
  (* the tail shared by both kinds of group, from the array [x'] on *)
  assert (Htail : forall x',
    bind (_get_feature_group_shape (set_feature_group_index (-1) self) g)
         (fun shp =>
            bind (match Some x' with
                  | None => raise (AttributeError "'NoneType' object has no attribute 'shape'")
                  | Some x => ret x
                  end)
              (fun model_update =>
                 bind (raise_if (negb (shape_eqb shp (shape model_update)))
                         (ValueError "incorrect tensor shape in call to set_model_update_expanded"))
                   (fun _ =>
                      bind (in_world N
                              (unsafe N
                                 (SetModelUpdateExpanded N (_booster_handle self) g model_update)
                                 (CallSetModelUpdateExpanded (_booster_handle self) g model_update)))
                        (fun return_code =>
                           bind (raise_if (negb (return_code =? 0))
                                   (_get_native_exception return_code "SetModelUpdateExpanded"))
                             (fun _ => assign_feature_group_index N g)))))
      (set_feature_group_index (-1) self, w)
    = match fst (_get_feature_group_shape (S := unit) self g tt) with
      | Raise e => (Raise e, (set_feature_group_index (-1) self, w))
      | Ok shp =>
          if shape_eqb shp (shape x') then
            let (rc, e1) :=
              SetModelUpdateExpanded N (_booster_handle self) g x' (engine w) in
            (if rc =? 0 then Ok tt
             else Raise (NativeException rc "SetModelUpdateExpanded"),
             (set_feature_group_index (if rc =? 0 then g else -1) self,
              mk_world e1
                (calls w
                 ++ [CallSetModelUpdateExpanded (_booster_handle self) g x' rc])))
          else (Raise (ValueError "incorrect tensor shape in call to set_model_update_expanded"),
                (set_feature_group_index (-1) self, w))
      end).
  { intros x'. unfold bind at 1. rewrite get_feature_group_shape_pure.
    change (_get_feature_group_shape (set_feature_group_index (-1) self) g tt)
      with (_get_feature_group_shape (S := unit) self g tt).
    destruct (fst (_get_feature_group_shape self g tt)) as [shp | e]; [| reflexivity].
    unfold bind at 1, ret at 1. unfold bind at 1, raise_if.
    destruct (shape_eqb shp (shape x')); cbn [negb]; [| reflexivity].
    unfold ret at 1. unfold bind at 1, in_world, unsafe. cbn [fst snd engine calls].
    destruct (SetModelUpdateExpanded N (_booster_handle self) g x' (engine w))
      as [rc e1].
    unfold bind, raise_if, raise, ret, assign_feature_group_index,
      _get_native_exception.
    destruct (rc =? 0); reflexivity. }
  (* what the tail gives, once the shape test is related to the tensor *)
  assert (Hdecide : forall x x',
    (forall bins, bins_of (_features_bin_count self) group bins ->
       (shape x = tensor_shape (_n_classes self) bins
        <-> shape x' = engine_shape (_n_classes self) bins)) ->
    t = Some x ->
    forall r,
      r = match fst (_get_feature_group_shape (S := unit) self g tt) with
          | Raise e => (Raise e, (set_feature_group_index (-1) self, w))
          | Ok shp =>
              if shape_eqb shp (shape x') then
                let (rc, e1) :=
                  SetModelUpdateExpanded N (_booster_handle self) g x' (engine w) in
                (if rc =? 0 then Ok tt
                 else Raise (NativeException rc "SetModelUpdateExpanded"),
                 (set_feature_group_index (if rc =? 0 then g else -1) self,
                  mk_world e1
                    (calls w
                     ++ [CallSetModelUpdateExpanded (_booster_handle self) g x' rc])))
              else (Raise (ValueError "incorrect tensor shape in call to set_model_update_expanded"),
                    (set_feature_group_index (-1) self, w))
          end ->
      (exists group0 bins x0 x'0,
         Ok group = Ok group0
         /\ bins_of (_features_bin_count self) group0 bins
         /\ t = Some x0
         /\ shape x0 = tensor_shape (_n_classes self) bins
         /\ shape x'0 = engine_shape (_n_classes self) bins
         /\ r = (let (rc, e1) :=
                   SetModelUpdateExpanded N (_booster_handle self) g x'0 (engine w) in
                 (if rc =? 0 then Ok tt
                  else Raise (NativeException rc "SetModelUpdateExpanded"),
                  (set_feature_group_index (if rc =? 0 then g else -1) self,
                   mk_world e1
                     (calls w
                      ++ [CallSetModelUpdateExpanded (_booster_handle self) g x'0 rc])))))
      \/ ((forall group0 bins x0,
             Ok group = Ok group0 ->
             bins_of (_features_bin_count self) group0 bins ->
             t = Some x0 ->
             shape x0 <> tensor_shape (_n_classes self) bins)
          /\ exists e,
               python_side e
               /\ r = (Raise e, (set_feature_group_index (-1) self, w)))).
  { intros x x' Hiff Ht r Hr.
    destruct (fst (_get_feature_group_shape self g tt)) as [shp | e].
    - destruct Hshp as (group' & bins & Hg' & Hbins & ->).
      rewrite Hgroup in Hg'. injection Hg' as <-.
      destruct (shape_eqb _ (shape x')) eqn:Heq.
      + apply shape_eqb_eq in Heq. left. exists group, bins, x, x'.
        split; [reflexivity |]. split; [exact Hbins |]. split; [exact Ht |].
        split; [apply (Hiff bins Hbins); congruence |]. split; [congruence | exact Hr].
      + right. split.
        * intros group0 bins0 x0 Hg0 Hb0 Ht0 Hs0.
          injection Hg0 as <-. rewrite Ht in Ht0. injection Ht0 as <-.
          rewrite (bins_of_functional _ _ _ _ Hb0 Hbins) in Hs0.
          apply (Hiff bins Hbins) in Hs0.
          assert (Htrue : shape_eqb (engine_shape (_n_classes self) bins) (shape x') = true)
            by (apply shape_eqb_eq; congruence).
          congruence.
        * eexists. split; [| exact Hr]. exact I.
    - destruct Hshp as [-> Hno]. right. split.
      + intros group0 bins0 x0 Hg0 Hb0 _ _. injection Hg0 as <-.
        exact (Hno group bins0 Hgroup Hb0).
      + eexists. split; [| exact Hr]. exact I. }
  unfold bind at 1 in Hout.
  destruct (len group =? 2) eqn:Hpair.
  - (* a pair: transposed first *)
    unfold bind at 1 in Hout. rewrite transpose_pair_pure in Hout.
    destruct t as [x |].
    + destruct (fst (transpose_pair (_n_classes self) (Some x) tt)) as [x' | e] eqn:Htp.
      * unfold ret at 1 in Hout. rewrite Htail in Hout.
        eapply (Hdecide x x'); [| reflexivity | exact Hout].
        intros bins Hbins. pose proof (bins_of_length _ _ _ Hbins) as Hlen.
        apply Z.eqb_eq in Hpair. unfold len in Hpair.
        destruct bins as [| b1 [| b2 [| b3 rest]]]; cbn [List.length] in Hlen; try lia.
        pose proof (transpose_pair_shapes (_n_classes self) b1 b2 x) as Hsh.
        rewrite Htp in Hsh. apply Hsh.
      * right. split.
        -- intros group0 bins x0 Hg0 Hbins Ht0. injection Hg0 as <-.
           injection Ht0 as <-.
           pose proof (bins_of_length _ _ _ Hbins) as Hlen.
           apply Z.eqb_eq in Hpair. unfold len in Hpair.
           destruct bins as [| b1 [| b2 [| b3 rest]]]; cbn [List.length] in Hlen; try lia.
           pose proof (transpose_pair_shapes (_n_classes self) b1 b2 x) as Hsh.
           rewrite Htp in Hsh. apply Hsh.
        -- exists e. split; [| exact Hout].
           apply transpose_pair_raise in Htp. subst e. exact I.
    + right. split; [intros; discriminate |].
      eexists. split; [| exact Hout]. exact I.
  - (* any other group: handed over as it is *)
    unfold ret at 1 in Hout. destruct t as [x |].
    + rewrite Htail in Hout.
      eapply (Hdecide x x); [| reflexivity | exact Hout].
      intros bins Hbins. rewrite tensor_shape_not_pair; [tauto |].
      unfold len in *. rewrite (bins_of_length _ _ _ Hbins). exact Hpair.
    + right. split; [intros; discriminate |].
      unfold bind at 1 in Hout. rewrite get_feature_group_shape_pure in Hout.
      change (_get_feature_group_shape (set_feature_group_index (-1) self) g tt)
        with (_get_feature_group_shape (S := unit) self g tt) in Hout.
      destruct (fst (_get_feature_group_shape self g tt)) as [shp | e].
      * eexists. split; [| exact Hout]. exact I.
      * destruct Hshp as [-> _]. eexists. split; [| exact Hout]. exact I.
Qed.

End SetOutcomes.

Section StagedUpdate.

Variable N : Native.

(** X6.  In a session with a model (any but a classification with at
    most one class), [set_model_update_expanded(g, t)] reaches the
    engine exactly when [g] is a feature group of the session whose
    features all have a bin count and [t] is an array of the caller-side
    shape of [g]: the bin counts in the order of the group for a group
    of two features, reversed for every other group, followed by the
    number of classes when there are more than two.  The engine then
    gets one [SetModelUpdateExpanded] call with an array of the
    engine-side shape, and the method returns exactly when the call
    reports 0.  In every other case an exception of the Python side is
    raised and the engine is not called.  The update is staged when the
    method returns; after a raise nothing is staged. *)
Theorem set_model_update_expanded_checks_shape_first :
  forall (s : bstate N) g t,
    single_class (fst s) = false ->
    let out := set_model_update_expanded N g t s in
    let self := fst s in
    same_session self (fst (snd out))
    /\ _feature_group_index (fst (snd out))
       = match fst out with Ok _ => g | Raise _ => -1 end
    /\ ((exists group bins x x' rc,
           py_getitem (_feature_groups self) g = Ok group
           /\ bins_of (_features_bin_count self) group bins
           /\ t = Some x
           /\ shape x = tensor_shape (_n_classes self) bins
           /\ shape x' = engine_shape (_n_classes self) bins
           /\ calls (snd (snd out))
              = calls (snd s)
                ++ [CallSetModelUpdateExpanded (_booster_handle self) g x' rc]
           /\ fst out = (if rc =? 0 then Ok tt
                         else Raise (NativeException rc "SetModelUpdateExpanded")))
        \/ ((forall group bins x,
               py_getitem (_feature_groups self) g = Ok group ->
               bins_of (_features_bin_count self) group bins ->
               t = Some x ->
               shape x <> tensor_shape (_n_classes self) bins)
            /\ snd (snd out) = snd s
            /\ exists e, python_side e /\ fst out = Raise e)).
Proof.
  intros [self w] g t Hsc out self0. subst self0 out. cbn [fst snd] in Hsc |- *.
  destruct (set_model_update_expanded_cases N self w g t Hsc)
    as [(group & bins & x & x' & Hg & Hb & Ht & Hs & Hs' & ->)
       | (Hno & e & He & ->)].
  - destruct (SetModelUpdateExpanded N (_booster_handle self) g x' (engine w))
      as [rc e1].
    cbn [fst snd calls].
    split; [repeat split |].
    split; [destruct (rc =? 0); reflexivity |].
    left. exists group, bins, x, x', rc. auto 10.
  - cbn [fst snd]. split; [repeat split |]. split; [reflexivity |].
    right. split; [exact Hno |]. split; [reflexivity |]. eauto.
Qed.

(** X7.  Every way out of [get_model_update_expanded].  The session
    object is never changed.  It returns [None] only in a
    classification session with at most one class, and an array only
    in a session with a model, in both cases with an update staged; the
    array has the caller-side shape of the staged feature group, and
    the engine was called once, with a buffer of the engine-side shape.
    A native exception is raised exactly for a non-zero return code of
    that one call.  After any other exception (nothing staged, a
    feature group or feature that does not exist, a negative bin count)
    the engine was not called; nothing can fail on the Python side once
    the engine was called. *)
Theorem get_model_update_expanded_outcomes :
  forall (s : bstate N),
    let out := get_model_update_expanded N s in
    let self := fst s in
    let staged := _feature_group_index self in
    fst (snd out) = self
    /\ match fst out with
       | Ok None =>
           0 <= staged /\ single_class self = true /\ snd (snd out) = snd s
       | Ok (Some x) =>
           0 <= staged /\ single_class self = false
           /\ exists group bins,
                nth_error (_feature_groups self) (Z.to_nat staged) = Some group
                /\ bins_of (_features_bin_count self) group bins
                /\ shape x = tensor_shape (_n_classes self) bins
                /\ calls (snd (snd out))
                   = calls (snd s)
                     ++ [CallGetModelUpdateExpanded (_booster_handle self)
                           (engine_shape (_n_classes self) bins) 0]
       | Raise (NativeException rc fn) =>
           0 <= staged /\ rc <> 0 /\ fn = "GetModelUpdateExpanded"
           /\ exists group bins,
                nth_error (_feature_groups self) (Z.to_nat staged) = Some group
                /\ bins_of (_features_bin_count self) group bins
                /\ calls (snd (snd out))
                   = calls (snd s)
                     ++ [CallGetModelUpdateExpanded (_booster_handle self)
                           (engine_shape (_n_classes self) bins) rc]
       | Raise _ => snd (snd out) = snd s
       end.
Proof.
  intros s out self0 staged. subst self0 staged.
  destruct out as [r s'] eqn:H. subst out.
  destruct s as [self w]. cbn [fst snd].
  unfold get_model_update_expanded in H. unfold bind at 1, get_self in H.
  cbn [fst snd] in H.
  unfold bind at 1, raise_if, raise, ret in H.
  destruct (Z.ltb_spec (_feature_group_index self) 0) as [Hneg | Hpos];
    [inversion H; subst; cbn; auto |].
  destruct (single_class self) eqn:Hsc; [inversion H; subst; cbn; auto |].
  unfold bind at 1 in H. rewrite get_feature_group_shape_pure in H.
  pose proof (get_feature_group_shape_outcome self (_feature_group_index self))
    as Hshp.
  destruct (fst (_get_feature_group_shape self _ tt)) as [shp | e].
  2:{ destruct Hshp as [-> _]. inversion H; subst; cbn; auto. }
  destruct Hshp as (group & bins & Hgroup & Hbins & ->).
  assert (Hnth : nth_error (_feature_groups self)
                   (Z.to_nat (_feature_group_index self)) = Some group).
  { pose proof (py_getitem_range (_feature_groups self) (_feature_group_index self))
      as Hr.
    rewrite Hgroup in Hr. destruct Hr as [_ Hr].
    destruct (Z.ltb_spec (_feature_group_index self) 0); [lia | exact Hr]. }
  unfold bind at 1, raise_if, raise, ret in H.
  destruct (np_empty_ok _); cbn [negb] in H; [| inversion H; subst; cbn; auto].
  unfold bind at 1, in_world, unsafe in H. cbn [snd fst] in H.
  destruct (GetModelUpdateExpanded N _ _ (engine w)) as [[rc buffer] e1].
  unfold bind at 1 in H. cbn [fst snd] in H.
  destruct (Z.eqb_spec rc 0) as [-> | Hrc]; cbn [negb] in H.
  2:{ unfold _get_native_exception in H. inversion H; subst. cbn [fst snd calls].
      split; [reflexivity |]. split; [exact Hpos |]. split; [exact Hrc |].
      split; [reflexivity |]. exists group, bins. auto. }
  destruct (tensor_out_shape (_n_classes self) group bins buffer
              (bins_of_length _ _ _ Hbins)) as (x & Hx & Hsx).
  unfold bind at 1, lift_result in H. rewrite Hgroup in H.
  destruct (len group =? 2).
  - unfold bind in H. rewrite transpose_pair_pure, Hx in H.
    inversion H; subst. cbn [fst snd calls].
    split; [reflexivity |]. split; [exact Hpos |]. split; [reflexivity |].
    exists group, bins. auto.
  - subst x. inversion H; subst. cbn [fst snd calls].
    split; [reflexivity |]. split; [exact Hpos |]. split; [reflexivity |].
    exists group, bins. auto.
Qed.

(** X8.  [apply_model_update] forgets the staged update whatever the
    engine answers, and asks the engine whether or not an update was
    staged: it makes exactly one [ApplyModelUpdate] call on the handle
    of the session, returns the metric the engine reported exactly when
    the return code is 0, and raises the native exception of that code
    otherwise.  Either way nothing is staged afterwards: a
    [get_model_update_expanded] that follows raises the invalid-state
    [RuntimeError] and does not call the engine. *)
Theorem apply_model_update_unstages :
  forall (s : bstate N),
    let out := apply_model_update N s in
    same_session (fst s) (fst (snd out))
    /\ _feature_group_index (fst (snd out)) = -1
    /\ (exists rc metric,
          calls (snd (snd out))
          = calls (snd s)
            ++ [CallApplyModelUpdate (_booster_handle (fst s)) rc metric]
          /\ fst out = (if rc =? 0 then Ok metric
                        else Raise (NativeException rc "ApplyModelUpdate")))
    /\ get_model_update_expanded N (snd out)
       = (Raise (RuntimeError "invalid internal self._feature_group_index"),
          snd out).
Proof.
  intros [self w] out. subst out.
  unfold apply_model_update, bind, assign_feature_group_index, get_self,
    in_world, unsafe, raise_if, raise, ret, _get_native_exception.
  cbn [fst snd set_feature_group_index _booster_handle].
  destruct (ApplyModelUpdate N (_booster_handle self) (engine w))
    as [[rc metric] e1].
  cbn [fst snd calls].
  assert (Hget : forall w1,
             get_model_update_expanded N (set_feature_group_index (-1) self, w1)
             = (Raise (RuntimeError "invalid internal self._feature_group_index"),
                (set_feature_group_index (-1) self, w1))) by reflexivity.
  destruct (rc =? 0) eqn:Hrc; cbn [negb fst snd calls].
  - split; [repeat split |]. split; [reflexivity |].
    split; [| apply Hget].
    exists rc, metric. rewrite Hrc. split; reflexivity.
  - split; [repeat split |]. split; [reflexivity |].
    split; [| apply Hget].
    exists rc, metric. rewrite Hrc. split; reflexivity.
Qed.

(** X9.  [generate_model_update] looks the feature group up, by
    Python's indexing, before it calls the engine.  For an index outside
    [-n, n) ([n] feature groups) it raises [IndexError], the engine is
    not called and nothing is staged.  For an index in [-n, n) the
    engine is called once, with the index as it was given and one
    [max_leaves] entry per feature of the group found, and the method
    returns exactly when the call reports 0.  A negative index in range
    therefore reaches the engine, but its update can never be read
    back: [get_model_update_expanded] raises the invalid-state error
    afterwards, also when the engine accepted the call. *)
Theorem generate_model_update_index_edges :
  forall (s : bstate N) g o lr msl ml,
    let out := generate_model_update N g o lr msl ml s in
    let self := fst s in
    let n := len (_feature_groups self) in
    (g < - n \/ n <= g ->
     out = (Raise IndexError, (set_feature_group_index (-1) self, snd s)))
    /\ (- n <= g < n ->
        exists group rc gain,
          nth_error (_feature_groups self)
            (Z.to_nat (if g <? 0 then g + n else g)) = Some group
          /\ calls (snd (snd out))
             = calls (snd s)
               ++ [CallGenerateModelUpdate (_booster_handle self) g o lr msl
                     (repeat ml (List.length group)) rc gain]
          /\ fst out = (if rc =? 0 then Ok gain
                        else Raise (NativeException rc "GenerateModelUpdate")))
    /\ (g < 0 ->
        get_model_update_expanded N (snd out)
        = (Raise (RuntimeError "invalid internal self._feature_group_index"),
           snd out)).
Proof.
  intros [self w] g o lr msl ml out self0 n. subst self0 n out. cbn [fst snd].
  pose proof (py_getitem_range (_feature_groups self) g) as Hr.
  unfold generate_model_update, bind, assign_feature_group_index, get_self,
    lift_result, in_world, unsafe, raise_if, raise, ret, _get_native_exception.
  cbn [fst snd set_feature_group_index _feature_groups _booster_handle].
  destruct (py_getitem (_feature_groups self) g) as [group | e] eqn:Hg.
  - destruct Hr as [Hin Hnth].
    destruct (GenerateModelUpdate N _ _ _ _ _ _ _) as [[rc gain] e1].
    cbn [fst snd calls].
    split; [intros; lia |]. split.
    + intros _. exists group, rc, gain. split; [exact Hnth |].
      destruct (rc =? 0); cbn [negb fst snd calls]; split; reflexivity.
    + intros Hneg.
      destruct (rc =? 0); cbn [negb fst snd];
        unfold get_model_update_expanded, bind, get_self, raise_if, raise;
        cbn [fst snd _feature_group_index set_feature_group_index];
        [destruct (Z.ltb_spec g 0); [reflexivity | lia] | reflexivity].
  - apply py_getitem_raise in Hg. subst e. cbn [fst snd].
    split; [reflexivity |]. split; [intros; lia |].
    intros _. reflexivity.
Qed.

End StagedUpdate.

(** Witness for X6: the pair group [[0; 1]] over a 2-bin and a 4-bin
    feature.  An array of shape [(4, 2)], the engine-side shape, is
    refused: the caller-side shape is [(2, 4)].  The engine is not
    called and nothing is staged. *)
Lemma set_model_update_expanded_checks_shape_first_witness :
  let self := mk_NativeEBMBooster (Some 1) 0 "regression" 0 [2; 4]
                [[0]; [1]; [0; 1]] in
  let w := scripted_world [] [] in
  let out := set_model_update_expanded scripted 2
               (Some (mk_ndarray [4; 2] (repeat (Fin 0) 8))) (self, w) in
  fst out
  = Raise (ValueError "incorrect tensor shape in call to set_model_update_expanded")
  /\ snd (snd out) = w
  /\ _feature_group_index (fst (snd out)) = -1.
Proof.
  intros self w out.
  assert (Hr : fst out
               = Raise (ValueError
                          "incorrect tensor shape in call to set_model_update_expanded"))
    by (vm_compute; reflexivity).
  pose proof (set_model_update_expanded_checks_shape_first scripted (self, w) 2
                (Some (mk_ndarray [4; 2] (repeat (Fin 0) 8))) eq_refl) as H.
  cbv zeta in H. fold out in H.
  destruct H as (_ & Hidx & [Hcall | (_ & Hw & _)]).
  - destruct Hcall as (group & bins & x & x' & rc & _ & _ & _ & _ & _ & _ & Hf).
    rewrite Hr in Hf. destruct (rc =? 0); discriminate Hf.
  - rewrite Hr in Hidx. split; [exact Hr |]. split; [exact Hw | exact Hidx].
Defined.

(** Witness for X9: three feature groups.  Index -1 reaches the engine
    as -1, with the two [max_leaves] entries of the last group, and is
    accepted, yet the update cannot be read back; index 3 raises
    [IndexError]. *)
Lemma generate_model_update_index_edges_witness :
  let self := mk_NativeEBMBooster (Some 1) 1 "regression" 0 [2; 4]
                [[0]; [1]; [0; 1]] in
  let w := scripted_world [] [] in
  let last := generate_model_update scripted (-1) 0 (Fin (1 # 100)) 2 3 (self, w) in
  let beyond := generate_model_update scripted 3 0 (Fin (1 # 100)) 2 3 (self, w) in
  (exists rc gain,
     calls (snd (snd last))
     = [CallGenerateModelUpdate (Some 1) (-1) 0 (Fin (1 # 100)) 2 [3; 3] rc gain]
     /\ fst last = Ok gain)
  /\ fst (get_model_update_expanded scripted (snd last))
     = Raise (RuntimeError "invalid internal self._feature_group_index")
  /\ beyond = (Raise IndexError, (set_feature_group_index (-1) self, w)).
Proof.
  intros self w last beyond.
  pose proof (generate_model_update_index_edges scripted (self, w) (-1) 0
                (Fin (1 # 100)) 2 3) as Hlast.
  pose proof (generate_model_update_index_edges scripted (self, w) 3 0
                (Fin (1 # 100)) 2 3) as Hbeyond.
  cbv zeta in Hlast, Hbeyond. fold last in Hlast. fold beyond in Hbeyond.
  destruct Hlast as (_ & Hin & Hget). destruct Hbeyond as (Hout & _ & _).
  split; [| split].
  - destruct Hin as (group & rc & gain & Hgroup & Hlog & Hres); [cbn; lia |].
    cbn in Hgroup. injection Hgroup as <-.
    exists rc, gain. split; [exact Hlog |].
    assert (Hok : exists gain', fst last = Ok gain')
      by (eexists; vm_compute; reflexivity).
    destruct Hok as [gain' Hok]. rewrite Hok in Hres.
    destruct (rc =? 0); [| discriminate Hres].
    rewrite Hok, Hres. reflexivity.
  - rewrite Hget by lia. reflexivity.
  - apply Hout. right. cbn. lia.
Defined.

(** ** The C form of the feature groups *)

Lemma app_inv_length {A : Type} (x y l l' : list A) :
  List.length x = List.length y -> x ++ l = y ++ l' -> x = y /\ l = l'.
Proof.
  revert y. induction x as [| a x IH]; intros [| b y] Hlen H;
    try discriminate Hlen.
  - auto.
  - cbn in H. injection H as -> H. injection Hlen as Hlen.
    destruct (IH y Hlen H) as [-> ->]. auto.
Qed.

(** X10.  The C form of the feature groups loses nothing: there is one
    count per group, the index array has as many entries as the counts
    add up to, and no other list of feature groups has the same C
    form. *)
Theorem feature_groups_c_form_is_lossless :
  forall feature_groups : list (list Z),
    let counts := fst (_convert_feature_groups_to_c feature_groups) in
    let indexes := snd (_convert_feature_groups_to_c feature_groups) in
    len counts = len feature_groups
    /\ len indexes = fold_right Z.add 0 counts
    /\ forall other,
         _convert_feature_groups_to_c other = (counts, indexes) ->
         other = feature_groups.
Proof.
  intros feature_groups counts indexes. subst counts indexes.
  unfold _convert_feature_groups_to_c, len. cbn [fst snd].
  split; [rewrite length_map; reflexivity |]. split.
  - induction feature_groups as [| group rest IH]; [reflexivity |].
    cbn [concat map fold_right]. rewrite length_app, Nat2Z.inj_add, IH. reflexivity.
  - induction feature_groups as [| group rest IH]; intros [| group' rest'] H;
      cbn [map concat] in H; try discriminate H.
    + reflexivity.
    + injection H as Hlen Hrest Hcat.
      apply Nat2Z.inj in Hlen.
      destruct (app_inv_length _ _ _ _ Hlen Hcat) as [-> Hcat'].
      f_equal. apply IH. cbn [fst snd]. rewrite Hrest, Hcat'. reflexivity.
Qed.

(** Witness for X10: three groups over two features. *)
Lemma feature_groups_c_form_is_lossless_witness :
  _convert_feature_groups_to_c [[0]; [1]; [0; 1]] = ([1; 1; 2], [0; 1; 0; 1])
  /\ forall other,
       _convert_feature_groups_to_c other = ([1; 1; 2], [0; 1; 0; 1]) ->
       other = [[0]; [1]; [0; 1]].
Proof.
  split; [reflexivity |].
  exact (proj2 (proj2 (feature_groups_c_form_is_lossless [[0]; [1]; [0; 1]]))).
Defined.

(** ** Early stopping never comes early *)

Lemma continues_run_length_bound R tol run_length bp episodes hist :
  continues R tol run_length bp episodes hist ->
  0 <= run_length ->
  forall k rec,
    nth_error hist k = Some rec ->
    0 <= rr_no_change_run_length rec <= run_length + Z.of_nat k + 1.
Proof.
  induction 1 as [rl bp | rl bp ep eps m bp' rl' Hstop
                 | rl bp ep eps m rest bp' rl' Hstop Hcont IH];
    intros Hrl k rec Hk.
  - destruct k; discriminate.
  - destruct k as [| k]; [| destruct k; discriminate].
    injection Hk as <-. cbn [rr_no_change_run_length]. subst rl'.
    destruct (dlt _ _); lia.
  - assert (Hrl' : 0 <= rl' <= rl + 1) by (subst rl'; destruct (dlt _ _); lia).
    destruct k as [| k].
    + injection Hk as <-. cbn [rr_no_change_run_length]. lia.
    + cbn [nth_error] in Hk. specialize (IH (proj1 Hrl') k rec Hk). lia.
Qed.

Section EarlyStoppingBounds.

Variable N : Native.
Variables (model_type : string) (n_classes : Z)
          (features_categorical : list bool) (features_bin_count : list Z)
          (feature_groups : list (list Z))
          (X_train : ndarray Z) (y_train w_train : ndarray double)
          (scores_train : tensor)
          (X_val : ndarray Z) (y_val w_val : ndarray double) (scores_val : tensor)
          (n_inner_bags generate_update_options : Z) (learning_rate : double)
          (min_samples_leaf max_leaves early_stopping_rounds : Z)
          (early_stopping_tolerance : double) (max_rounds random_state : Z)
          (optional_temp_params : option (list double)).

(** X11.  Early stopping never ends a run too early.  A run of the
    orchestrator that returns ran at most [max(0, max_rounds)] rounds,
    and at least one when [max_rounds >= 1]; if it ran fewer than
    [max_rounds] rounds, then [early_stopping_rounds] is not negative
    and at least [early_stopping_rounds] rounds were run.  After round
    [k] (from 0) the run length of rounds without improvement is
    between 0 and [k + 1]. *)
Theorem early_stopping_never_before_its_rounds :
  forall (w : world N) model mm ep hist w',
    cyclic_gradient_boost_history N model_type n_classes features_categorical
      features_bin_count feature_groups X_train y_train w_train scores_train
      X_val y_val w_val scores_val n_inner_bags generate_update_options
      learning_rate min_samples_leaf max_leaves early_stopping_rounds
      early_stopping_tolerance max_rounds random_state optional_temp_params w
    = (Ok ((model, mm, ep), hist), w') ->
    let n := Z.of_nat (List.length hist) in
    n <= Z.max 0 max_rounds
    /\ (1 <= max_rounds -> 1 <= n)
    /\ (n < max_rounds -> 0 <= early_stopping_rounds <= n)
    /\ forall k rec,
         nth_error hist k = Some rec ->
         0 <= rr_no_change_run_length rec <= Z.of_nat k + 1.
Proof.
  intros w model mm ep hist w' H n.
  apply run_history_summary in H. destruct H as (_ & Hcont & _ & _).
  pose proof (continues_length _ _ _ _ _ _ Hcont) as Hlen.
  rewrite length_range in Hlen.
  pose proof (continues_run_length_bound _ _ _ _ _ _ Hcont (Z.le_refl 0)) as Hbound.
  destruct (continues_stops_first _ _ _ _ _ _ Hcont) as [_ Hlast].
  rewrite length_range in Hlast.
  assert (Hearly : n < max_rounds ->
            exists rec,
              nth_error hist (List.length hist - 1) = Some rec
              /\ early_stop early_stopping_rounds (rr_no_change_run_length rec) = true).
  { intros Hn. apply Hlast. subst n. lia. }
  split; [subst n; lia |]. split; [| split].
  - intros Hmax. destruct (Z_lt_le_dec n 1) as [Hn | Hn]; [| exact Hn].
    destruct Hearly as (rec & Hrec & _); [lia |].
    assert (Hnil : hist = []) by (destruct hist; [reflexivity | subst n; cbn in Hn; lia]).
    subst hist. discriminate Hrec.
  - intros Hn. destruct (Hearly Hn) as (rec & Hrec & Hstop).
    apply early_stop_true in Hstop.
    specialize (Hbound _ _ Hrec).
    assert (Hpos : (0 < List.length hist)%nat).
    { destruct hist; [discriminate Hrec | cbn; lia]. }
    subst n. lia.
  - intros k rec Hk. specialize (Hbound k rec Hk). lia.
Qed.

End EarlyStoppingBounds.

(** Witness for X11: one feature group, tolerance 0, metrics 10, 5, 5,
    ...: with [R = 3] the run stops after 5 of 10 rounds, not before
    3. *)
Lemma early_stopping_never_before_its_rounds_witness :
  let r := scripted_boost "regression" 0 [[0]] [10; 5; 5; 5; 5; 5; 5; 5] 3 10 in
  Z.of_nat (List.length (history_of r)) = 5
  /\ 3 <= Z.of_nat (List.length (history_of r)).
Proof.
  intros r.
  eassert (H : r = (Ok ((_, _, _), _), _)) by (vm_compute; reflexivity).
  pose proof H as H'. unfold r, scripted_boost in H'.
  apply early_stopping_never_before_its_rounds in H'. cbv zeta in H'.
  destruct H' as (_ & _ & Hearly & _).
  unfold history_of. rewrite H. cbn [fst].
  split; [reflexivity |]. apply Hearly. cbn. lia.
Defined.

(** ** Locating and loading the shared library *)

(** X12.  [_get_ebm_lib_path] asks for a 64-bit interpreter on every
    platform but the one named [linux]: since [and] binds tighter than
    [or] in its first test, on [linux] a library path is returned
    whatever the size of a pointer is; on every other platform a
    pointer size other than 8 bytes raises the unsupported-platform
    exception with the platform and the bit size; and with 8-byte
    pointers a path is returned exactly on [linux], [linux2], [win32]
    and [darwin]. *)
Theorem lib_path_needs_64_bit_except_on_linux :
  forall (h : host) (debug : bool),
    let supported := ["linux"; "linux2"; "win32"; "darwin"] in
    (platform h = "linux" ->
     exists path, _get_ebm_lib_path h debug = Loaded path)
    /\ (platform h <> "linux" -> calcsize_P h <> 8 ->
        _get_ebm_lib_path h debug
        = LoadFailed (PlatformNotSupported (platform h) (calcsize_P h * 8)))
    /\ (calcsize_P h = 8 ->
        ((exists path, _get_ebm_lib_path h debug = Loaded path)
         <-> In (platform h) supported)).
Proof.
  intros h debug supported. subst supported. unfold _get_ebm_lib_path.
  split; [| split].
  - intros ->. cbn. eauto.
  - intros Hp Hc.
    destruct (Z.eqb_spec (calcsize_P h * 8) 64) as [H64 | H64]; [lia |].
    destruct (String.eqb_spec (platform h) "linux") as [Hl | _]; [contradiction |].
    rewrite !andb_false_r. reflexivity.
  - intros ->. cbn [Z.mul Z.eqb Pos.mul Pos.eqb]. rewrite !andb_true_r.
    destruct (String.eqb_spec (platform h) "linux") as [-> | H1];
      [cbn; split; eauto |].
    destruct (String.eqb_spec (platform h) "linux2") as [-> | H2];
      [cbn; split; eauto |].
    destruct (String.eqb_spec (platform h) "win32") as [-> | H3];
      [cbn; split; eauto 6 |].
    destruct (String.eqb_spec (platform h) "darwin") as [-> | H4];
      [cbn; split; eauto 6 |].
    cbn. split.
    + intros [path Hpath]. discriminate.
    + intros [H | [H | [H | [H | []]]]]; congruence.
Qed.

Section SingletonFacts.

Variable Lib : Type.
Variable h : host.
Variable LoadLibrary : string -> option Lib.

(** X13.  [get_native_singleton] loads the library once.  When it
    returns, the object it returns is the cached one, and every later
    call returns the same object and changes nothing, whatever
    [is_debug] it is given.  If an object was cached before, it is
    returned and nothing is loaded; if none was, the object has the
    [is_debug] of this call and the library loaded from the path of
    [_get_ebm_lib_path], the one load attempted.  When it raises,
    nothing was cached before and nothing is cached afterwards, so a
    later call tries again. *)
Theorem native_singleton_is_loaded_once :
  forall (debug : bool) (st : loader Lib),
    let out := get_native_singleton Lib h LoadLibrary debug st in
    match fst out with
    | Loaded native =>
        _native (snd out) = Some native
        /\ (forall later_debug,
              get_native_singleton Lib h LoadLibrary later_debug (snd out)
              = (Loaded native, snd out))
        /\ match _native st with
           | Some cached => native = cached /\ snd out = st
           | None =>
               is_debug native = debug
               /\ exists path,
                    _get_ebm_lib_path h debug = Loaded path
                    /\ LoadLibrary path = Some (_unsafe native)
                    /\ load_attempts (snd out) = load_attempts st ++ [path]
           end
    | LoadFailed _ => _native st = None /\ _native (snd out) = None
    end.
Proof.
  intros debug st out. subst out. unfold get_native_singleton.
  destruct (_native st) as [cached |] eqn:Hst.
  - cbn [fst snd]. split; [exact Hst |]. split; [| auto].
    intros later_debug. rewrite Hst. reflexivity.
  - unfold _initialize.
    destruct (_get_ebm_lib_path h debug) as [path | e]; [| cbn; auto].
    destruct (LoadLibrary path) as [lib |] eqn:Hload; cbn [fst snd _native].
    + split; [reflexivity |]. split; [intros later_debug; reflexivity |].
      split; [reflexivity |]. exists path. auto.
    + auto.
Qed.

End SingletonFacts.

(** Witness for X12: with 4-byte pointers, [linux] gets a path and
    [win32] the exception. *)
Lemma lib_path_needs_64_bit_except_on_linux_witness :
  (exists path, _get_ebm_lib_path linux_32 false = Loaded path)
  /\ _get_ebm_lib_path win_32 true = LoadFailed (PlatformNotSupported "win32" 32).
Proof.
  destruct (lib_path_needs_64_bit_except_on_linux linux_32 false) as (Hlinux & _ & _).
  destruct (lib_path_needs_64_bit_except_on_linux win_32 true) as (_ & Hother & _).
  split; [apply Hlinux; reflexivity | apply Hother; [discriminate | cbn; lia]].
Defined.

(** ** Prior scores *)

(** Prior scores that are given pass the checks exactly in the one
    shape, and are handed on as they are. *)
Lemma prepare_scores_given name y_name s n_samples n_scores :
  match fst (prepare_scores (S := unit) name y_name (Some s) n_samples n_scores tt) with
  | Ok x => x = s /\ shape s = score_shape n_samples n_scores
  | Raise _ => shape s <> score_shape n_samples n_scores
  end.
Proof.
  unfold prepare_scores, bind, lift_result, raise_if, raise, ret, score_shape,
    py_getitem, ndim, shape_at.
  destruct (shape s) as [| d0 [| d1 [| d2 rest]]] eqn:Hs.
  - cbn. destruct (n_scores =? 1); discriminate.
  - cbn. destruct (Z.eqb_spec d0 n_samples) as [-> | Hd0]; cbn.
    + destruct (n_scores =? 1); cbn; [auto | discriminate].
    + destruct (n_scores =? 1); congruence.
  - cbn. destruct (Z.eqb_spec d0 n_samples) as [-> | Hd0]; cbn.
    + destruct (n_scores =? 1); cbn; [discriminate |].
      destruct (Z.eqb_spec d1 n_scores) as [-> | Hd1]; cbn; [auto | congruence].
    + destruct (n_scores =? 1); congruence.
  - assert (H1 : (Z.of_nat (List.length (d0 :: d1 :: d2 :: rest)) =? 1) = false)
      by (apply Z.eqb_neq; cbn [List.length]; lia).
    assert (H2 : (Z.of_nat (List.length (d0 :: d1 :: d2 :: rest)) =? 2) = false)
      by (apply Z.eqb_neq; cbn [List.length]; lia).
    rewrite H1, H2. cbn.
    destruct (d0 =? n_samples); cbn; destruct (n_scores =? 1); cbn; discriminate.
Qed.

Section GivenScores.

Variable N : Native.
Variables (model_type : string) (n_classes : Z)
          (features_categorical : list bool) (features_bin_count : list Z)
          (feature_groups : list (list Z))
          (X_train : ndarray Z) (y_train w_train : ndarray double)
          (scores_train : tensor)
          (X_val : ndarray Z) (y_val w_val : ndarray double) (scores_val : tensor)
          (n_inner_bags random_state : Z)
          (optional_temp_params : option (list double)).

Local Abbreviation init :=
  (NativeEBMBooster__init__ N model_type n_classes features_categorical
     features_bin_count feature_groups X_train y_train w_train scores_train
     X_val y_val w_val scores_val n_inner_bags random_state optional_temp_params).

(** X14.  Prior scores that are given reach the engine as they are,
    and in one shape only.  Whenever the constructor of a training
    session calls the engine, the call is a [Create...Booster] whose
    data hold the given training scores and the given validation scores
    themselves, and each of them has the shape [(n_samples,)] when there
    is one score per sample (regression, at most two classes) and
    [(n_samples, n_classes)] otherwise.  Given scores of any other shape
    make the constructor raise, and the engine is not called. *)
Theorem given_scores_reach_engine_unchanged :
  forall (w : world N),
    let out := init w in
    let n_scores := get_count_scores_c n_classes in
    (forall c,
       calls (snd out) = calls w ++ [c] ->
       exists d,
         created_with c = Some d
         /\ (forall s, scores_train = Some s ->
               bd_scores_train d = s
               /\ shape s = score_shape (shape_at y_train 0) n_scores)
         /\ (forall s, scores_val = Some s ->
               bd_scores_val d = s
               /\ shape s = score_shape (shape_at y_val 0) n_scores))
    /\ (forall s,
          (scores_train = Some s
           /\ shape s <> score_shape (shape_at y_train 0) n_scores)
          \/ (scores_val = Some s
              /\ shape s <> score_shape (shape_at y_val 0) n_scores) ->
          snd out = w /\ exists e, fst out = Raise e).
Proof.
  intros w out n_scores. subst n_scores.
  destruct out as [r w1] eqn:H. subst out. cbn [fst snd].
  pose proof H as Hinv. apply init_inv in Hinv.
  assert (Hgiven : forall name y_name scores n st s,
             fst (prepare_scores (S := unit) name y_name scores n
                    (get_count_scores_c n_classes) tt) = Ok st ->
             scores = Some s ->
             st = s /\ shape s = score_shape n (get_count_scores_c n_classes)).
  { intros name y_name scores n st s Hp ->.
    pose proof (prepare_scores_given name y_name s n (get_count_scores_c n_classes))
      as Hg.
    rewrite Hp in Hg. exact Hg. }
  split.
  - intros c Hc.
    destruct Hinv as [[-> _] | (st & sv & rc & h & e1 & c' & Hst & Hsv & Hc' & -> & _)].
    + exfalso. apply (f_equal (@List.length _)) in Hc.
      rewrite length_app in Hc. cbn in Hc. lia.
    + cbn [calls] in Hc. apply app_inv_head in Hc. injection Hc as <-.
      eexists. split; [destruct Hc' as [-> | ->]; reflexivity |].
      unfold create_data. cbn [bd_scores_train bd_scores_val]. split.
      * intros s Hs. eapply Hgiven; eassumption.
      * intros s Hs. eapply Hgiven; eassumption.
  - intros s Hs.
    destruct Hinv as [[-> [e ->]] | (st & sv & rc & h & e1 & c' & Hst & Hsv & _)].
    + split; [reflexivity |]. exists e. reflexivity.
    + exfalso. destruct Hs as [[Hs Hne] | [Hs Hne]].
      * apply Hne. eapply Hgiven; eassumption.
      * apply Hne. eapply Hgiven; eassumption.
Qed.

End GivenScores.

(** Witness for X14: three classes, three training samples.  Scores
    of shape [(3, 3)] are part of the data of the create call; the same
    nine scores as a flat array, the layout of the zeros made when no
    scores are given, are refused. *)
Lemma given_scores_reach_engine_unchanged_witness :
  let given := mk_ndarray [3; 3] (int_metrics (range 9)) in
  let flat := mk_ndarray [9] (int_metrics (range 9)) in
  let opened scores :=
    NativeEBMBooster__init__ scripted "classification" 3 [true; false] [2; 4]
      [[0]; [1]; [0; 1]]
      (zeros_X 2 3) (zeros_y 3) (ones_w 3) (Some scores)
      (zeros_X 2 2) (zeros_y 2) (ones_w 2) None 0 42 None
      (scripted_world [] []) in
  (exists c d,
     calls (snd (opened given)) = [c]
     /\ created_with c = Some d
     /\ bd_scores_train d = given)
  /\ snd (opened flat) = scripted_world [] []
  /\ exists e, fst (opened flat) = Raise e.
Proof.
  intros given flat opened.
  pose proof (given_scores_reach_engine_unchanged scripted "classification" 3
                [true; false] [2; 4] [[0]; [1]; [0; 1]]
                (zeros_X 2 3) (zeros_y 3) (ones_w 3) (Some given)
                (zeros_X 2 2) (zeros_y 2) (ones_w 2) None 0 42 None
                (scripted_world [] [])) as Hgiven.
  pose proof (given_scores_reach_engine_unchanged scripted "classification" 3
                [true; false] [2; 4] [[0]; [1]; [0; 1]]
                (zeros_X 2 3) (zeros_y 3) (ones_w 3) (Some flat)
                (zeros_X 2 2) (zeros_y 2) (ones_w 2) None 0 42 None
                (scripted_world [] [])) as Hflat.
  cbv zeta in Hgiven, Hflat.
  destruct Hgiven as [Hcall _]. destruct Hflat as [_ Hrefused].
  split.
  - eassert (Hlog : calls (snd (opened given)) = [_]) by (vm_compute; reflexivity).
    destruct (Hcall _ Hlog) as (d & Hd & Htrain & _).
    eexists. exists d. split; [exact Hlog |]. split; [exact Hd |].
    apply (Htrain given eq_refl).
  - apply (Hrefused flat). left. split; [reflexivity | discriminate].
Defined.

(** ** Closing twice *)

Section Closing.

Variable N : Native.

(** X15.  [close] never fails and never changes the object it closes:
    the handle is kept, not cleared.  So closing is not idempotent: a
    second [close] of a training session hands the same, already freed
    handle to [FreeBooster] once more, and a second [close] of an
    interaction detector does the same with [FreeInteractionDetector]. *)
Theorem close_keeps_the_freed_handle :
  (forall s : bstate N,
     let h := _booster_handle (fst s) in
     let once := close N s in
     let twice := close N (snd once) in
     fst once = Ok tt /\ fst twice = Ok tt
     /\ fst (snd once) = fst s /\ fst (snd twice) = fst s
     /\ calls (snd (snd twice))
        = calls (snd s) ++ [CallFreeBooster h; CallFreeBooster h]
     /\ engine (snd (snd twice))
        = FreeBooster N h (FreeBooster N h (engine (snd s))))
  /\ (forall s : istate N,
        let h := _interaction_handle (fst s) in
        let once := close_interaction N s in
        let twice := close_interaction N (snd once) in
        fst once = Ok tt /\ fst twice = Ok tt
        /\ fst (snd once) = fst s /\ fst (snd twice) = fst s
        /\ calls (snd (snd twice))
           = calls (snd s)
             ++ [CallFreeInteractionDetector h; CallFreeInteractionDetector h]
        /\ engine (snd (snd twice))
           = FreeInteractionDetector N h
               (FreeInteractionDetector N h (engine (snd s)))).
Proof.
  split.
  - intros [self w] h once twice. subst h once twice.
    unfold close, bind, get_self, in_world, unsafe_void.
    cbn [fst snd calls engine]. rewrite <- app_assoc.
    repeat split; reflexivity.
  - intros [self w] h once twice. subst h once twice.
    unfold close_interaction, bind, get_self, in_world, unsafe_void.
    cbn [fst snd calls engine]. rewrite <- app_assoc.
    repeat split; reflexivity.
Qed.

End Closing.
